(** * AirLens: the pollutant resolution and AQI derivation pipeline of [app.py]

    A shallow embedding of the helper functions of [src/app.py]
    ([normalize_label], [pm25_to_aqi], [hourly_forecast_pm],
    [tempo_to_aod_proxy_from_no2], [fetch_satellite_proxy],
    [fetch_openaq_adaptive]) and of the module-level statements that
    complete the six pollutant slots, with the properties the specification
    states about them.

    Python [float] is IEEE 754 binary64.  It is modelled bit-exactly with the
    executable specification of the Standard Library ([SpecFloat], precision
    53, [emax] 1024, round to nearest even), so that every comparison and
    every arithmetic step evaluates to the value CPython computes.

    What the program takes from outside is kept abstract: the runtime and
    library functions that are not arithmetic ([Builtins]: parsing a [str]
    as a float, the Unicode case tables, [sin], [numpy.mean]) and the
    world ([Platform]: network, clock, Earth Engine, numpy's generators).
    Exceptions are values ([result]); effects thread a [state] that also
    logs the requests sent. *)

From Stdlib Require Import ZArith List Bool Lia String Ascii.
From Stdlib Require Import Floats.SpecFloat.
From Stdlib Require Import Sorting.Permutation.
Import ListNotations.

Set Warnings "-register-all".
Local Open Scope Z_scope.

(* ===================================================================== *)
(** * Binary64 arithmetic                                                 *)
(* ===================================================================== *)

Module F64.

Definition prec : Z := 53.
Definition emax : Z := 1024.

(** A Python [float]. *)
Definition float : Type := spec_float.

Definition add : float -> float -> float := SFadd prec emax.
Definition sub : float -> float -> float := SFsub prec emax.
Definition mul : float -> float -> float := SFmul prec emax.
Definition div : float -> float -> float := SFdiv prec emax.
Definition abs : float -> float := SFabs.

(** [x < y], [x <= y] and [x == y] on floats; all three are [false] as
    soon as one side is a NaN. *)
Definition ltb : float -> float -> bool := SFltb.
Definition leb : float -> float -> bool := SFleb.
Definition eqb : float -> float -> bool := SFeqb.

Definition is_nan (x : float) : bool :=
  match x with S754_nan => true | _ => false end.

Definition is_finite (x : float) : bool :=
  match x with S754_zero _ | S754_finite _ _ _ => true | _ => false end.

Definition is_inf (x : float) : bool :=
  match x with S754_infinity _ => true | _ => false end.

(** [float(z)] for a Python [int] whose value rounds into the finite
    range, and the value of an integer literal written with a decimal
    point ([150.0]). *)
Definition of_Z (z : Z) : float := binary_normalize prec emax z 0 false.

(** The float denoted by the decimal literal [n / 10^k] ([dec 121 1] is
    [12.1]): the correctly rounded quotient of two exactly represented
    integers. *)
Definition dec (n : Z) (k : nat) : float :=
  div (of_Z n) (of_Z (10 ^ Z.of_nat k)).

(** Exact value of a finite float as a fraction [num / 2^sh]. *)
Definition num_sh (s : bool) (m : positive) (e : Z) : Z * Z :=
  let n := if s then Z.neg m else Z.pos m in
  if 0 <=? e then (n * 2 ^ e, 0) else (n, - e).

(** Nearest integer to [n / d] ([d > 0]), ties to the even one. *)
Definition rne_div (n d : Z) : Z :=
  let q := n / d in
  let r := n mod d in
  match 2 * r ?= d with
  | Lt => q
  | Gt => q + 1
  | Eq => if Z.even q then q else q + 1
  end.

(** [round(x)] with one argument: the nearest Python [int], ties to even;
    [None] where CPython raises ([ValueError] on NaN, [OverflowError] on
    an infinity). *)
Definition round_int (x : float) : option Z :=
  match x with
  | S754_zero _ => Some 0
  | S754_finite s m e =>
      let '(n, sh) := num_sh s m e in Some (rne_div n (2 ^ sh))
  | _ => None
  end.

(** [int(x)]: truncation towards zero, [None] where CPython raises. *)
Definition trunc_int (x : float) : option Z :=
  match x with
  | S754_zero _ => Some 0
  | S754_finite s m e =>
      let '(n, sh) := num_sh s m e in Some (Z.quot n (2 ^ sh))
  | _ => None
  end.

(** [round(x, k)] for [k >= 0]: the exact value of [x] is rounded to [k]
    decimals, ties to even, and the decimal result is converted back to
    the nearest float (CPython goes through its correctly rounded
    decimal conversions); zeros, infinities and NaN round to themselves
    and the sign of [x] is kept. *)
Definition round_nd (x : float) (k : nat) : float :=
  match x with
  | S754_finite s m e =>
      let '(n, sh) := num_sh false m e in
      let t := rne_div (n * 10 ^ Z.of_nat k) (2 ^ sh) in
      match t with
      | Zpos p =>
          SFdiv prec emax (S754_finite s p 0)
                (S754_finite false (Z.to_pos (10 ^ Z.of_nat k)) 0)
      | _ => S754_zero s
      end
  | _ => x
  end.

(** C [fmod(x, y)] on finite operands: the exact remainder of the
    truncated division, with the sign of [x]. *)
Definition fmod_finite (sx : bool) (mx : positive) (ex : Z)
                       (my : positive) (ey : Z) : float :=
  let e := Z.min ex ey in
  let r := Z.rem (Z.pos mx * 2 ^ (ex - e)) (Z.pos my * 2 ^ (ey - e)) in
  binary_normalize prec emax (if sx then - r else r) e sx.

(** [x % y] on floats for a finite [y > 0] (the only use in the source
    is [% 10000]): [fmod], moved into [[0, y)] by one rounded addition
    when it is negative; a zero remainder is [+0.0]; an infinite or NaN
    [x] gives NaN. *)
Definition pymod_pos (x y : float) : float :=
  match x, y with
  | S754_zero _, _ => S754_zero false
  | S754_finite sx mx ex, S754_finite false my ey =>
      match fmod_finite sx mx ex my ey with
      | S754_zero _ => S754_zero false
      | r => if ltb r (S754_zero false) then add r y else r
      end
  | _, _ => S754_nan
  end.

(** [a / b] on two Python [int]s, [b > 0]: the correctly rounded
    quotient. *)
Definition int_truediv (a : Z) (b : positive) : float :=
  match a with
  | Z0 => S754_zero false
  | Zpos p => div (S754_finite false p 0) (S754_finite false b 0)
  | Zneg p => div (S754_finite true p 0) (S754_finite false b 0)
  end.

(** The two-argument builtin [max(a, b)]: [b] when [b > a], else [a]. *)
Definition max2 (a b : float) : float := if ltb a b then b else a.

(** [numpy.clip] on a scalar: a NaN is propagated, otherwise
    [minimum(maximum(x, lo), hi)]. *)
Definition np_clip (x lo hi : float) : float :=
  if is_nan x then x
  else
    let t := if ltb lo x then x else lo in
    if ltb t hi then t else hi.

End F64.

Abbreviation float := F64.float.

Declare Scope f64_scope.
Delimit Scope f64_scope with f64.
Infix "+" := F64.add : f64_scope.
Infix "-" := F64.sub : f64_scope.
Infix "*" := F64.mul : f64_scope.
Infix "/" := F64.div : f64_scope.
Infix "<?" := F64.ltb : f64_scope.
Infix "<=?" := F64.leb : f64_scope.

(* ===================================================================== *)
(** * Python values                                                       *)
(* ===================================================================== *)

(** A Python [str] is a sequence of Unicode code points. *)
Definition pystr : Type := list N.

(** The [str] written by an ASCII literal of the source. *)
Definition py (s : string) : pystr := map N_of_ascii (list_ascii_of_string s).

(** [a == b] on two [str]. *)
Fixpoint pystr_eqb (a b : pystr) : bool :=
  match a, b with
  | [], [] => true
  | x :: a', y :: b' => (x =? y)%N && pystr_eqb a' b'
  | _, _ => false
  end.

(** The values that travel through the pipeline: what [json] decoding
    produces and what the code stores in its dictionaries. *)
Inductive pyval : Type :=
| PNone
| PBool (b : bool)
| PInt (z : Z)
| PFloat (x : float)
| PStr (s : pystr)
| PList (l : list pyval)
| PDict (d : list (pystr * pyval)).

Inductive exn : Type :=
| TypeError | ValueError | AttributeError | NameError | OverflowError
| JSONDecodeError.

(** Outcome of a computation that can raise. *)
Inductive result (A : Type) : Type :=
| Ok (a : A)
| Raise (e : exn).
Arguments Ok {A} a.
Arguments Raise {A} e.

Definition rbind {A B} (c : result A) (k : A -> result B) : result B :=
  match c with Ok a => k a | Raise e => Raise e end.

Declare Scope py_scope.
Delimit Scope py_scope with pym.
Notation "x <- c ;; k" := (rbind c (fun x => k))
  (at level 100, c at next level, right associativity) : py_scope.

(** [try: c  except Exception: h] *)
Definition try_except {A} (c : result A) (h : A) : A :=
  match c with Ok a => a | Raise _ => h end.

(** What the pipeline takes from the Python runtime and its libraries
    without looking inside. *)
Class Builtins : Type := {
  (** [float(s)] on a [str]: the parsed value, or [None] for [ValueError]. *)
  float_of_str : pystr -> option float;
  (** [str.lower] on one code point outside ASCII, given the text before
      and after it (the Unicode tables). *)
  lower_nonascii : pystr -> N -> pystr -> pystr;
  (** [str(v)] on a value that is not a [str]. *)
  repr : pyval -> pystr;
  (** The C library's [sin], which [math.sin] calls on a finite or NaN
      argument. *)
  libm_sin : float -> float;
  (** [numpy.mean] of a list of numbers. *)
  np_mean : list pyval -> result float;
  (** [a > b] where the operands are not two [str]. *)
  gt_other : pyval -> pyval -> result bool
}.

Section Conversions.
Context {B : Builtins}.

(** [float(v)] *)
Definition py_float (v : pyval) : result float :=
  match v with
  | PFloat x => Ok x
  | PInt z =>
      if F64.is_finite (F64.of_Z z) then Ok (F64.of_Z z)
      else Raise OverflowError
  | PBool b => Ok (F64.of_Z (if b then 1 else 0))
  | PStr s =>
      match float_of_str s with
      | Some x => Ok x
      | None => Raise ValueError
      end
  | PNone | PList _ | PDict _ => Raise TypeError
  end.

(** [str(v)] *)
Definition py_str (v : pyval) : pystr :=
  match v with PStr s => s | _ => repr v end.

End Conversions.

(** Truth value of an object. *)
Definition truthy (v : pyval) : bool :=
  match v with
  | PNone => false
  | PBool b => b
  | PInt z => negb (z =? 0)
  | PFloat x => negb (F64.eqb x (S754_zero false))
  | PStr s => match s with [] => false | _ => true end
  | PList l => match l with [] => false | _ => true end
  | PDict d => match d with [] => false | _ => true end
  end.

Fixpoint assoc {V} (k : pystr) (d : list (pystr * V)) : option V :=
  match d with
  | [] => None
  | (k', v) :: d' => if pystr_eqb k k' then Some v else assoc k d'
  end.

(** [v.get(k, dflt)]: only a [dict] has the method. *)
Definition py_get_default (v : pyval) (k : pystr) (dflt : pyval) : result pyval :=
  match v with
  | PDict d => Ok (match assoc k d with Some x => x | None => dflt end)
  | _ => Raise AttributeError
  end.

(** [v.get(k)] *)
Definition py_get (v : pyval) (k : pystr) : result pyval :=
  py_get_default v k PNone.

(** The items a [for] loop draws from [v]. *)
Definition py_iter (v : pyval) : result (list pyval) :=
  match v with
  | PList l => Ok l
  | PDict d => Ok (map (fun kv => PStr (fst kv)) d)
  | PStr s => Ok (map (fun c => PStr [c]) s)
  | _ => Raise TypeError
  end.

Definition is_dict (v : pyval) : bool :=
  match v with PDict _ => true | _ => false end.

(** [isinstance(v, (int, float))]; a [bool] is an [int]. *)
Definition is_int_or_float (v : pyval) : bool :=
  match v with PBool _ | PInt _ | PFloat _ => true | _ => false end.

Definition is_none (v : pyval) : bool :=
  match v with PNone => true | _ => false end.

(* ===================================================================== *)
(** * Helpers of [app.py]                                                 *)
(* ===================================================================== *)

(** ** [normalize_label] *)

Definition is_ascii_upper (c : N) : bool := ((65 <=? c) && (c <=? 90))%N.
Definition is_lower_alnum (c : N) : bool :=
  (((97 <=? c) && (c <=? 122)) || ((48 <=? c) && (c <=? 57)))%N.

Section NormalizeLabel.
Context {B : Builtins}.

(** [str.lower] on the code point [c] found between [before] and
    [after]. *)
Definition lower_cp (before : pystr) (c : N) (after : pystr) : pystr :=
  if is_ascii_upper c then [(c + 32)%N]
  else if (c <? 128)%N then [c]
  else lower_nonascii before c after.

Fixpoint lower_from (before s : pystr) : pystr :=
  match s with
  | [] => []
  | c :: after => lower_cp before c after ++ lower_from (before ++ [c]) after
  end.

(** [s.lower()] *)
Definition str_lower (s : pystr) : pystr := lower_from [] s.

(** [s.replace(old, new)] for a one-character [old]. *)
Definition replace_cp (old new : N) (s : pystr) : pystr :=
  map (fun c => if (c =? old)%N then new else c) s.

(** [re.sub(r"[^a-z0-9]", "", s)] *)
Definition strip_non_alnum (s : pystr) : pystr := filter is_lower_alnum s.

Definition SUB2 : N := 8322.  (* U+2082, subscript two *)
Definition SUB3 : N := 8323.  (* U+2083, subscript three *)
Definition SUB5 : N := 8325.  (* U+2085, subscript five *)

Definition normalize_label (lbl : pyval) : pystr :=
  if is_none lbl then []
  else
    let s := str_lower (py_str lbl) in
    let s := replace_cp SUB5 53 (replace_cp SUB3 51 (replace_cp SUB2 50 s)) in
    strip_non_alnum s.

End NormalizeLabel.

(** ** [pm25_to_aqi] *)

Definition EPA_BP : list (float * float * Z * Z) :=
  [ (F64.dec 0 1,    F64.dec 120 1,  0,   50);
    (F64.dec 121 1,  F64.dec 354 1,  51,  100);
    (F64.dec 355 1,  F64.dec 554 1,  101, 150);
    (F64.dec 555 1,  F64.dec 1504 1, 151, 200);
    (F64.dec 1505 1, F64.dec 2504 1, 201, 300);
    (F64.dec 2505 1, F64.dec 3504 1, 301, 400);
    (F64.dec 3505 1, F64.dec 5004 1, 401, 500) ].

Section Aqi.
Context {B : Builtins}.
Local Open Scope f64_scope.

(** [pm_l <= pm <= pm_h] *)
Definition in_band (band : float * float * Z * Z) (pm : float) : bool :=
  let '(pm_l, pm_h, _, _) := band in (pm_l <=? pm) && (pm <=? pm_h).

(** The [for] loop over the breakpoint table. *)
Fixpoint aqi_bands (bp : list (float * float * Z * Z)) (pm : float)
  : result Z :=
  match bp with
  | [] => Ok 500%Z
  | (pm_l, pm_h, a_l, a_h) :: bp' =>
      if in_band (pm_l, pm_h, a_l, a_h) pm then
        let aqi := (F64.of_Z (a_h - a_l) / (pm_h - pm_l)) * (pm - pm_l)
                   + F64.of_Z a_l in
        match F64.round_int aqi with
        | Some n => Ok n
        | None => Raise ValueError
        end
      else aqi_bands bp' pm
  end.

(** [pm25_to_aqi(pm)]: [Ok None] is the returned [None]. *)
Definition pm25_to_aqi (pm : pyval) : result (option Z) :=
  match py_float pm with
  | Raise _ => Ok None
  | Ok x =>
      match aqi_bands EPA_BP x with
      | Ok n => Ok (Some n)
      | Raise e => Raise e
      end
  end.

End Aqi.

(* ===================================================================== *)
(** * The world outside the process                                       *)
(* ===================================================================== *)

Inductive endpoint : Type :=
| OPENAQ_LATEST         (* https://api.openaq.org/v2/latest *)
| OPENAQ_MEASUREMENTS.  (* https://api.openaq.org/v2/measurements *)

(** The [params] of one [safe_get]; [date_from] is the UTC day (days since
    the epoch) that [strftime("%Y-%m-%d")] prints. *)
Record request : Type := {
  req_url : endpoint;
  req_coordinates : float * float;
  req_radius : Z;
  req_limit : Z;
  req_date_from : option Z
}.

(** Network, clock, satellite backend and numpy's generators.  Every
    operation on the world may change it. *)
Class Platform : Type := {
  world : Type;
  (** [safe_get(url, params)] followed by [resp.json()]: [None] when
      [safe_get] returns [None], [Some (Raise _)] when decoding raises. *)
  http_get_json : request -> world -> option (result pyval) * world;
  (** [datetime.utcnow()], in microseconds since the epoch. *)
  utcnow : world -> Z * world;
  (** [np.random.uniform(lo, hi)] and [np.random.normal(loc, scale)] on
      numpy's global generator. *)
  np_random_uniform : float -> float -> world -> float * world;
  np_random_normal : float -> float -> world -> result float * world;
  (** Whether [ee.Initialize()] succeeded at import time. *)
  EE_AVAILABLE : bool;
  (** The Earth Engine calls of [get_tempo_no2_via_ee]: the sampled value
      ([None] when there is no sample), or an exception. *)
  ee_tempo_sample : float -> float -> world -> result (option pyval) * world;
  (** The Earth Engine calls of [get_modis_aod_via_ee]: what
      [getInfo().get(band, None)] yields, or an exception. *)
  ee_modis_mean : float -> float -> world -> result pyval * world;
  (** A [numpy.random.Generator]: [default_rng(seed)] and one
      [rng.normal(loc, scale)] draw. *)
  generator : Type;
  default_rng : Z -> generator;
  generator_normal : float -> float -> generator -> float * generator
}.

Section Effects.
Context {P : Platform}.

(** The state threaded through the program: the world, and the requests
    sent so far (oldest first). *)
Record state : Type := { st_world : world; st_log : list request }.

Definition M (A : Type) : Type := state -> A * state.

Definition ret {A} (a : A) : M A := fun s => (a, s).
Definition bind {A C} (c : M A) (k : A -> M C) : M C :=
  fun s => let '(a, s') := c s in k a s'.

Definition lift {A} (op : world -> A * world) : M A :=
  fun s =>
    let '(a, w') := op (st_world s) in
    (a, {| st_world := w'; st_log := st_log s |}).

Definition safe_get_json (req : request) : M (option (result pyval)) :=
  fun s =>
    let '(r, w') := http_get_json req (st_world s) in
    (r, {| st_world := w'; st_log := st_log s ++ [req] |}).

End Effects.

Declare Scope io_scope.
Delimit Scope io_scope with io.
Notation "x <~ c ;; k" := (bind c (fun x => k))
  (at level 100, c at next level, right associativity) : io_scope.

(** The literals of the source. *)
Definition f0_03 : float := F64.dec 3 2.
Definition f0_1 : float := F64.dec 1 1.
Definition f0_2 : float := F64.dec 2 1.
Definition f0_6 : float := F64.dec 6 1.
Definition f1_0 : float := F64.of_Z 1.
Definition f1_4 : float := F64.dec 14 1.
Definition f12_0 : float := F64.of_Z 12.
Definition f48_0 : float := F64.of_Z 48.
Definition f150_0 : float := F64.of_Z 150.
Definition f3600_0 : float := F64.of_Z 3600.
Definition f1e16 : float := F64.of_Z (10 ^ 16).
Definition f0_02 : float := F64.dec 2 2.

(** ** Satellite proxy *)

Section Satellite.
Context {B : Builtins} {P : Platform}.
Local Open Scope f64_scope.

(** [get_tempo_no2_via_ee]: every exception becomes [None]. *)
Definition get_tempo_no2_via_ee (lat lon : float) : M (option float) :=
  if negb EE_AVAILABLE then ret None
  else
    (sample <~ lift (ee_tempo_sample lat lon) ;;
     ret match sample with
         | Ok (Some val) => try_except (x <- py_float val ;; Ok (Some x))%pym None
         | _ => None
         end)%io.

(** [get_modis_aod_via_ee] *)
Definition get_modis_aod_via_ee (lat lon : float) : M (option float) :=
  if negb EE_AVAILABLE then ret None
  else
    (val <~ lift (ee_modis_mean lat lon) ;;
     ret match val with
         | Ok v =>
             if is_none v then None
             else try_except (x <- py_float v ;; Ok (Some x))%pym None
         | Raise _ => None
         end)%io.

(** [tempo_to_aod_proxy_from_no2] *)
Definition tempo_to_aod_proxy_from_no2 (no2_col : pyval) : option float :=
  try_except
    (x <- py_float no2_col ;;
     Ok (Some (F64.np_clip (x / f1e16) f0_03 f1_0)))%pym
    None.

Definition DEMO_FALLBACK : pystr := py "DEMO_FALLBACK".
Definition PM25_PROXY : pystr := py "PM2.5_proxy".

(** [fetch_satellite_proxy] *)
Definition fetch_satellite_proxy (lat lon : float) : M (option float * pystr) :=
  if EE_AVAILABLE then
    (no2 <~ get_tempo_no2_via_ee lat lon ;;
     match
       match no2 with
       | Some x =>
           match tempo_to_aod_proxy_from_no2 (PFloat x) with
           | Some proxy =>
               Some (Some proxy,
                     py "TEMPO_NO2 (proxy:"
                        ++ py_str (PFloat (F64.round_nd x 3)) ++ py ")")
           | None => None
           end
       | None => None
       end
     with
     | Some out => ret out
     | None =>
         mod_ <~ get_modis_aod_via_ee lat lon ;;
         match mod_ with
         | Some x =>
             ret (Some (F64.np_clip x f0_03 f1_0),
                  py "MODIS_AOD("
                     ++ py_str (PFloat (F64.round_nd x 3)) ++ py ")")
         | None => ret (None, DEMO_FALLBACK)
         end
     end)%io
  else ret (None, DEMO_FALLBACK).

(** The satellite integration of the main script: the PM2.5-derived
    proxy when [fetch_satellite_proxy] has no value. *)
Definition satellite_integration (lat lon : float) (pm25 : pyval)
  : M (result (float * pystr)) :=
  (out <~ fetch_satellite_proxy lat lon ;;
   let '(aod_val, aod_source) := out in
   match aod_val with
   | Some v => ret (Ok (v, aod_source))
   | None =>
       ret (x <- py_float pm25 ;;
            Ok (F64.np_clip (x / f150_0) f0_03 f1_0,
                if pystr_eqb aod_source DEMO_FALLBACK then PM25_PROXY
                else aod_source))%pym
   end)%io.

End Satellite.

(** ** Forecast *)

Section Forecast.
Context {B : Builtins} {P : Platform}.
Local Open Scope f64_scope.

(** The loop of [hourly_forecast_pm]: [n] steps of the walk. *)
Fixpoint forecast_walk (n : nat) (scale last : float) (rng : generator)
  : list float :=
  match n with
  | O => []
  | S n' =>
      let '(step, rng') := generator_normal (F64.of_Z 0) scale rng in
      let last' := F64.max2 f0_1 (last + step) in
      F64.round_nd last' 1 :: forecast_walk n' scale last' rng'
  end.

(** [hourly_forecast_pm(current_pm, hours, variance)] *)
Definition hourly_forecast_pm (current_pm : pyval) (hours : Z)
           (variance : float) : result (list float) :=
  (x <- py_float current_pm ;;
   match F64.trunc_int (F64.pymod_pos (x * F64.of_Z 100) (F64.of_Z 10000)) with
   | None => Raise ValueError
   | Some seed =>
       let rng := default_rng seed in
       Ok (forecast_walk (Z.to_nat hours)
                         (F64.max2 f0_2 (x * variance)) x rng)
   end)%pym.

End Forecast.

(** ** Ground stations: [fetch_openaq_adaptive] *)

Inductive mode : Type :=
| latest   (* "latest" *)
| pseudo.  (* "pseudo" *)

(** The returned tuple [(res, used_radius, parsed_measures, source_type)]. *)
Definition resolved : Type := pyval * option Z * list pyval * option mode.

Definition EMPTY_RESULT : resolved := (PNone, None, [], None).

Definition DEFAULT_RADII : list Z := [5000; 20000; 50000; 100000; 200000].

(** [a < b] on two [str]: code point by code point. *)
Fixpoint pystr_ltb (a b : pystr) : bool :=
  match a, b with
  | _, [] => false
  | [], _ :: _ => true
  | x :: a', y :: b' =>
      if (x <? y)%N then true
      else if (y <? x)%N then false
      else pystr_ltb a' b'
  end.

(** Values a [dict] accepts as keys. *)
Definition hashable (v : pyval) : bool :=
  match v with PList _ | PDict _ => false | _ => true end.

(** Exact value [n / 2^sh] of a finite number. *)
Definition exact_value (v : pyval) : option (Z * Z) :=
  match v with
  | PBool b => Some (if b then 1 else 0, 0)
  | PInt z => Some (z, 0)
  | PFloat (S754_zero _) => Some (0, 0)
  | PFloat (S754_finite s m e) => Some (F64.num_sh s m e)
  | _ => None
  end.

(** Whether a [dict] takes [a] and [b] for the same key: the same object,
    or [a == b].  Numbers are compared by value across [bool], [int] and
    [float].  The keys of this program are values of a decoded payload,
    where every [NaN] is the one object the [json] decoder holds for that
    constant: a [dict] finds it by identity, although [nan == nan] is
    false. *)
Definition key_eqb (a b : pyval) : bool :=
  match a, b with
  | PNone, PNone => true
  | PStr s, PStr t => pystr_eqb s t
  | PFloat S754_nan, PFloat S754_nan => true
  | PFloat x, PFloat y => F64.eqb x y
  | _, _ =>
      match exact_value a, exact_value b with
      | Some (n1, s1), Some (n2, s2) => n1 * 2 ^ s2 =? n2 * 2 ^ s1
      | _, _ => false
      end
  end.

Fixpoint mapM {A C} (f : A -> result C) (l : list A) : result (list C) :=
  match l with
  | [] => Ok []
  | a :: l' => (c <- f a ;; cs <- mapM f l' ;; Ok (c :: cs))%pym
  end.

Fixpoint foldM {A S} (f : S -> A -> result S) (l : list A) (s : S) : result S :=
  match l with
  | [] => Ok s
  | a :: l' => (s' <- f s a ;; foldM f l' s')%pym
  end.

Section Resolver.
Context {B : Builtins} {P : Platform}.
Local Open Scope pym.

(** The timestamp of a raw measurement: [date.utc], else [date.local],
    else [lastUpdated]. *)
Definition measurement_time (m : pyval) : result pyval :=
  d <- py_get m (py "date") ;;
  dt <- (if is_dict d then
           u <- py_get d (py "utc") ;;
           if truthy u then Ok u else py_get d (py "local")
         else Ok PNone) ;;
  if truthy dt then Ok dt else py_get m (py "lastUpdated").

Definition measure (p v dt : pyval) : pyval :=
  PDict [(py "parameter", p); (py "value", v); (py "lastUpdated", dt)].

Definition parse_latest (m : pyval) : result pyval :=
  p <- py_get m (py "parameter") ;;
  v <- py_get m (py "value") ;;
  dt <- measurement_time m ;;
  Ok (measure p v dt).

(** [for res in results: if res.get("measurements"): ... return] *)
Fixpoint first_with_measurements (r : Z) (results : list pyval)
  : result (option resolved) :=
  match results with
  | [] => Ok None
  | res :: rest =>
      g <- py_get res (py "measurements") ;;
      if truthy g then
        ms <- py_get_default res (py "measurements") (PList []) ;;
        items <- py_iter ms ;;
        parsed <- mapM parse_latest items ;;
        Ok (Some (res, Some r, parsed, Some latest))
      else first_with_measurements r rest
  end.

(** Body of the first [try], after [safe_get]. *)
Definition latest_body (r : Z) (resp : option (result pyval))
  : result (option resolved) :=
  match resp with
  | None => Ok None
  | Some decoded =>
      j <- decoded ;;
      results <- py_get_default j (py "results") (PList []) ;;
      if truthy results then
        items <- py_iter results ;;
        first_with_measurements r items
      else Ok None
  end.

(** [by_loc]: location, its measurements in arrival order, coordinates
    of the first one. *)
Definition by_loc_t : Type := list (pyval * (list pyval * pyval)).

Fixpoint by_loc_add (loc m coords : pyval) (by_loc : by_loc_t) : by_loc_t :=
  match by_loc with
  | [] => [(loc, ([m], coords))]
  | (k, (ms, c)) :: rest =>
      if key_eqb loc k then (k, (ms ++ [m], c)) :: rest
      else (k, (ms, c)) :: by_loc_add loc m coords rest
  end.

Definition group_step (by_loc : by_loc_t) (m : pyval) : result by_loc_t :=
  loc <- py_get m (py "location") ;;
  if hashable loc then
    coords <- py_get m (py "coordinates") ;;
    Ok (by_loc_add loc m coords by_loc)
  else Raise TypeError.

(** [max(by_loc.items(), key=...)]: the first entry with the most
    measurements. *)
Fixpoint max_by_len (best : pyval * (list pyval * pyval)) (rest : by_loc_t)
  : pyval * (list pyval * pyval) :=
  match rest with
  | [] => best
  | e :: rest' =>
      if (List.length (fst (snd best)) <? List.length (fst (snd e)))%nat
      then max_by_len e rest'
      else max_by_len best rest'
  end.

Fixpoint key_lookup {V} (k : pyval) (d : list (pyval * V)) : option V :=
  match d with
  | [] => None
  | (k', v) :: d' => if key_eqb k k' then Some v else key_lookup k d'
  end.

Fixpoint key_update {V} (k : pyval) (f : option V -> V) (d : list (pyval * V))
  : list (pyval * V) :=
  match d with
  | [] => [(k, f None)]
  | (k', v) :: d' =>
      if key_eqb k k' then (k', f (Some v)) :: d'
      else (k', v) :: key_update k f d'
  end.

(** [a > b] *)
Definition py_gt (a b : pyval) : result bool :=
  match a, b with
  | PStr s, PStr t => Ok (pystr_ltb t s)
  | _, _ => gt_other a b
  end.

(** One measurement of the best station: [params_seen] and
    [latest_ts]. *)
Definition collect_step
           (acc : list (pyval * list pyval) * list (pyval * pyval))
           (m : pyval)
  : result (list (pyval * list pyval) * list (pyval * pyval)) :=
  let '(params_seen, latest_ts) := acc in
  p <- py_get m (py "parameter") ;;
  v <- py_get m (py "value") ;;
  if truthy p && is_int_or_float v then
    if hashable p then
      let params_seen' :=
        key_update p (fun o => match o with Some arr => arr ++ [v] | None => [v] end)
                   params_seen in
      dt <- measurement_time m ;;
      if truthy dt then
        newer <- match key_lookup p latest_ts with
                 | None => Ok true
                 | Some old => py_gt dt old
                 end ;;
        if newer
        then Ok (params_seen', key_update p (fun _ => dt) latest_ts)
        else Ok (params_seen', latest_ts)
      else Ok (params_seen', latest_ts)
    else Raise TypeError
  else Ok acc.

Definition parse_pseudo (latest_ts : list (pyval * pyval))
           (entry : pyval * list pyval) : result pyval :=
  let '(p, arr) := entry in
  measures_avg <- np_mean arr ;;
  Ok (measure p (PFloat (F64.round_nd measures_avg 2))
              (match key_lookup p latest_ts with Some t => t | None => PNone end)).

(** Body of the second [try], after [safe_get]. *)
Definition measurements_body (r : Z) (resp : option (result pyval))
  : result (option resolved) :=
  match resp with
  | None => Ok None
  | Some decoded =>
      j <- decoded ;;
      meas <- py_get_default j (py "results") (PList []) ;;
      if truthy meas then
        items <- py_iter meas ;;
        by_loc <- foldM group_step items [] ;;
        match by_loc with
        | [] => Raise ValueError
        | e :: rest =>
            let '(best_loc, (best_ms, coords)) := max_by_len e rest in
            acc <- foldM collect_step best_ms ([], []) ;;
            let '(params_seen, latest_ts) := acc in
            parsed <- mapM (parse_pseudo latest_ts) params_seen ;;
            Ok (Some (PDict [(py "location", best_loc);
                             (py "coordinates", coords);
                             (py "measurements", PList parsed)],
                      Some r, parsed, Some pseudo))
        end
      else Ok None
  end.

End Resolver.

Section Sweeps.
Context {B : Builtins} {P : Platform}.
Local Open Scope io.

Definition US_PER_DAY : Z := 86400 * 10 ^ 6.

Definition latest_request (lat lon : float) (r : Z) : request :=
  {| req_url := OPENAQ_LATEST; req_coordinates := (lat, lon);
     req_radius := r; req_limit := 100; req_date_from := None |}.

(** [date_from] is the day of [utcnow() - timedelta(days=days)]. *)
Definition measurements_request (lat lon : float) (r days now : Z) : request :=
  {| req_url := OPENAQ_MEASUREMENTS; req_coordinates := (lat, lon);
     req_radius := r; req_limit := 200;
     req_date_from := Some ((now - days * US_PER_DAY) / US_PER_DAY) |}.

(** 1) try latest *)
Fixpoint sweep_latest (lat lon : float) (radii : list Z) : M (option resolved) :=
  match radii with
  | [] => ret None
  | r :: rest =>
      resp <~ safe_get_json (latest_request lat lon r) ;;
      match try_except (latest_body r resp) None with
      | Some out => ret (Some out)
      | None => sweep_latest lat lon rest
      end
  end.

(** 2) try measurements for short-term mean *)
Fixpoint sweep_measurements (lat lon : float) (radii : list Z)
  : M (option resolved) :=
  match radii with
  | [] => ret None
  | r :: rest =>
      now <~ lift utcnow ;;
      resp <~ safe_get_json (measurements_request lat lon r 30 now) ;;
      match try_except (measurements_body r resp) None with
      | Some out => ret (Some out)
      | None => sweep_measurements lat lon rest
      end
  end.

Definition fetch_openaq_adaptive (lat lon : float) (radii : list Z) : M resolved :=
  a <~ sweep_latest lat lon radii ;;
  match a with
  | Some out => ret out
  | None =>
      b <~ sweep_measurements lat lon radii ;;
      match b with
      | Some out => ret out
      | None => ret EMPTY_RESULT
      end
  end.

End Sweeps.

(** ** The pollutant slots of the main script *)

(** The six keys of [polls], in the order of the dictionary literal. *)
Definition POLLUTANTS : list pystr :=
  [py "pm25"; py "pm10"; py "no2"; py "so2"; py "o3"; py "co"].

Definition polls_t : Type := list (pystr * pyval).
Definition flags_t : Type := list (pystr * bool).

Definition polls_init : polls_t := map (fun k => (k, PNone)) POLLUTANTS.
Definition live_flags_init : flags_t := map (fun k => (k, false)) POLLUTANTS.

(** [d[k] = v] *)
Fixpoint dict_set {V} (k : pystr) (v : V) (d : list (pystr * V)) : list (pystr * V) :=
  match d with
  | [] => [(k, v)]
  | (k', v') :: d' =>
      if pystr_eqb k k' then (k', v) :: d' else (k', v') :: dict_set k v d'
  end.

Definition dict_in {V} (k : pystr) (d : list (pystr * V)) : bool :=
  match assoc k d with Some _ => true | None => false end.

(** [polls[k]] and [polls.get(k)]: [None] stands for a missing key, which
    [polls] never has. *)
Definition polls_get (k : pystr) (polls : polls_t) : pyval :=
  match assoc k polls with Some v => v | None => PNone end.

Definition flag_get (k : pystr) (flags : flags_t) : bool :=
  match assoc k flags with Some b => b | None => false end.

(** What a global name of the module is bound to, if it is bound. *)
Definition global_fn (A C : Type) : Type := option (A -> result C).

(** Calling a global name: [NameError] when nothing binds it. *)
Definition call_global {A C} (f : global_fn A C) (a : A) : result C :=
  match f with Some g => g a | None => Raise NameError end.

(** [iso_to_dt] in [app.py]: the name is used once and neither defined nor
    imported anywhere in the module. *)
Definition iso_to_dt : global_fn pyval (option Z) := None.

(** The UNRESOLVED mark [—] (U+2014) of the last [except]. *)
Definition DASH : pystr := [8212%N].

Section Completion.
Context {B : Builtins} {P : Platform}.

(** [(utcnow() - dtt).total_seconds() / 3600.0], times in microseconds. *)
Definition age_hr (now dtt : Z) : float :=
  (F64.int_truediv (now - dtt) (10 ^ 6) / f3600_0)%f64.

Section WithGlobals.
(** The binding of [iso_to_dt] the loop runs with. *)
Variable iso_to_dt_binding : global_fn pyval (option Z).

(** Body of [for m in parsed_measures]. *)
Definition ingest_one (source_type : option mode)
           (pf : polls_t * flags_t) (m : pyval)
  : M (result (polls_t * flags_t)) :=
  let '(polls, live_flags) := pf in
  match (p <- py_get m (py "parameter") ;;
         val <- py_get m (py "value") ;;
         ts <- py_get m (py "lastUpdated") ;;
         Ok (normalize_label p, val, ts))%pym with
  | Raise e => ret (Raise e)
  | Ok (key, val, ts) =>
      if dict_in key polls && negb (is_none val) then
        let polls' :=
          dict_set key
            (try_except (x <- py_float val ;; Ok (PFloat x))%pym val) polls in
        match source_type with
        | Some latest => ret (Ok (polls', dict_set key true live_flags))
        | Some pseudo =>
            if truthy ts then
              match call_global iso_to_dt_binding ts with
              | Ok (Some dtt) =>
                  (now <~ lift utcnow ;;
                   ret (Ok (polls',
                            dict_set key (F64.leb (age_hr now dtt) f48_0)
                                     live_flags)))%io
              | Ok None | Raise _ =>
                  ret (Ok (polls', dict_set key false live_flags))
              end
            else ret (Ok (polls', dict_set key false live_flags))
        | None => ret (Ok (polls', live_flags))
        end
      else ret (Ok pf)
  end.

Fixpoint ingest (source_type : option mode) (ms : list pyval)
         (pf : polls_t * flags_t) : M (result (polls_t * flags_t)) :=
  match ms with
  | [] => ret (Ok pf)
  | m :: ms' =>
      (a <~ ingest_one source_type pf m ;;
       match a with
       | Ok pf' => ingest source_type ms' pf'
       | Raise e => ret (Raise e)
       end)%io
  end.
End WithGlobals.

(** [math.sin]: a domain error on an infinity. *)
Definition py_sin (x : float) : result float :=
  match x with
  | S754_infinity _ => Raise ValueError
  | _ => Ok (libm_sin x)
  end.

(** [round(5 + abs(math.sin(lat/12.0)) * c, 1)] *)
Definition geo_baseline (lat : float) (c : Z) : result float :=
  (s <- py_sin (lat / f12_0)%f64 ;;
   Ok (F64.round_nd (F64.of_Z 5 + F64.abs s * F64.of_Z c)%f64 1))%pym.

(** [if polls["pm25"] is None: ...] *)
Definition pm25_fallback (lat : float) (pf : polls_t * flags_t)
  : result (polls_t * flags_t) :=
  let '(polls, live_flags) := pf in
  let put v := (dict_set (py "pm25") (PFloat v) polls,
                dict_set (py "pm25") false live_flags) in
  if is_none (polls_get (py "pm25") polls) then
    if negb (is_none (polls_get (py "pm10") polls)) then
      match py_float (polls_get (py "pm10") polls) with
      | Ok x => Ok (put (F64.round_nd (x * f0_6)%f64 1))
      | Raise _ => (b <- geo_baseline lat 15 ;; Ok (put b))%pym
      end
    else (b <- geo_baseline lat 10 ;; Ok (put b))%pym
  else Ok pf.

(** [for k in polls: if polls[k] is None: if k != "pm25": ...] *)
Fixpoint fill_missing (keys : list pystr) (pf : polls_t * flags_t)
  : M (polls_t * flags_t) :=
  match keys with
  | [] => ret pf
  | k :: keys' =>
      let '(polls, live_flags) := pf in
      if is_none (polls_get k polls) && negb (pystr_eqb k (py "pm25")) then
        match py_float (polls_get (py "pm25") polls) with
        | Ok x =>
            (u <~ lift (np_random_uniform f0_6 f1_4) ;;
             fill_missing keys'
               (dict_set k (PFloat (F64.round_nd (F64.max2 f0_1 (x * u)%f64) 1)) polls,
                dict_set k false live_flags))%io
        | Raise _ =>
            fill_missing keys'
              (dict_set k (PStr DASH) polls, dict_set k false live_flags)
        end
      else fill_missing keys' pf
  end.

(** Lines 362-413 of the script: slots, ingestion, fallbacks. *)
Definition complete (lat : float) (parsed_measures : list pyval)
           (source_type : option mode) : M (result (polls_t * flags_t)) :=
  (a <~ ingest iso_to_dt source_type parsed_measures
               (polls_init, live_flags_init) ;;
   match (pf <- a ;; pm25_fallback lat pf)%pym with
   | Raise e => ret (Raise e)
   | Ok pf =>
       pf' <~ fill_missing (map fst (fst pf)) pf ;;
       ret (Ok pf')
   end)%io.

(** Lines 357-413 of the script: the resolver call and the completion of
    what it returns. *)
Definition script_resolution (lat lon : float) (use_adaptive : bool)
  : M (result (polls_t * flags_t)) :=
  (r <~ fetch_openaq_adaptive lat lon
          (if use_adaptive then DEFAULT_RADII else [20000]) ;;
   let '(res, used_radius, parsed_measures, source_type) := r in
   complete lat parsed_measures source_type)%io.

End Completion.

(** ** The 24-hour forecast of the main script *)

(** Python numbers: [int] (with [bool]) and [float]. *)
Inductive pynum : Type :=
| NInt (z : Z)
| NFloat (x : float).

Definition as_num (v : pyval) : result pynum :=
  match v with
  | PBool b => Ok (NInt (if b then 1 else 0))
  | PInt z => Ok (NInt z)
  | PFloat x => Ok (NFloat x)
  | _ => Raise TypeError
  end.

Section ForecastSection.
Context {B : Builtins} {P : Platform}.

Definition num_float (n : pynum) : result float :=
  match n with
  | NInt z => py_float (PInt z)
  | NFloat x => Ok x
  end.

(** [a - b] *)
Definition num_sub (a b : pynum) : result pynum :=
  match a, b with
  | NInt x, NInt y => Ok (NInt (x - y))
  | _, _ => (x <- num_float a ;; y <- num_float b ;; Ok (NFloat (x - y)%f64))%pym
  end.

(** [a / n] for a positive [int] [n] *)
Definition num_truediv (a : pynum) (n : positive) : result float :=
  match a with
  | NInt z =>
      let q := F64.int_truediv z n in
      if F64.is_finite q then Ok q else Raise OverflowError
  | NFloat x => Ok (x / F64.of_Z (Z.pos n))%f64
  end.

(** [pm_history]: the PM2.5 values of the last three days. *)
Definition pm_history_body (resp : option (result pyval)) : result (list pyval) :=
  match resp with
  | None => Ok []
  | Some decoded =>
      (mj <- decoded ;;
       results <- py_get_default mj (py "results") (PList []) ;;
       items <- py_iter results ;;
       foldM (fun acc item =>
                p <- py_get item (py "parameter") ;;
                if pystr_eqb (normalize_label p) (py "pm25") then
                  v <- py_get item (py "value") ;;
                  Ok (if is_int_or_float v then acc ++ [v] else acc)
                else Ok acc)
             items [])%pym
  end.

Definition fetch_pm_history (lat lon : float) (used_radius : option Z)
  : M (list pyval) :=
  (now <~ lift utcnow ;;
   let r := match used_radius with
            | Some r => if r =? 0 then 20000 else r
            | None => 20000
            end in
   resp <~ safe_get_json (measurements_request lat lon r 3 now) ;;
   ret (try_except (pm_history_body resp) []))%io.

(** The list comprehension of the trend branch, from index [i]. *)
Fixpoint trend_walk (n : nat) (i : Z) (base trend : float)
  : M (result (list float)) :=
  match n with
  | O => ret (Ok [])
  | S n' =>
      (let drift := (base + trend * F64.of_Z (i + 1))%f64 in
       noise <~ lift (np_random_normal (F64.of_Z 0) (base * f0_02)%f64) ;;
       match noise with
       | Raise e => ret (Raise e)
       | Ok z =>
           rest <~ trend_walk n' (i + 1) base trend ;;
           ret (vs <- rest ;;
                Ok (F64.round_nd (F64.max2 f0_1 (drift + z)%f64) 1 :: vs))%pym
       end)%io
  end.

(** [if show_24h: ...]: the pair [(pm24, aqi24)]. *)
Definition forecast_section (show_24h : bool) (pm_history : list pyval)
           (pm25 : pyval) (forecast_var : Z)
  : M (result (list float * list (option Z))) :=
  if show_24h then
    (pm24 <~ (if (6 <=? List.length pm_history)%nat then
                match (last_ <- as_num (List.last pm_history PNone) ;;
                       first_ <- as_num (List.hd PNone pm_history) ;;
                       base <- num_float last_ ;;
                       d <- num_sub last_ first_ ;;
                       trend <- num_truediv d
                                  (Pos.of_nat (List.length pm_history - 1)) ;;
                       Ok (base, trend))%pym with
                | Ok (base, trend) => trend_walk 24 0 base trend
                | Raise e => ret (Raise e)
                end
              else
                ret (hourly_forecast_pm pm25 24
                       (F64.of_Z forecast_var / F64.of_Z 100)%f64)) ;;
     ret (vs <- pm24 ;;
          aqi24 <- mapM (fun x => pm25_to_aqi (PFloat x)) vs ;;
          Ok (vs, aqi24))%pym)%io
  else ret (Ok ([], [])).

End ForecastSection.

(** ** Locations of the dropdown: [(lat, lon)] *)

Definition LOCATIONS : list (float * float) :=
  [ (F64.dec 25358 3, F64.dec 55478 3);       (* Sharjah, Muweilah *)
    (F64.dec 25345 3, F64.dec 55381 3);       (* Sharjah, Al Majaz *)
    (F64.dec 25271 3, F64.dec 55304 3);       (* Dubai, Deira *)
    (F64.dec 24433 3, F64.dec 54623 3);       (* Abu Dhabi, Khalifa City *)
    (F64.dec 25405 3, F64.dec 55513 3);       (* Ajman, Corniche *)
    (F64.dec 515074 4, F64.dec (-1278) 4);    (* London *)
    (F64.dec 407128 4, F64.dec (-740060) 4);  (* New York *)
    (F64.dec 356762 4, F64.dec 1396503 4);    (* Tokyo *)
    (F64.dec 287041 4, F64.dec 771025 4);     (* Delhi *)
    (F64.dec 340522 4, F64.dec (-1182437) 4)  (* Los Angeles *) ].

(* ===================================================================== *)
(** * The rest of the script: index, severity, advice, banner             *)
(* ===================================================================== *)

Section AqiNow.
Context {B : Builtins}.
Local Open Scope f64_scope.

(** [int(min(500, float(pm25) * 4))]: [min] keeps 500 unless the float is
    smaller. *)
Definition aqi_estimate (pm25 : pyval) : result Z :=
  (x <- py_float pm25 ;;
   let y := x * F64.of_Z 4 in
   if y <? F64.of_Z 500 then
     match F64.trunc_int y with
     | Some n => Ok n
     | None => Raise ValueError
     end
   else Ok 500%Z)%pym.

(** [aqi_now]: [pm25_to_aqi(polls["pm25"])], and when that is [None] the
    estimate, or 0 when the estimate raises. *)
Definition aqi_now (pm25 : pyval) : result Z :=
  (a <- pm25_to_aqi pm25 ;;
   match a with
   | Some n => Ok n
   | None => Ok (try_except (aqi_estimate pm25) 0%Z)
   end)%pym.

(** [severity_idx_pm25] *)
Definition severity_idx_pm25 (pm : pyval) : result Z :=
  (x <- py_float pm ;;
   Ok (if F64.leb x (F64.of_Z 12) then 0%Z
       else if F64.leb x (F64.dec 354 1) then 1%Z
       else if F64.leb x (F64.dec 554 1) then 2%Z
       else if F64.leb x (F64.dec 1504 1) then 3%Z
       else 4%Z))%pym.

(** The severity of another pollutant:
    [0 if vv < 30 else (1 if vv < 60 else (2 if vv < 100 else 3))]. *)
Definition severity_other (v : pyval) : result Z :=
  (vv <- py_float v ;;
   Ok (if F64.ltb vv (F64.of_Z 30) then 0%Z
       else if F64.ltb vv (F64.of_Z 60) then 1%Z
       else if F64.ltb vv (F64.of_Z 100) then 2%Z
       else 3%Z))%pym.

(** Body of [for k, v in polls.items()]: the value stored in [sev[k]]. *)
Definition sev_entry (k : pystr) (v : pyval) : Z :=
  try_except
    (if pystr_eqb k (py "pm25") then severity_idx_pm25 v else severity_other v)
    0%Z.

(** The dictionary [sev]. *)
Definition sev_of (polls : polls_t) : list (pystr * Z) :=
  fold_left (fun sev kv => dict_set (fst kv) (sev_entry (fst kv) (snd kv)) sev)
            polls [].

End AqiNow.

(** [max(sev.items(), key=lambda x: x[1])]: the first entry with the
    highest severity. *)
Fixpoint max_by_sev (best : pystr * Z) (rest : list (pystr * Z)) : pystr * Z :=
  match rest with
  | [] => best
  | e :: rest' =>
      if snd best <? snd e then max_by_sev e rest' else max_by_sev best rest'
  end.

(** [worst_poll]; [None] stands for the [ValueError] of [max] on an empty
    dictionary. *)
Definition worst_poll (sev : list (pystr * Z)) : option pystr :=
  match sev with
  | [] => None
  | e :: rest => Some (fst (max_by_sev e rest))
  end.

Definition ADVICE : list (pystr * list pystr) :=
  [ (py "pm25",
     [ py "Good " ++ DASH ++ py " enjoy outdoor activities.";
       py "Moderate " ++ DASH ++ py " consider limiting long outdoor exercise.";
       py "Unhealthy for sensitive groups " ++ DASH
          ++ py " sensitive people avoid prolonged exertion.";
       py "Unhealthy " ++ DASH ++ py " reduce outdoor exertion; consider masks.";
       py "Very Unhealthy " ++ DASH
          ++ py " stay indoors; use purifier; N95 if outside." ]);
    (py "pm10",
     [ py "Good";
       py "Moderate " ++ DASH ++ py " be cautious";
       py "Unhealthy " ++ DASH ++ py " limit outdoor activity";
       py "Very Unhealthy " ++ DASH ++ py " stay indoors" ]);
    (py "no2",
     [ py "Low NO" ++ [SUB2];
       py "Moderate NO" ++ [SUB2] ++ py " " ++ DASH
          ++ py " avoid busy roads for exercise";
       py "High NO" ++ [SUB2] ++ py " " ++ DASH ++ py " limit outdoor time" ]);
    (py "so2",
     [ py "Low SO" ++ [SUB2];
       py "Moderate SO" ++ [SUB2] ++ py " " ++ DASH ++ py " avoid heavy exertion";
       py "High SO" ++ [SUB2] ++ py " " ++ DASH ++ py " sensitive stay indoors" ]);
    (py "o3",
     [ py "Low O" ++ [SUB3];
       py "Moderate O" ++ [SUB3] ++ py " " ++ DASH ++ py " avoid midday exercise";
       py "High O" ++ [SUB3] ++ py " " ++ DASH ++ py " reduce outdoor activity" ]);
    (py "co",
     [ py "Low CO"; py "Moderate CO";
       py "High CO " ++ DASH ++ py " seek fresh air" ]) ].

(** [l[i]] on a list: a negative index counts from the end; [None] stands
    for [IndexError]. *)
Definition py_index {A} (l : list A) (i : Z) : option A :=
  if 0 <=? i then nth_error l (Z.to_nat i)
  else if - Z.of_nat (List.length l) <=? i
       then nth_error l (Z.to_nat (Z.of_nat (List.length l) + i))
       else None.

(** [advice_text]:
    [ADVICE.get(worst_poll, ["No advice available"])
       [min(sev[worst_poll], len(ADVICE.get(worst_poll, [])) - 1)]];
    [None] stands for a [KeyError] or an [IndexError]. *)
Definition advice_text (sev : list (pystr * Z)) (worst : pystr) : option pystr :=
  match assoc worst sev with
  | None => None
  | Some severity =>
      py_index
        (match assoc worst ADVICE with
         | Some entries => entries
         | None => [py "No advice available"]
         end)
        (Z.min severity
               (Z.of_nat (List.length (match assoc worst ADVICE with
                                       | Some entries => entries
                                       | None => []
                                       end)) - 1))
  end.

(** Lines 476-502: the worst pollutant of [polls] and its advice. *)
Definition script_advice {B : Builtins} (polls : polls_t) : option (pystr * pystr) :=
  match worst_poll (sev_of polls) with
  | None => None
  | Some worst =>
      match advice_text (sev_of polls) worst with
      | Some text => Some (worst, text)
      | None => None
      end
  end.

(** The colours of [PALETTE] that depend on the index. *)
Definition PALETTE_good : pystr := py "#2DD36F".
Definition PALETTE_moderate : pystr := py "#FFD93D".
Definition PALETTE_unhealthy : pystr := py "#FF5E57".

(** The colour and the label [render_banner] chooses for an index. *)
Definition render_banner_style (aqi : Z) : pystr * pystr :=
  if 150 <=? aqi then (PALETTE_unhealthy, py "UNHEALTHY")
  else if 100 <=? aqi then (PALETTE_moderate, py "UNHEALTHY FOR SENSITIVE GROUPS")
  else if 50 <=? aqi then (PALETTE_moderate, py "MODERATE")
  else (PALETTE_good, py "GOOD").

(** [aqi_color] *)
Definition aqi_color (aqi : Z) : pystr :=
  if 150 <=? aqi then PALETTE_unhealthy
  else if 100 <=? aqi then PALETTE_moderate
  else if 50 <=? aqi then PALETTE_moderate
  else PALETTE_good.

(** The category printed under the index (line 556). *)
Definition aqi_category (aqi : Z) : pystr :=
  if aqi <? 50 then py "Good"
  else if aqi <? 100 then py "Moderate"
  else if aqi <? 150 then py "Unhealthy"
  else py "Very Unhealthy".

(** The gaps of a breakpoint table: [(pm_h, pm_l')] for every two
    consecutive bands. *)
Fixpoint band_gaps (bp : list (float * float * Z * Z)) : list (float * float) :=
  match bp with
  | (_, pm_h, _, _) :: (((pm_l', _, _, _) :: _) as bp') =>
      (pm_h, pm_l') :: band_gaps bp'
  | _ => []
  end.

(* ===================================================================== *)
(** * Vocabulary of the statements                                        *)
(* ===================================================================== *)

(** A [str] made of the characters [a-z0-9] only. *)
Definition all_lower_alnum (s : pystr) : Prop :=
  Forall (fun c => is_lower_alnum c = true) s.

(** [lo <= v <= hi] *)
Definition within (lo hi v : float) : Prop :=
  F64.leb lo v = true /\ F64.leb v hi = true.

(** [r] is [y] clamped to [[lo, hi]]: [lo] when [y] is below the
    interval, [hi] when it is above, and [y] itself when it is inside. *)
Definition clamped (lo hi y r : float) : Prop :=
  (F64.ltb y lo = true -> r = lo)
  /\ (F64.ltb hi y = true -> r = hi)
  /\ (within lo hi y -> r = y).

(** No live flag is set. *)
Definition none_live (live_flags : flags_t) : Prop :=
  Forall (fun kb => snd kb = false) live_flags.

(** [polls] and [live_flags] have the six keys, in order. *)
Definition six_slots (pf : polls_t * flags_t) : Prop :=
  map fst (fst pf) = POLLUTANTS /\ map fst (snd pf) = POLLUTANTS.

(** The value derived from PM2.5 with the multiplier [u]:
    [round(max(0.1, pm25 * u), 1)]. *)
Definition derived (pm25 u : float) : float :=
  F64.round_nd (F64.max2 f0_1 (F64.mul pm25 u)) 1.

(** The script ends normally with the float [v] in the PM2.5 slot and
    with the PM2.5 flag false. *)
Definition completes_with_pm25 {B : Builtins} {P : Platform}
           (lat : float) (parsed_measures : list pyval)
           (source_type : option mode) (s : state) (v : float) : Prop :=
  exists polls live_flags s',
    complete lat parsed_measures source_type s = (Ok (polls, live_flags), s')
    /\ polls_get (py "pm25") polls = PFloat v
    /\ flag_get (py "pm25") live_flags = false.

(** ** What the resolver is told by the network *)

(** [d.get(k)] on the items of a [dict]. *)
Definition field (k : pystr) (d : list (pystr * pyval)) : pyval :=
  match assoc k d with Some x => x | None => PNone end.

(** A result of the latest endpoint without a measurement list: an object
    whose ["measurements"] is missing, null or empty. *)
Definition without_measurements (res : pyval) : Prop :=
  exists rd, res = PDict rd /\ truthy (field (py "measurements") rd) = false.

(** A response of the latest endpoint that carries no data: the request
    failed, the body is not JSON, the payload is not an object, it has no
    results, or none of its results has measurements. *)
Inductive no_latest_data : option (result pyval) -> Prop :=
| nld_failed : no_latest_data None
| nld_decode e : no_latest_data (Some (Raise e))
| nld_shape j : is_dict j = false -> no_latest_data (Some (Ok j))
| nld_empty d :
    truthy (match assoc (py "results") d with Some x => x | None => PList [] end)
    = false ->
    no_latest_data (Some (Ok (PDict d)))
| nld_bare d results :
    assoc (py "results") d = Some (PList results) ->
    Forall without_measurements results ->
    no_latest_data (Some (Ok (PDict d))).

(** A response of the latest endpoint with data: [res] is its first result
    with a non-empty measurement list [ms], whose entries are objects. *)
Inductive latest_hit : option (result pyval) -> pyval -> list pyval -> Prop :=
| latest_hit_intro d before rd m ms after :
    assoc (py "results") d = Some (PList (before ++ PDict rd :: after)) ->
    Forall without_measurements before ->
    assoc (py "measurements") rd = Some (PList (m :: ms)) ->
    Forall (fun x => is_dict x = true) (m :: ms) ->
    latest_hit (Some (Ok (PDict d))) (PDict rd) (m :: ms).

(** A response of the measurements endpoint that carries no data. *)
Inductive no_measurements_data : option (result pyval) -> Prop :=
| nmd_failed : no_measurements_data None
| nmd_decode e : no_measurements_data (Some (Raise e))
| nmd_shape j : is_dict j = false -> no_measurements_data (Some (Ok j))
| nmd_empty d :
    truthy (match assoc (py "results") d with Some x => x | None => PList [] end)
    = false ->
    no_measurements_data (Some (Ok (PDict d))).

Section Runs.
Context {B : Builtins} {P : Platform}.

(** The latest endpoint is asked for each radius of the list in turn,
    from state [s] to state [s'], and never has data. *)
Inductive latest_misses (lat lon : float) : list Z -> state -> state -> Prop :=
| latest_misses_nil s : latest_misses lat lon [] s s
| latest_misses_cons r radii s resp s1 s' :
    safe_get_json (latest_request lat lon r) s = (resp, s1) ->
    no_latest_data resp ->
    latest_misses lat lon radii s1 s' ->
    latest_misses lat lon (r :: radii) s s'.

(** The same for the measurements endpoint, each request dated by the
    clock read just before it. *)
Inductive measurements_misses (lat lon : float)
  : list Z -> state -> state -> Prop :=
| measurements_misses_nil s : measurements_misses lat lon [] s s
| measurements_misses_cons r radii s now s0 resp s1 s' :
    lift utcnow s = (now, s0) ->
    safe_get_json (measurements_request lat lon r 30 now) s0 = (resp, s1) ->
    no_measurements_data resp ->
    measurements_misses lat lon radii s1 s' ->
    measurements_misses lat lon (r :: radii) s s'.

End Runs.

(** Endpoint and radius of the requests sent between two states. *)
Definition sent {P : Platform} (s s' : state) (l : list (endpoint * Z)) : Prop :=
  map (fun q => (req_url q, req_radius q)) (st_log s')
  = map (fun q => (req_url q, req_radius q)) (st_log s) ++ l.

(** ** What the severity loop keeps true *)

(** The keys of [sev] are distinct and among [keys], and every severity
    is a class from 0 to 4. *)
Definition sev_ok (keys : list pystr) (sev : list (pystr * Z)) : Prop :=
  NoDup (map fst sev)
  /\ Forall (fun e => 0 <= snd e <= 4) sev
  /\ (forall k, In k (map fst sev) -> In k keys).

(** ** What the resolver returns *)

(** A normalised measurement: a [dict] with the keys ["parameter"],
    ["value"] and ["lastUpdated"], in this order. *)
Definition is_measure (m : pyval) : Prop :=
  exists p v dt, m = measure p v dt.

(** A normalised measurement whose value is a [float]. *)
Definition is_mean_measure (m : pyval) : Prop :=
  exists p x dt, m = measure p (PFloat x) dt.

(** The three shapes of what the resolver returns. *)
Definition well_shaped (out : resolved) : Prop :=
  let '(res, used_radius, parsed, source_type) := out in
  match source_type with
  | Some latest =>
      is_dict res = true /\ parsed <> [] /\ Forall is_measure parsed
      /\ used_radius <> None
  | Some pseudo =>
      (exists loc coords,
          res = PDict [(py "location", loc); (py "coordinates", coords);
                       (py "measurements", PList parsed)])
      /\ Forall is_mean_measure parsed
      /\ used_radius <> None
  | None => out = EMPTY_RESULT
  end.

(** The requests of a sweep over the first [n] radii. *)
Definition sweep_requests (url : endpoint) (n : nat) (radii : list Z)
  : list (endpoint * Z) :=
  map (fun r => (url, r)) (firstn n radii).

(** ** Readings and slots *)

(** No slot of [polls] is left [None]. *)
Definition all_resolved (polls : polls_t) : Prop :=
  Forall (fun kv => is_none (snd kv) = false) polls.

(** The measurement [m] carries a reading of the pollutant [k]: its
    parameter normalises to [k] and its value is not [None]. *)
Definition reports {B : Builtins} (m : pyval) (k : pystr) : Prop :=
  exists p v,
    py_get m (py "parameter") = Ok p /\ normalize_label p = k
    /\ py_get m (py "value") = Ok v /\ is_none v = false.

(** The measurement [m] carries the reading [v] of the pollutant [k]. *)
Definition reading {B : Builtins} (m : pyval) (k : pystr) (v : pyval) : Prop :=
  exists p,
    py_get m (py "parameter") = Ok p /\ normalize_label p = k
    /\ py_get m (py "value") = Ok v /\ is_none v = false.

(** What the script stores for a reading: [float(v)], or [v] itself when
    [float] rejects it. *)
Definition stored {B : Builtins} (v : pyval) : pyval :=
  try_except (x <- py_float v ;; Ok (PFloat x))%pym v.

(** [m] is the last measurement of the list with a reading of [k], and
    the reading is [v]. *)
Definition last_reading {B : Builtins} (ms : list pyval) (k : pystr)
           (v : pyval) : Prop :=
  exists before m after,
    ms = before ++ m :: after /\ reading m k v
    /\ Forall (fun m' => ~ reports m' k) after.

(** What holds of the slots while the measurements [seen] are read in
    the mode ["latest"]. *)
Definition latest_flags_inv {B : Builtins} (seen : list pyval)
           (pf : polls_t * flags_t) : Prop :=
  six_slots pf
  /\ (forall k, flag_get k (snd pf) = true
                <-> In k POLLUTANTS /\ exists m, In m seen /\ reports m k)
  /\ (forall k, flag_get k (snd pf) = true ->
                is_none (polls_get k (fst pf)) = false).

(** ** Numbers, labels, groups and history *)

(** [0.0 <= v]: [v] is a number, zero or positive. *)
Definition nonneg (v : float) : Prop := F64.leb (S754_zero false) v = true.

(** [c.lower()] on an ASCII character. *)
Definition ascii_lower (c : N) : N :=
  if is_ascii_upper c then (c + 32)%N else c.

(** A [str] of ASCII characters. *)
Definition is_ascii (s : pystr) : Prop := Forall (fun c => (c < 128)%N) s.

(** The measurements of all the groups of [by_loc], group after group. *)
Definition grouped (by_loc : by_loc_t) : list pyval :=
  List.concat (map (fun g => fst (snd g)) by_loc).

(** The number of measurements of a group. *)
Definition group_size (g : pyval * (list pyval * pyval)) : nat :=
  List.length (fst (snd g)).

(** The numeric PM2.5 values of a list of records, in order. *)
Definition pm25_values {B : Builtins} (items : list pyval) : list pyval :=
  flat_map (fun item =>
              match item with
              | PDict d =>
                  if pystr_eqb (normalize_label (field (py "parameter") d))
                               (py "pm25")
                     && is_int_or_float (field (py "value") d)
                  then [field (py "value") d] else []
              | _ => []
              end) items.

(** The radius [used_radius or 20000]. *)
Definition history_radius (used_radius : option Z) : Z :=
  match used_radius with
  | Some r => if r =? 0 then 20000 else r
  | None => 20000
  end.

(** The loop body of the history fetch. *)
Definition history_step {B : Builtins} (acc : list pyval) (item : pyval)
  : result (list pyval) :=
  (p <- py_get item (py "parameter") ;;
   if pystr_eqb (normalize_label p) (py "pm25") then
     v <- py_get item (py "value") ;;
     Ok (if is_int_or_float v then acc ++ [v] else acc)
   else Ok acc)%pym.

(** ** The values of a station *)

(** The numeric values the records [ms] carry for the parameter [p], in
    order. *)
Definition numeric_values (p : pyval) (ms : list pyval) : list pyval :=
  flat_map (fun m =>
              match m with
              | PDict d =>
                  if truthy (field (py "parameter") d)
                     && is_int_or_float (field (py "value") d)
                     && key_eqb (field (py "parameter") d) p
                  then [field (py "value") d] else []
              | _ => []
              end) ms.

(** A record, an object, whose parameter is a [str] or is missing. *)
Definition string_param (m : pyval) : Prop :=
  exists d,
    m = PDict d
    /\ (field (py "parameter") d = PNone
        \/ exists q, field (py "parameter") d = PStr q).

(** [params_seen] after the records [seen]: one entry for each parameter
    with a numeric value, holding its values in order. *)
Definition collected (seen : list pyval) (params_seen : list (pyval * list pyval))
  : Prop :=
  Forall (fun e => exists q, fst e = PStr q
                             /\ snd e = numeric_values (PStr q) seen
                             /\ snd e <> []) params_seen
  /\ NoDup (map fst params_seen)
  /\ (forall q, numeric_values (PStr q) seen <> [] ->
                In (PStr q) (map fst params_seen)).

(** [params_seen.setdefault(p, []).append(v)] *)
Definition append_value (v : pyval) (o : option (list pyval)) : list pyval :=
  match o with Some arr => arr ++ [v] | None => [v] end.

(** ** Groups of a location *)

(** A key that is a [str] or [None]. *)
Definition plain_key (k : pyval) : Prop := k = PNone \/ exists q, k = PStr q.

(** A record, an object, whose location is a [str] or is missing. *)
Definition plain_location (m : pyval) : Prop :=
  exists d, m = PDict d /\ plain_key (field (py "location") d).

(** The records of [items] whose location is the key [k], in order. *)
Definition records_at (k : pyval) (items : list pyval) : list pyval :=
  filter (fun m => match m with
                   | PDict d => key_eqb (field (py "location") d) k
                   | _ => false
                   end) items.

(** The group of a location holds its first record's coordinates. *)
Definition first_coordinates (g : pyval * (list pyval * pyval)) : Prop :=
  exists m rest,
    fst (snd g) = m :: rest /\ py_get m (py "coordinates") = Ok (snd (snd g)).

(** [by_loc] after the records [seen], all of a plain location: one group
    for each location that occurs, holding all its records in order. *)
Definition grouped_by_location (seen : list pyval) (by_loc : by_loc_t) : Prop :=
  Forall (fun g => plain_key (fst g)
                   /\ fst (snd g) = records_at (fst g) seen) by_loc
  /\ NoDup (map fst by_loc)
  /\ (forall k, plain_key k -> records_at k seen <> [] ->
                In k (map fst by_loc)).

(** ** Slots without a reading *)

(** Whether the measurement [m] carries a reading of the pollutant
    [k]. *)
Definition has_reading {B : Builtins} (m : pyval) (k : pystr) : bool :=
  match py_get m (py "parameter"), py_get m (py "value") with
  | Ok p, Ok v => pystr_eqb (normalize_label p) k && negb (is_none v)
  | _, _ => false
  end.

(** The pollutants other than PM2.5 of which the list has no reading, in
    the order of [polls]. *)
Definition missing {B : Builtins} (ms : list pyval) : list pystr :=
  filter (fun k => negb (existsb (fun m => has_reading m k) ms)
                   && negb (pystr_eqb k (py "pm25")))
         POLLUTANTS.

(** The next [n] values of [np.random.uniform(0.6, 1.4)], and the state
    they leave. *)
Fixpoint uniform_draws {P : Platform} (n : nat) (s : state)
  : list float * state :=
  match n with
  | O => ([], s)
  | S n' =>
      let '(u, s1) := lift (np_random_uniform f0_6 f1_4) s in
      let '(us, s') := uniform_draws n' s1 in
      (u :: us, s')
  end.

(** The slots the last loop fills, among [keys]. *)
Definition to_fill (keys : list pystr) (polls : polls_t) : list pystr :=
  filter (fun k => is_none (polls_get k polls)
                   && negb (pystr_eqb k (py "pm25"))) keys.

(* ===================================================================== *)
(** * Test fixtures                                                       *)
(* ===================================================================== *)

(** A runtime with empty tables: no [str] parses as a float, code points
    outside ASCII have no lower case, [sin] is replaced by the identity,
    and [numpy.mean] only knows the mean of a single float. *)
Definition plain_builtins : Builtins := {|
  float_of_str := fun _ => None;
  lower_nonascii := fun _ c _ => [c];
  repr := fun _ => [];
  libm_sin := fun x => x;
  np_mean := fun l =>
    match l with
    | [PFloat x] => Ok x
    | _ => Raise TypeError
    end;
  gt_other := fun _ _ => Raise TypeError
|}.

(** A scripted world: the responses the network will give, in order (no
    response once they are used up), a clock that stands still, and the
    numbers the global generator will draw.  A local generator is the
    list of its coming steps. *)
Record script : Type := {
  responses : list (option (result pyval));
  clock : Z;
  draws : list float
}.

Definition scripted_platform : Platform := {|
  world := script;
  http_get_json := fun _ w =>
    match responses w with
    | [] => (None, w)
    | r :: rs => (r, {| responses := rs; clock := clock w; draws := draws w |})
    end;
  utcnow := fun w => (clock w, w);
  np_random_uniform := fun lo _ w =>
    match draws w with
    | [] => (lo, w)
    | u :: us => (u, {| responses := responses w; clock := clock w; draws := us |})
    end;
  np_random_normal := fun loc _ w =>
    match draws w with
    | [] => (Ok loc, w)
    | u :: us => (Ok u, {| responses := responses w; clock := clock w; draws := us |})
    end;
  EE_AVAILABLE := false;
  ee_tempo_sample := fun _ _ w => (Raise ValueError, w);
  ee_modis_mean := fun _ _ w => (Raise ValueError, w);
  generator := list float;
  default_rng := fun seed =>
    match seed with
    | 0 => []
    | _ => [S754_zero true]
    end;
  generator_normal := fun loc _ g =>
    match g with
    | [] => (loc, [])
    | step :: g' => (step, g')
    end
|}.

Definition start (w : script) : @state scripted_platform :=
  @Build_state scripted_platform w [].

(** A payload of the latest endpoint: one station with one PM2.5
    reading. *)
Definition station_reading : pyval :=
  PDict [(py "parameter", PStr (py "pm25"));
         (py "value", PFloat (F64.dec 125 1));
         (py "lastUpdated", PStr (py "2025-10-02T12:00:00Z"))].

Definition station : pyval :=
  PDict [(py "location", PStr (py "Sharjah"));
         (py "measurements", PList [station_reading])].

Definition station_payload : pyval := PDict [(py "results", PList [station])].

(** The network is down. *)
Definition offline : script := {| responses := []; clock := 0; draws := [] |}.

(** The first request fails, the second is answered by the station. *)
Definition second_try : script :=
  {| responses := [None; Some (Ok station_payload)]; clock := 0; draws := [] |}.

(** A record of the measurements endpoint, taken on 2025-10-01 at 00:00
    UTC. *)
Definition history_record : pyval :=
  PDict [(py "location", PStr (py "Sharjah"));
         (py "parameter", PStr (py "pm25"));
         (py "value", PFloat (F64.dec 3125 2));
         (py "coordinates", PNone);
         (py "date", PDict [(py "utc", PStr (py "2025-10-01T00:00:00Z"))])].

(** No station answers on the latest endpoint; the measurements endpoint
    returns the record; it is 2025-10-03, 00:00 UTC. *)
Definition history_only : script :=
  {| responses := [None; None; None; None; None;
                   Some (Ok (PDict [(py "results", PList [history_record])]))];
     clock := 20364 * US_PER_DAY; draws := [] |}.

(** The first request is answered with the record. *)
Definition history_first : script :=
  {| responses := [Some (Ok (PDict [(py "results", PList [history_record])]))];
     clock := 20364 * US_PER_DAY; draws := [] |}.

(** Records of the measurements endpoint: a PM2.5 value [v] at a
    location, with [v] for coordinates. *)
Definition reading_at (loc : pyval) (v : Z) : pyval :=
  PDict [(py "location", loc); (py "parameter", PStr (py "pm25"));
         (py "value", PInt v); (py "coordinates", PInt v)].

(** Two stations with two records each, interleaved. *)
Definition two_stations : list pyval :=
  [reading_at (PStr (py "Sharjah")) 10; reading_at (PStr (py "Dubai")) 20;
   reading_at (PStr (py "Dubai")) 30; reading_at (PStr (py "Sharjah")) 40].

Definition sharjah_group : pyval * (list pyval * pyval) :=
  (PStr (py "Sharjah"),
   ([reading_at (PStr (py "Sharjah")) 10; reading_at (PStr (py "Sharjah")) 40],
    PInt 10)).

Definition dubai_group : pyval * (list pyval * pyval) :=
  (PStr (py "Dubai"),
   ([reading_at (PStr (py "Dubai")) 20; reading_at (PStr (py "Dubai")) 30],
    PInt 20)).

(** Five draws are ready in the global generator. *)
Definition five_draws : script :=
  {| responses := []; clock := 0; draws := [f0_6; f1_0; f1_4; f0_6; f1_0] |}.

(* ===================================================================== *)
(** * Properties                                                          *)
(* ===================================================================== *)

(** ** Order of binary64 values *)

Module F64Facts.

Ltac cmp_cases :=
  repeat match goal with
  | |- context [Z.compare ?a ?b] => destruct (Z.compare_spec a b)
  | H : context [Z.compare ?a ?b] |- _ => destruct (Z.compare_spec a b)
  | |- context [Pos.compare ?a ?b] => destruct (Pos.compare_spec a b)
  | H : context [Pos.compare ?a ?b] |- _ => destruct (Pos.compare_spec a b)
  end.

Ltac by_cases3 x y z :=
  unfold F64.ltb, F64.leb, SFltb, SFleb;
  destruct x as [[|]|[|]| |[|] ? ?], y as [[|]|[|]| |[|] ? ?],
           z as [[|]|[|]| |[|] ? ?];
  simpl; try discriminate; try reflexivity;
  change (Pos.compare_cont Eq) with Pos.compare;
  cmp_cases; simpl; intros; try discriminate; try reflexivity; try lia.

Lemma ltb_leb_trans x y z :
  F64.ltb x y = true -> F64.leb y z = true -> F64.ltb x z = true.
Proof. by_cases3 x y z. Qed.

Lemma leb_ltb_trans x y z :
  F64.leb x y = true -> F64.ltb y z = true -> F64.ltb x z = true.
Proof. by_cases3 x y z. Qed.

Lemma leb_trans x y z :
  F64.leb x y = true -> F64.leb y z = true -> F64.leb x z = true.
Proof. by_cases3 x y z. Qed.

(** [x < y] excludes [y <= x]. *)
Lemma ltb_not_leb x y : F64.ltb x y = true -> F64.leb y x = false.
Proof.
  unfold F64.ltb, F64.leb, SFltb, SFleb.
  destruct x as [[|]|[|]| |[|] ? ?], y as [[|]|[|]| |[|] ? ?];
    simpl; try discriminate; try reflexivity;
    change (Pos.compare_cont Eq) with Pos.compare;
    cmp_cases; simpl; intros; try discriminate; try reflexivity; try lia.
Qed.

(** Two values that are not NaN are comparable. *)
Lemma not_ltb_leb x y :
  F64.is_nan x = false -> F64.is_nan y = false ->
  F64.ltb x y = false -> F64.leb y x = true.
Proof.
  unfold F64.ltb, F64.leb, SFltb, SFleb.
  destruct x as [[|]|[|]| |[|] ? ?], y as [[|]|[|]| |[|] ? ?];
    simpl; try discriminate; try reflexivity;
    change (Pos.compare_cont Eq) with Pos.compare;
    cmp_cases; simpl; intros; try discriminate; try reflexivity; try lia.
Qed.

Lemma ltb_leb x y : F64.ltb x y = true -> F64.leb x y = true.
Proof.
  unfold F64.ltb, F64.leb, SFltb, SFleb.
  destruct (SFcompare x y) as [[| |]|]; intros; try discriminate; reflexivity.
Qed.

End F64Facts.

(** ** [pm25_to_aqi] *)

Section AqiFacts.
Context {B : Builtins}.

(** A value outside a band fails the test of that band. *)
Lemma in_band_below band pm :
  F64.ltb pm (fst (fst (fst band))) = true -> in_band band pm = false.
Proof.
  destruct band as [[[pm_l pm_h] a_l] a_h]; simpl; intros H.
  rewrite (F64Facts.ltb_not_leb _ _ H). reflexivity.
Qed.

Lemma in_band_above band pm :
  F64.ltb (snd (fst (fst band))) pm = true -> in_band band pm = false.
Proof.
  destruct band as [[[pm_l pm_h] a_l] a_h]; simpl; intros H.
  rewrite (F64Facts.ltb_not_leb _ _ H). apply andb_false_r.
Qed.

(** When no band contains [pm] the loop runs to its end and the
    function returns the final [500]. *)
Lemma aqi_bands_fall_through bp pm :
  Forall (fun band => in_band band pm = false) bp ->
  aqi_bands bp pm = Ok 500.
Proof.
  induction 1 as [|[[[pm_l pm_h] a_l] a_h] bp' Hband _ IH]; simpl.
  - reflexivity.
  - simpl in Hband. rewrite Hband. exact IH.
Qed.

Lemma pm25_to_aqi_fall_through v x :
  py_float v = Ok x ->
  Forall (fun band => in_band band x = false) EPA_BP ->
  pm25_to_aqi v = Ok (Some 500).
Proof.
  intros Hv Hall. unfold pm25_to_aqi.
  rewrite Hv, (aqi_bands_fall_through _ _ Hall). reflexivity.
Qed.

(** Every band lies at or above [c] when [c] is at most its lower end;
    at or below [c] when its upper end is at most [c]. *)
Lemma below_all_bands c pm :
  F64.ltb pm c = true ->
  forallb (fun band => F64.leb c (fst (fst (fst band)))) EPA_BP = true ->
  Forall (fun band => in_band band pm = false) EPA_BP.
Proof.
  intros Hlt Hall. rewrite forallb_forall in Hall.
  apply Forall_forall. intros band Hin.
  apply in_band_below.
  exact (F64Facts.ltb_leb_trans _ _ _ Hlt (Hall band Hin)).
Qed.

Lemma above_all_bands c pm :
  F64.ltb c pm = true ->
  forallb (fun band => F64.leb (snd (fst (fst band))) c) EPA_BP = true ->
  Forall (fun band => in_band band pm = false) EPA_BP.
Proof.
  intros Hlt Hall. rewrite forallb_forall in Hall.
  apply Forall_forall. intros band Hin.
  apply in_band_above.
  exact (F64Facts.leb_ltb_trans _ _ _ (Hall band Hin) Hlt).
Qed.

(** Between [lo] and [hi], when every band ends at or before [lo] or
    starts at or after [hi]. *)
Lemma between_bands lo hi pm :
  F64.ltb lo pm = true -> F64.ltb pm hi = true ->
  forallb (fun band => F64.leb (snd (fst (fst band))) lo
                       || F64.leb hi (fst (fst (fst band)))) EPA_BP = true ->
  Forall (fun band => in_band band pm = false) EPA_BP.
Proof.
  intros Hlo Hhi Hall. rewrite forallb_forall in Hall.
  apply Forall_forall. intros band Hin.
  destruct (orb_prop _ _ (Hall band Hin)) as [H|H].
  - apply in_band_above. exact (F64Facts.leb_ltb_trans _ _ _ H Hlo).
  - apply in_band_below. exact (F64Facts.ltb_leb_trans _ _ _ Hhi H).
Qed.

(** The six gaps of [EPA_BP]. *)
Lemma band_gaps_EPA_BP :
  band_gaps EPA_BP
  = [ (F64.dec 120 1, F64.dec 121 1); (F64.dec 354 1, F64.dec 355 1);
      (F64.dec 554 1, F64.dec 555 1); (F64.dec 1504 1, F64.dec 1505 1);
      (F64.dec 2504 1, F64.dec 2505 1); (F64.dec 3504 1, F64.dec 3505 1) ].
Proof. reflexivity. Qed.

(** Each gap of the table lies between the bands: every band ends at
    or before the gap or starts at or after it. *)
Lemma gaps_between_bands :
  forallb (fun gap =>
             forallb (fun band => F64.leb (snd (fst (fst band))) (fst gap)
                                  || F64.leb (snd gap) (fst (fst (fst band))))
                     EPA_BP)
          (band_gaps EPA_BP) = true.
Proof. vm_compute. reflexivity. Qed.

(** C10.  A PM2.5 value strictly between two consecutive EPA bands
    (between 12.0 and 12.1, 35.4 and 35.5, 55.4 and 55.5, 150.4 and
    150.5, 250.4 and 250.5, 350.4 and 350.5) is in no band, and
    [pm25_to_aqi] returns 500 for it. *)
Theorem pm25_to_aqi_gap_returns_500 :
  forall lo hi pm,
    In (lo, hi) (band_gaps EPA_BP) ->
    F64.ltb lo pm = true -> F64.ltb pm hi = true ->
    Forall (fun band => in_band band pm = false) EPA_BP
    /\ pm25_to_aqi (PFloat pm) = Ok (Some 500).
Proof.
  intros lo hi pm Hin Hlo Hhi.
  assert (Hall : Forall (fun band => in_band band pm = false) EPA_BP).
  { apply (between_bands lo hi pm Hlo Hhi).
    pose proof gaps_between_bands as Hgaps.
    rewrite forallb_forall in Hgaps.
    exact (Hgaps (lo, hi) Hin). }
  split; [exact Hall|].
  apply (pm25_to_aqi_fall_through (PFloat pm) pm eq_refl Hall).
Qed.

(** C8.  A numeric input (one that [float] converts, to [x]) below 0 or
    above 500.4 gets the value 500, and [None] is returned exactly when
    the input is not numeric, that is when [float(pm)] raises. *)
Theorem pm25_to_aqi_sentinels :
  (forall v x,
      py_float v = Ok x ->
      F64.ltb x (F64.dec 0 1) = true \/ F64.ltb (F64.dec 5004 1) x = true ->
      pm25_to_aqi v = Ok (Some 500))
  /\ (forall v, pm25_to_aqi v = Ok None <-> exists e, py_float v = Raise e).
Proof.
  split.
  - intros v x Hv [Hlt|Hgt]; apply (pm25_to_aqi_fall_through v x Hv).
    + apply (below_all_bands _ _ Hlt). vm_compute. reflexivity.
    + apply (above_all_bands _ _ Hgt). vm_compute. reflexivity.
  - intros v. unfold pm25_to_aqi. destruct (py_float v) as [x|e].
    + split.
      * destruct (aqi_bands EPA_BP x); discriminate.
      * intros [e He]. discriminate.
    + split; [intros _; exists e; reflexivity | reflexivity].
Qed.

(** C1.  The code at two inputs of the interval [[0, 500.4]]:
    [12.05 <= 12.1], yet [pm25_to_aqi(12.05)] is 500 and
    [pm25_to_aqi(12.1)] is 51. *)
Theorem pm25_to_aqi_drops_after_gap :
  F64.leb (F64.dec 0 1) (F64.dec 1205 2) = true
  /\ F64.leb (F64.dec 1205 2) (F64.dec 121 1) = true
  /\ F64.leb (F64.dec 121 1) (F64.dec 5004 1) = true
  /\ pm25_to_aqi (PFloat (F64.dec 1205 2)) = Ok (Some 500)
  /\ pm25_to_aqi (PFloat (F64.dec 121 1)) = Ok (Some 51).
Proof. repeat split; vm_compute; reflexivity. Qed.

End AqiFacts.

(** At 12.05, between the first two bands, the value is 500. *)
Lemma pm25_to_aqi_gap_witness :
  F64.ltb (F64.dec 120 1) (F64.dec 1205 2) = true
  /\ pm25_to_aqi (B := plain_builtins) (PFloat (F64.dec 1205 2)) = Ok (Some 500).
Proof.
  split; [vm_compute; reflexivity|].
  apply (pm25_to_aqi_gap_returns_500 (B := plain_builtins)
           (F64.dec 120 1) (F64.dec 121 1) (F64.dec 1205 2)).
  - vm_compute. left. reflexivity.
  - vm_compute. reflexivity.
  - vm_compute. reflexivity.
Defined.

(** At -1 and at 600 the value is 500. *)
Lemma pm25_to_aqi_sentinels_witness :
  pm25_to_aqi (B := plain_builtins) (PInt (-1)) = Ok (Some 500)
  /\ pm25_to_aqi (B := plain_builtins) (PFloat (F64.of_Z 600)) = Ok (Some 500).
Proof.
  split.
  - apply (proj1 (pm25_to_aqi_sentinels (B := plain_builtins))
             (PInt (-1)) (F64.of_Z (-1)) eq_refl).
    left. vm_compute. reflexivity.
  - apply (proj1 (pm25_to_aqi_sentinels (B := plain_builtins))
             (PFloat (F64.of_Z 600)) (F64.of_Z 600) eq_refl).
    right. vm_compute. reflexivity.
Defined.

(** ** [normalize_label] *)

Section NormalizeLabelFacts.
Context {B : Builtins}.

Lemma is_lower_alnum_bounds c :
  is_lower_alnum c = true -> (48 <= c <= 57 \/ 97 <= c <= 122)%N.
Proof.
  unfold is_lower_alnum. intros H.
  apply orb_prop in H. destruct H as [H|H];
    apply andb_prop in H; destruct H as [H1 H2];
    apply N.leb_le in H1; apply N.leb_le in H2; lia.
Qed.

Lemma strip_non_alnum_all s : all_lower_alnum (strip_non_alnum s).
Proof.
  unfold all_lower_alnum, strip_non_alnum. apply Forall_forall.
  intros c Hc. apply filter_In in Hc. tauto.
Qed.

Lemma strip_non_alnum_fixed s : all_lower_alnum s -> strip_non_alnum s = s.
Proof.
  unfold strip_non_alnum. induction 1 as [|c s Hc _ IH]; simpl.
  - reflexivity.
  - rewrite Hc, IH. reflexivity.
Qed.

Lemma lower_cp_fixed before c after :
  is_lower_alnum c = true -> lower_cp before c after = [c].
Proof.
  intros Hc. apply is_lower_alnum_bounds in Hc. unfold lower_cp, is_ascii_upper.
  replace ((65 <=? c)%N && (c <=? 90)%N) with false.
  - replace (c <? 128)%N with true; [reflexivity|].
    symmetry. apply N.ltb_lt. lia.
  - symmetry. apply andb_false_iff.
    destruct Hc; [left; apply N.leb_gt | right; apply N.leb_gt]; lia.
Qed.

Lemma lower_from_fixed s :
  all_lower_alnum s -> forall before, lower_from before s = s.
Proof.
  induction 1 as [|c s Hc _ IH]; intros before; simpl.
  - reflexivity.
  - rewrite (lower_cp_fixed _ _ _ Hc), IH. reflexivity.
Qed.

Lemma replace_cp_fixed old new s :
  (128 <= old)%N -> all_lower_alnum s -> replace_cp old new s = s.
Proof.
  intros Hold. unfold replace_cp. induction 1 as [|c s Hc _ IH]; simpl.
  - reflexivity.
  - apply is_lower_alnum_bounds in Hc.
    replace (c =? old)%N with false; [rewrite IH; reflexivity|].
    symmetry. apply N.eqb_neq. lia.
Qed.

(** The result only has characters of [a-z0-9]. *)
Lemma normalize_label_all v : all_lower_alnum (normalize_label v).
Proof.
  unfold normalize_label. destruct (is_none v).
  - constructor.
  - apply strip_non_alnum_all.
Qed.

(** A [str] over [a-z0-9] is left as it is. *)
Lemma normalize_label_fixed s :
  all_lower_alnum s -> normalize_label (PStr s) = s.
Proof.
  intros Hs. unfold normalize_label, str_lower. simpl.
  rewrite (lower_from_fixed s Hs).
  rewrite (replace_cp_fixed SUB2 50 s) by (assumption || (unfold SUB2; lia)).
  rewrite (replace_cp_fixed SUB3 51 s) by (assumption || (unfold SUB3; lia)).
  rewrite (replace_cp_fixed SUB5 53 s) by (assumption || (unfold SUB5; lia)).
  apply strip_non_alnum_fixed. exact Hs.
Qed.

(** C9.  [normalize_label] is idempotent; ["NO₂"] and ["no2"] both give
    ["no2"] (the subscript two, U+2082, being caseless); [None] gives
    the empty string. *)
Theorem normalize_label_idempotent :
  (forall x, normalize_label (PStr (normalize_label x)) = normalize_label x)
  /\ ((forall before after, lower_nonascii before SUB2 after = [SUB2]) ->
      normalize_label (PStr (py "NO" ++ [SUB2])) = py "no2")
  /\ normalize_label (PStr (py "no2")) = py "no2"
  /\ normalize_label PNone = [].
Proof.
  split; [|split; [|split]].
  - intros x. apply normalize_label_fixed, normalize_label_all.
  - intros Hsub. unfold normalize_label, str_lower. simpl.
    unfold lower_cp. simpl. rewrite Hsub. reflexivity.
  - reflexivity.
  - reflexivity.
Qed.

End NormalizeLabelFacts.

(** With caseless subscripts, ["NO₂"] is normalised to ["no2"], and
    normalising that again changes nothing. *)
Lemma normalize_label_idempotent_witness :
  normalize_label (B := plain_builtins) (PStr (py "NO" ++ [SUB2])) = py "no2"
  /\ normalize_label (B := plain_builtins)
       (PStr (normalize_label (B := plain_builtins) (PStr (py "NO" ++ [SUB2]))))
     = py "no2".
Proof.
  pose proof (normalize_label_idempotent (B := plain_builtins)) as [Hidem [Hsub _]].
  assert (H : normalize_label (B := plain_builtins) (PStr (py "NO" ++ [SUB2]))
              = py "no2").
  { apply Hsub. intros before after. reflexivity. }
  split; [exact H|].
  rewrite Hidem. exact H.
Defined.

(** ** Rounding never produces a NaN *)

Module RoundFacts.

Lemma iter_pos_invariant {A} (f : A -> A) (I : A -> Prop) :
  (forall a, I a -> I (f a)) ->
  forall p a, I a -> I (iter_pos f p a).
Proof.
  intros Hf. induction p as [p IH|p IH|]; intros a Ha; simpl.
  - apply IH, IH, Hf, Ha.
  - apply IH, IH, Ha.
  - apply Hf, Ha.
Qed.

Lemma shr_1_nonneg mrs : 0 <= shr_m mrs -> 0 <= shr_m (shr_1 mrs).
Proof.
  destruct mrs as [m r s]. simpl.
  destruct m as [|[p|p|]|[p|p|]]; simpl; lia.
Qed.

Lemma shr_nonneg mrs e n : 0 <= shr_m mrs -> 0 <= shr_m (fst (shr mrs e n)).
Proof.
  intros H. unfold shr. destruct n as [|p|p]; simpl; try exact H.
  apply (iter_pos_invariant shr_1 (fun x => 0 <= shr_m x)); [|exact H].
  exact shr_1_nonneg.
Qed.

Lemma shr_record_of_loc_m m l : shr_m (shr_record_of_loc m l) = m.
Proof. destruct l as [|[| |]]; reflexivity. Qed.

Lemma shr_fexp_nonneg prec emax m e l :
  0 <= m -> 0 <= shr_m (fst (shr_fexp prec emax m e l)).
Proof.
  intros H. unfold shr_fexp. apply shr_nonneg.
  rewrite shr_record_of_loc_m. exact H.
Qed.

Lemma round_nearest_even_nonneg m l : 0 <= m -> 0 <= round_nearest_even m l.
Proof.
  intros H. unfold round_nearest_even.
  destruct l as [|[| |]]; try destruct (Z.even m); lia.
Qed.

Lemma binary_round_aux_not_nan prec emax sx mx ex lx :
  0 <= mx -> F64.is_nan (binary_round_aux prec emax sx mx ex lx) = false.
Proof.
  intros H. unfold binary_round_aux.
  pose proof (shr_fexp_nonneg prec emax mx ex lx H) as H1.
  destruct (shr_fexp prec emax mx ex lx) as [mrs' e']. simpl in H1.
  pose proof (shr_fexp_nonneg prec emax _ e' loc_Exact
                (round_nearest_even_nonneg _ (loc_of_shr_record mrs') H1)) as H2.
  destruct (shr_fexp prec emax _ e' loc_Exact) as [mrs'' e'']. simpl in H2.
  destruct (shr_m mrs'') as [|p|p].
  - reflexivity.
  - destruct (e'' <=? emax - prec); reflexivity.
  - lia.
Qed.

(** A quotient by a finite non-zero float is a NaN only if the dividend
    is. *)
Lemma div_not_nan x sy my ey :
  F64.is_nan x = false ->
  F64.is_nan (F64.div x (S754_finite sy my ey)) = false.
Proof.
  destruct x as [sx|sx| |sx mx ex]; intros Hx; try discriminate; try reflexivity.
  unfold F64.div, SFdiv, SFdiv_core_binary.
  set (m' := match _ - _ with Z0 => Z.pos mx | Z.pos _ => _ | Z.neg _ => 0 end).
  assert (Hm' : 0 <= m').
  { subst m'. destruct (_ - _) as [|s|s]; try lia.
    apply Z.shiftl_nonneg. lia. }
  pose proof (Z.div_pos m' (Z.pos my) Hm' (Pos2Z.is_pos my)) as Hq.
  unfold Z.div in Hq.
  destruct (Z.div_eucl m' (Z.pos my)) as [q r]. simpl in Hq.
  apply binary_round_aux_not_nan. exact Hq.
Qed.

End RoundFacts.

(** ** [numpy.clip] *)

Module ClipFacts.

Lemma leb_refl x : F64.is_nan x = false -> F64.leb x x = true.
Proof.
  unfold F64.leb, SFleb.
  destruct x as [[|]|[|]| |[|] m e]; simpl; try discriminate; try reflexivity;
    intros _; rewrite Z.compare_refl;
    change (Pos.compare_cont Eq m m) with (Pos.compare m m);
    rewrite Pos.compare_refl; reflexivity.
Qed.

(** Whatever is not a NaN is clipped into the interval. *)
Lemma np_clip_within x lo hi :
  F64.is_nan lo = false -> F64.is_nan hi = false -> F64.leb lo hi = true ->
  F64.is_nan x = false ->
  within lo hi (F64.np_clip x lo hi).
Proof.
  intros Hlo Hhi Hle Hx. unfold within, F64.np_clip. rewrite Hx.
  destruct (F64.ltb lo x) eqn:E1.
  - destruct (F64.ltb x hi) eqn:E2.
    + split; apply F64Facts.ltb_leb; assumption.
    + split; [exact Hle | apply leb_refl, Hhi].
  - destruct (F64.ltb lo hi) eqn:E2.
    + split; [apply leb_refl, Hlo | exact Hle].
    + split; [exact Hle | apply leb_refl, Hhi].
Qed.

(** The clipped value is a NaN only when the argument is. *)
Lemma np_clip_nan x lo hi :
  F64.is_nan lo = false -> F64.is_nan hi = false ->
  F64.is_nan (F64.np_clip x lo hi) = F64.is_nan x.
Proof.
  intros Hlo Hhi. unfold F64.np_clip.
  destruct (F64.is_nan x) eqn:Hx; [exact Hx|].
  destruct (F64.ltb lo x).
  - destruct (F64.ltb x hi); assumption.
  - destruct (F64.ltb lo hi); assumption.
Qed.

(** A clipped value that is not a NaN lies in the interval. *)
Lemma np_clip_value_within x lo hi :
  F64.is_nan lo = false -> F64.is_nan hi = false -> F64.leb lo hi = true ->
  F64.is_nan (F64.np_clip x lo hi) = false ->
  within lo hi (F64.np_clip x lo hi).
Proof.
  intros Hlo Hhi Hle Hv. apply np_clip_within; try assumption.
  rewrite <- (np_clip_nan x lo hi Hlo Hhi). exact Hv.
Qed.

End ClipFacts.

(** ** Clamping *)

Module ClampFacts.

Lemma ltb_asym x y : F64.ltb x y = true -> F64.ltb y x = false.
Proof.
  intros H. destruct (F64.ltb y x) eqn:E; [|reflexivity].
  apply F64Facts.ltb_leb in E. rewrite (F64Facts.ltb_not_leb _ _ H) in E.
  discriminate.
Qed.

Lemma ltb_not_nan_l x y : F64.ltb x y = true -> F64.is_nan x = false.
Proof. destruct x; try reflexivity. discriminate. Qed.

Lemma ltb_not_nan_r x y : F64.ltb x y = true -> F64.is_nan y = false.
Proof. destruct x, y; try reflexivity; discriminate. Qed.

Lemma leb_not_nan_r x y : F64.leb x y = true -> F64.is_nan y = false.
Proof. destruct x, y; try reflexivity; discriminate. Qed.

(** Two numbers that compare equal, one of them finite and not zero, are
    the same float. *)
Lemma leb_not_ltb_eq s m e y :
  F64.leb (S754_finite s m e) y = true ->
  F64.ltb (S754_finite s m e) y = false ->
  y = S754_finite s m e.
Proof.
  unfold F64.leb, F64.ltb, SFleb, SFltb.
  destruct y as [[|]|[|]| |[|] m' e'], s; simpl; try discriminate;
    change (Pos.compare_cont Eq) with Pos.compare;
    destruct (Z.compare_spec e e') as [He|He|He]; simpl; try discriminate;
    destruct (Pos.compare_spec m m') as [Hm|Hm|Hm]; simpl; try discriminate;
    intros; subst; reflexivity.
Qed.

Lemma leb_not_ltb_eq_r s m e y :
  F64.leb y (S754_finite s m e) = true ->
  F64.ltb y (S754_finite s m e) = false ->
  y = S754_finite s m e.
Proof.
  unfold F64.leb, F64.ltb, SFleb, SFltb.
  destruct y as [[|]|[|]| |[|] m' e'], s; simpl; try discriminate;
    change (Pos.compare_cont Eq) with Pos.compare;
    destruct (Z.compare_spec e' e) as [He|He|He]; simpl; try discriminate;
    destruct (Pos.compare_spec m' m) as [Hm|Hm|Hm]; simpl; try discriminate;
    intros; subst; reflexivity.
Qed.

(** [numpy.clip] between two finite limits that are not zero, the lower
    one below the upper one, clamps. *)
Lemma np_clip_clamped sl ml el sh mh eh y :
  F64.ltb (S754_finite sl ml el) (S754_finite sh mh eh) = true ->
  clamped (S754_finite sl ml el) (S754_finite sh mh eh) y
          (F64.np_clip y (S754_finite sl ml el) (S754_finite sh mh eh)).
Proof.
  set (lo := S754_finite sl ml el). set (hi := S754_finite sh mh eh).
  intros Hlohi. unfold clamped, F64.np_clip. split; [|split].
  - intros Hy. rewrite (ltb_not_nan_l _ _ Hy), (ltb_asym _ _ Hy), Hlohi.
    reflexivity.
  - intros Hy. rewrite (ltb_not_nan_r _ _ Hy).
    rewrite (F64Facts.ltb_leb_trans lo hi y Hlohi (F64Facts.ltb_leb _ _ Hy)).
    rewrite (ltb_asym _ _ Hy). reflexivity.
  - intros [Hlo Hhi]. rewrite (leb_not_nan_r _ _ Hlo).
    destruct (F64.ltb lo y) eqn:E1.
    + destruct (F64.ltb y hi) eqn:E2; [reflexivity|].
      symmetry. exact (leb_not_ltb_eq_r _ _ _ _ Hhi E2).
    + rewrite Hlohi. symmetry. exact (leb_not_ltb_eq _ _ _ _ Hlo E1).
Qed.

End ClampFacts.

(** ** Satellite proxy *)

Lemma Ok_pair_inj {A C S} (a a' : A) (c c' : C) (s s' : S) :
  (Ok (a, c), s) = (Ok (a', c'), s') -> a = a'.
Proof. intros H. congruence. Qed.

Section SatelliteFacts.
Context {B : Builtins} {P : Platform}.
Local Open Scope f64_scope.

Lemma tempo_to_aod_proxy_from_no2_value v x :
  py_float v = Ok x ->
  tempo_to_aod_proxy_from_no2 v = Some (F64.np_clip (x / f1e16) f0_03 f1_0).
Proof. intros Hv. unfold tempo_to_aod_proxy_from_no2. rewrite Hv. reflexivity. Qed.

(** What [fetch_satellite_proxy] returns: a clipped value with its label,
    or no value and the label [DEMO_FALLBACK]. *)
Lemma fetch_satellite_proxy_cases lat lon s :
  (exists x lbl s', fetch_satellite_proxy lat lon s
                    = (Some (F64.np_clip x f0_03 f1_0), lbl, s'))
  \/ (exists s', fetch_satellite_proxy lat lon s = (None, DEMO_FALLBACK, s')).
Proof.
  unfold fetch_satellite_proxy.
  destruct EE_AVAILABLE; [|right; eexists; reflexivity].
  unfold bind, ret.
  destruct (get_tempo_no2_via_ee lat lon s) as [[x|] s1].
  - left. rewrite (tempo_to_aod_proxy_from_no2_value (PFloat x) x eq_refl).
    do 3 eexists. reflexivity.
  - destruct (get_modis_aod_via_ee lat lon s1) as [[x|] s2].
    + left. do 3 eexists. reflexivity.
    + right. eexists. reflexivity.
Qed.

Lemma limits_ok :
  F64.is_nan f0_03 = false /\ F64.is_nan f1_0 = false
  /\ F64.leb f0_03 f1_0 = true.
Proof. repeat split; vm_compute; reflexivity. Qed.

Lemma clip_unit_within x :
  F64.is_nan (F64.np_clip x f0_03 f1_0) = false ->
  within f0_03 f1_0 (F64.np_clip x f0_03 f1_0).
Proof.
  destruct limits_ok as [H1 [H2 H3]].
  apply ClipFacts.np_clip_value_within; assumption.
Qed.

Lemma limits_finite :
  f0_03 = S754_finite false 8646911284551352 (-58)
  /\ f1_0 = S754_finite false 4503599627370496 (-52).
Proof. split; vm_compute; reflexivity. Qed.

(** The clipped quotient [clip(x / d, 0.03, 1.0)], for a finite divisor
    that is not zero: it is the quotient clamped, it lies in the interval
    when [x] is a number, and it is a NaN when [x] is. *)
Lemma clip_quotient x sd md ed :
  clamped f0_03 f1_0 (x / S754_finite sd md ed)
          (F64.np_clip (x / S754_finite sd md ed) f0_03 f1_0)
  /\ (F64.is_nan x = false ->
      within f0_03 f1_0 (F64.np_clip (x / S754_finite sd md ed) f0_03 f1_0))
  /\ (F64.is_nan x = true ->
      F64.is_nan (F64.np_clip (x / S754_finite sd md ed) f0_03 f1_0) = true).
Proof.
  destruct limits_ok as [Hlo [Hhi Hle]]. split; [|split].
  - destruct limits_finite as [-> ->].
    apply ClampFacts.np_clip_clamped. vm_compute. reflexivity.
  - intros Hx. apply ClipFacts.np_clip_within; try assumption.
    apply RoundFacts.div_not_nan, Hx.
  - intros Hx. destruct x; try discriminate Hx. reflexivity.
Qed.

Lemma divisors_finite :
  f1e16 = S754_finite false 5000000000000000 1
  /\ f150_0 = S754_finite false 5277655813324800 (-45).
Proof. split; vm_compute; reflexivity. Qed.

(** C6, as the code has it.  The satellite proxy of a column value [v]
    is [v / 1e16] clamped to [[0.03, 1.0]]: 0.03 when the quotient is
    below the interval, 1.0 when it is above, the quotient itself when
    it is inside (1.0 at [v = 2e16], 0.3 at [3e15], 0.03 at [1e14]);
    without a satellite value the caller takes [pm25 / 150] clamped in
    the same way, with the label ["PM2.5_proxy"].  The proxy lies in
    [[0.03, 1.0]] when the column value or the PM2.5 it is computed from
    is a number, and it is a NaN when that input is a NaN: every value
    the integration step hands on is in the interval or is a NaN. *)
Theorem satellite_proxy_clamped :
  (forall v x,
      py_float v = Ok x ->
      exists r,
        tempo_to_aod_proxy_from_no2 v = Some r
        /\ clamped f0_03 f1_0 (x / f1e16) r
        /\ (F64.is_nan x = false -> within f0_03 f1_0 r)
        /\ (F64.is_nan x = true -> F64.is_nan r = true))
  /\ tempo_to_aod_proxy_from_no2 (PFloat (F64.of_Z (2 * 10 ^ 16))) = Some f1_0
  /\ tempo_to_aod_proxy_from_no2 (PFloat (F64.of_Z (3 * 10 ^ 15)))
     = Some (F64.dec 3 1)
  /\ tempo_to_aod_proxy_from_no2 (PFloat (F64.of_Z (10 ^ 14))) = Some f0_03
  /\ (forall lat lon pm25 x s lbl s',
         fetch_satellite_proxy lat lon s = (None, lbl, s') ->
         py_float pm25 = Ok x ->
         exists r,
           satellite_integration lat lon pm25 s = (Ok (r, PM25_PROXY), s')
           /\ clamped f0_03 f1_0 (x / f150_0) r
           /\ (F64.is_nan x = false -> within f0_03 f1_0 r)
           /\ (F64.is_nan x = true -> F64.is_nan r = true))
  /\ (forall lat lon pm25 s v lbl s',
         satellite_integration lat lon pm25 s = (Ok (v, lbl), s') ->
         within f0_03 f1_0 v \/ F64.is_nan v = true).
Proof.
  destruct limits_ok as [Hlo [Hhi Hle]].
  destruct divisors_finite as [E1 E2].
  split; [|split; [|split; [|split; [|split]]]].
  - intros v x Hv. rewrite (tempo_to_aod_proxy_from_no2_value v x Hv).
    eexists. split; [reflexivity|]. rewrite E1. apply clip_quotient.
  - vm_compute. reflexivity.
  - vm_compute. reflexivity.
  - vm_compute. reflexivity.
  - intros lat lon pm25 x s lbl s' Hfetch Hpm.
    unfold satellite_integration, bind, ret.
    destruct (fetch_satellite_proxy_cases lat lon s) as [(y & l & s1 & E)|(s1 & E)];
      rewrite E in Hfetch; [discriminate|].
    injection Hfetch as <- <-. rewrite E, Hpm. cbn [rbind].
    eexists. split; [reflexivity|]. rewrite E2. apply clip_quotient.
  - intros lat lon pm25 s v lbl s' Hrun.
    assert (Hclip : forall y,
               within f0_03 f1_0 (F64.np_clip y f0_03 f1_0)
               \/ F64.is_nan (F64.np_clip y f0_03 f1_0) = true).
    { intros y. destruct (F64.is_nan (F64.np_clip y f0_03 f1_0)) eqn:Hn.
      - right. reflexivity.
      - left. apply clip_unit_within, Hn. }
    unfold satellite_integration, bind, ret in Hrun.
    destruct (fetch_satellite_proxy_cases lat lon s) as [(y & l & s1 & E)|(s1 & E)];
      rewrite E in Hrun.
    + apply Ok_pair_inj in Hrun. rewrite <- Hrun. apply Hclip.
    + destruct (py_float pm25) as [x|e]; [|discriminate].
      apply Ok_pair_inj in Hrun. rewrite <- Hrun. apply Hclip.
Qed.

End SatelliteFacts.

(** Off line, with PM2.5 at 30.0: the proxy is 0.2, it is labelled
    ["PM2.5_proxy"] and it lies in [[0.03, 1.0]]; a column of 3e15 gives
    0.3. *)
Lemma satellite_proxy_clamped_witness :
  satellite_integration (B := plain_builtins) (P := scripted_platform)
    (F64.dec 25358 3) (F64.dec 55478 3) (PFloat (F64.of_Z 30)) (start offline)
  = (Ok (F64.dec 2 1, PM25_PROXY), start offline)
  /\ within f0_03 f1_0 (F64.dec 2 1)
  /\ tempo_to_aod_proxy_from_no2 (B := plain_builtins) (PInt (3 * 10 ^ 15))
     = Some (F64.dec 3 1).
Proof.
  pose proof (satellite_proxy_clamped (B := plain_builtins) (P := scripted_platform))
    as (Htempo & _ & _ & _ & Hcaller & _).
  destruct (Hcaller (F64.dec 25358 3) (F64.dec 55478 3) (PFloat (F64.of_Z 30))
                    (F64.of_Z 30) (start offline) DEMO_FALLBACK (start offline)
                    eq_refl eq_refl)
    as (r & Hrun & (_ & _ & Hinside) & Hrange & _).
  assert (Hr : r = F64.dec 2 1).
  { rewrite Hinside; [vm_compute; reflexivity|].
    split; vm_compute; reflexivity. }
  rewrite Hr in Hrun, Hrange.
  split; [exact Hrun|]. split; [apply Hrange; reflexivity|].
  destruct (Htempo (PInt (3 * 10 ^ 15)) (F64.of_Z (3 * 10 ^ 15)))
    as (r' & Hrun' & (_ & _ & Hinside') & _).
  { vm_compute. reflexivity. }
  rewrite Hrun', Hinside'; [vm_compute; reflexivity|].
  split; vm_compute; reflexivity.
Defined.

(** C6 as stated fails: a NaN column value and a NaN PM2.5 give a NaN
    proxy, which is neither at least 0.03 nor at most 1.0. *)
Lemma satellite_proxy_of_nan_is_nan :
  tempo_to_aod_proxy_from_no2 (B := plain_builtins) (PFloat S754_nan)
  = Some S754_nan
  /\ satellite_integration (B := plain_builtins) (P := scripted_platform)
       (F64.dec 25358 3) (F64.dec 55478 3) (PFloat S754_nan) (start offline)
     = (Ok (S754_nan, PM25_PROXY), start offline)
  /\ F64.leb f0_03 S754_nan = false
  /\ F64.leb S754_nan f1_0 = false.
Proof. repeat split; vm_compute; reflexivity. Qed.

(** ** Forecast *)

Section ForecastFacts.
Context {B : Builtins} {P : Platform}.

Lemma forecast_walk_length n scale last rng :
  List.length (forecast_walk n scale last rng) = n.
Proof.
  revert last rng. induction n as [|n IH]; intros last rng.
  - reflexivity.
  - cbn [forecast_walk].
    destruct (generator_normal (F64.of_Z 0) scale rng) as [step rng'].
    cbn [List.length]. f_equal. apply IH.
Qed.

Lemma hourly_forecast_pm_length current_pm hours variance vals :
  hourly_forecast_pm current_pm hours variance = Ok vals ->
  List.length vals = Z.to_nat hours.
Proof.
  unfold hourly_forecast_pm, rbind.
  destruct (py_float current_pm) as [x|e]; [|discriminate].
  destruct (F64.trunc_int _) as [seed|]; [|discriminate].
  intros H. injection H as <-. apply forecast_walk_length.
Qed.

(** With fewer than six samples the section is the random walk of
    [hourly_forecast_pm], whatever the history and the world. *)
Lemma forecast_section_walk pm_history pm25 forecast_var s :
  (List.length pm_history < 6)%nat ->
  forecast_section true pm_history pm25 forecast_var s
  = ((vs <- hourly_forecast_pm pm25 24
              (F64.div (F64.of_Z forecast_var) (F64.of_Z 100)) ;;
      aqi24 <- mapM (fun x => pm25_to_aqi (PFloat x)) vs ;;
      Ok (vs, aqi24))%pym, s).
Proof.
  intros Hlen. unfold forecast_section, bind, ret.
  replace (6 <=? List.length pm_history)%nat with false; [reflexivity|].
  symmetry. apply Nat.leb_gt. exact Hlen.
Qed.


End ForecastFacts.


(** ** Dictionaries with [str] keys *)

Module DictFacts.

Lemma pystr_eqb_eq a b : pystr_eqb a b = true <-> a = b.
Proof.
  revert b. induction a as [|x a IH]; intros [|y b]; simpl;
    try (split; [discriminate | discriminate]); try tauto.
  rewrite andb_true_iff, N.eqb_eq, IH.
  split; [intros [-> ->]; reflexivity | intros H; injection H; auto].
Qed.

Lemma pystr_eqb_refl a : pystr_eqb a a = true.
Proof. apply pystr_eqb_eq. reflexivity. Qed.

Lemma pystr_eqb_neq a b : pystr_eqb a b = false <-> a <> b.
Proof.
  rewrite <- pystr_eqb_eq. destruct (pystr_eqb a b); split; congruence.
Qed.

Section Assoc.
Context {V : Type}.
Implicit Types (d : list (pystr * V)) (k : pystr) (v : V).

(** Assigning to a key the dictionary has keeps the keys and their
    order. *)
Lemma dict_set_keys k v d :
  dict_in k d = true -> map fst (dict_set k v d) = map fst d.
Proof.
  unfold dict_in. induction d as [|[k' v'] d IH]; simpl.
  - discriminate.
  - destruct (pystr_eqb k k') eqn:E; simpl.
    + reflexivity.
    + intros H. rewrite (IH H). reflexivity.
Qed.

Lemma assoc_dict_set_same k v d :
  dict_in k d = true -> assoc k (dict_set k v d) = Some v.
Proof.
  unfold dict_in. induction d as [|[k' v'] d IH]; simpl.
  - discriminate.
  - destruct (pystr_eqb k k') eqn:E; simpl; rewrite E.
    + reflexivity.
    + exact IH.
Qed.

Lemma assoc_dict_set_other k k0 v d :
  k0 <> k -> assoc k0 (dict_set k v d) = assoc k0 d.
Proof.
  intros Hne. induction d as [|[k' v'] d IH]; simpl.
  - apply pystr_eqb_neq in Hne. rewrite Hne. reflexivity.
  - destruct (pystr_eqb k k') eqn:E; simpl.
    + apply pystr_eqb_eq in E. subst k'.
      apply pystr_eqb_neq in Hne. rewrite Hne. reflexivity.
    + rewrite IH. reflexivity.
Qed.

Lemma dict_in_keys k d : dict_in k d = true <-> In k (map fst d).
Proof.
  unfold dict_in. induction d as [|[k' v'] d IH]; simpl.
  - split; [discriminate | contradiction].
  - destruct (pystr_eqb k k') eqn:E.
    + apply pystr_eqb_eq in E. subst. tauto.
    + apply pystr_eqb_neq in E. rewrite IH. split; [tauto|].
      intros [H|H]; [congruence | exact H].
Qed.

End Assoc.

Lemma flag_get_set_same k b (flags : flags_t) :
  dict_in k flags = true -> flag_get k (dict_set k b flags) = b.
Proof. intros H. unfold flag_get. rewrite (assoc_dict_set_same _ _ _ H). reflexivity. Qed.

Lemma flag_get_set_other k k0 b (flags : flags_t) :
  k0 <> k -> flag_get k0 (dict_set k b flags) = flag_get k0 flags.
Proof. intros H. unfold flag_get. rewrite (assoc_dict_set_other _ _ _ _ H). reflexivity. Qed.

Lemma polls_get_set_same k v (polls : polls_t) :
  dict_in k polls = true -> polls_get k (dict_set k v polls) = v.
Proof. intros H. unfold polls_get. rewrite (assoc_dict_set_same _ _ _ H). reflexivity. Qed.

Lemma polls_get_set_other k k0 v (polls : polls_t) :
  k0 <> k -> polls_get k0 (dict_set k v polls) = polls_get k0 polls.
Proof. intros H. unfold polls_get. rewrite (assoc_dict_set_other _ _ _ _ H). reflexivity. Qed.

(** Clearing a flag keeps an all-clear dictionary all clear. *)
Lemma dict_set_false_all_false k (flags : flags_t) :
  none_live flags ->
  none_live (dict_set k false flags).
Proof.
  induction 1 as [|[k' b] flags Hb Hrest IH]; simpl.
  - repeat constructor.
  - destruct (pystr_eqb k k'); constructor; auto.
Qed.

Lemma all_false_flag_get k (flags : flags_t) :
  none_live flags -> flag_get k flags = false.
Proof.
  unfold flag_get. induction 1 as [|[k' b] flags Hb _ IH]; simpl.
  - reflexivity.
  - destruct (pystr_eqb k k'); [exact Hb | exact IH].
Qed.

End DictFacts.

(** ** The pollutant slots *)

Import DictFacts.

Section CompletionFacts.
Context {B : Builtins} {P : Platform}.

Lemma six_slots_init : six_slots (polls_init, live_flags_init).
Proof. split; reflexivity. Qed.

Lemma six_slots_set key v b pf :
  six_slots pf -> dict_in key (fst pf) = true ->
  six_slots (dict_set key v (fst pf), dict_set key b (snd pf)).
Proof.
  intros [Hp Hf] Hin. split; simpl.
  - rewrite dict_set_keys; assumption.
  - rewrite dict_set_keys; [assumption|].
    apply dict_in_keys. rewrite Hf, <- Hp. apply dict_in_keys, Hin.
Qed.

Lemma ingest_one_slots binding mode pf m s pf' s' :
  ingest_one binding mode pf m s = (Ok pf', s') ->
  six_slots pf -> six_slots pf'.
Proof.
  destruct pf as [polls flags]. unfold ingest_one, rbind.
  destruct (py_get m (py "parameter")) as [p|e]; [|discriminate].
  destruct (py_get m (py "value")) as [val|e]; [|discriminate].
  destruct (py_get m (py "lastUpdated")) as [ts|e]; [|discriminate].
  destruct (dict_in (normalize_label p) polls) eqn:Hin; simpl;
    [|intros H; injection H as <- _; auto].
  destruct (is_none val); simpl; [intros H; injection H as <- _; auto|].
  intros Hrun Hs.
  destruct mode as [[|]|].
  - injection Hrun as <- _. apply (six_slots_set _ _ _ (polls, flags)); assumption.
  - destruct (truthy ts).
    + destruct (call_global binding ts) as [[dtt|]|e].
      * unfold bind, lift, ret in Hrun.
        destruct (utcnow (st_world s)) as [now w'].
        injection Hrun as <- _. apply (six_slots_set _ _ _ (polls, flags)); assumption.
      * injection Hrun as <- _. apply (six_slots_set _ _ _ (polls, flags)); assumption.
      * injection Hrun as <- _. apply (six_slots_set _ _ _ (polls, flags)); assumption.
    + injection Hrun as <- _. apply (six_slots_set _ _ _ (polls, flags)); assumption.
  - injection Hrun as <- _. destruct Hs as [Hp Hf]. split; simpl; [|exact Hf].
    rewrite dict_set_keys; assumption.
Qed.

Lemma ingest_slots binding mode ms : forall pf s pf' s',
  ingest binding mode ms pf s = (Ok pf', s') ->
  six_slots pf -> six_slots pf'.
Proof.
  induction ms as [|m ms IH]; intros pf s pf' s'; simpl.
  - unfold ret. intros H; injection H as <- _. auto.
  - unfold bind.
    destruct (ingest_one binding mode pf m s) as [[pf1|e] s1] eqn:E1.
    + intros Hrun Hs. apply (IH _ _ _ _ Hrun).
      apply (ingest_one_slots _ _ _ _ _ _ _ E1 Hs).
    + unfold ret. discriminate.
Qed.

(** In pseudo mode, with [iso_to_dt] unbound, a measurement never sets a
    flag. *)
Lemma ingest_one_pseudo_none_live pf m s pf' s' :
  ingest_one iso_to_dt (Some pseudo) pf m s = (Ok pf', s') ->
  none_live (snd pf) -> none_live (snd pf').
Proof.
  destruct pf as [polls flags]. unfold ingest_one, rbind.
  destruct (py_get m (py "parameter")) as [p|e]; [|discriminate].
  destruct (py_get m (py "value")) as [val|e]; [|discriminate].
  destruct (py_get m (py "lastUpdated")) as [ts|e]; [|discriminate].
  destruct (dict_in (normalize_label p) polls && negb (is_none val)).
  - destruct (truthy ts); simpl; unfold ret; intros H; injection H as <- _;
      simpl; apply dict_set_false_all_false.
  - unfold ret. intros H; injection H as <- _. auto.
Qed.

Lemma ingest_pseudo_none_live ms : forall pf s pf' s',
  ingest iso_to_dt (Some pseudo) ms pf s = (Ok pf', s') ->
  none_live (snd pf) -> none_live (snd pf').
Proof.
  induction ms as [|m ms IH]; intros pf s pf' s'; simpl.
  - unfold ret. intros H; injection H as <- _. auto.
  - unfold bind.
    destruct (ingest_one iso_to_dt (Some pseudo) pf m s) as [[pf1|e] s1] eqn:E1.
    + intros Hrun Hs. apply (IH _ _ _ _ Hrun).
      apply (ingest_one_pseudo_none_live _ _ _ _ _ E1 Hs).
    + unfold ret. discriminate.
Qed.

Lemma pm25_fallback_none_live lat pf pf' :
  pm25_fallback lat pf = Ok pf' -> none_live (snd pf) -> none_live (snd pf').
Proof.
  destruct pf as [polls flags]. unfold pm25_fallback, rbind.
  destruct (is_none (polls_get (py "pm25") polls));
    [|intros H; injection H as <-; auto].
  destruct (negb (is_none (polls_get (py "pm10") polls))).
  - destruct (py_float (polls_get (py "pm10") polls)) as [x|e].
    + intros H; injection H as <-. simpl. apply dict_set_false_all_false.
    + destruct (geo_baseline lat 15) as [b|e']; [|discriminate].
      intros H; injection H as <-. simpl. apply dict_set_false_all_false.
  - destruct (geo_baseline lat 10) as [b|e']; [|discriminate].
    intros H; injection H as <-. simpl. apply dict_set_false_all_false.
Qed.

Lemma fill_missing_none_live keys : forall pf s pf' s',
  fill_missing keys pf s = (pf', s') ->
  none_live (snd pf) -> none_live (snd pf').
Proof.
  induction keys as [|k keys IH]; intros [polls flags] s pf' s'; simpl.
  - unfold ret. intros H; injection H as <- _. auto.
  - destruct (is_none (polls_get k polls) && negb (pystr_eqb k (py "pm25"))).
    + destruct (py_float (polls_get (py "pm25") polls)) as [x|e].
      * unfold bind, lift.
        destruct (np_random_uniform f0_6 f1_4 (st_world s)) as [u w'].
        intros Hrun Hs. apply (IH _ _ _ _ Hrun). simpl.
        apply dict_set_false_all_false, Hs.
      * intros Hrun Hs. apply (IH _ _ _ _ Hrun). simpl.
        apply dict_set_false_all_false, Hs.
    + apply IH.
Qed.

Lemma none_live_init : none_live live_flags_init.
Proof. repeat constructor. Qed.

(** In pseudo mode the script leaves every live flag false, whatever the
    timestamps of the measurements and whatever the clock: the call
    [iso_to_dt(ts)] raises [NameError] before any age is computed. *)
Lemma pseudo_mode_none_live :
  forall lat parsed_measures s polls live_flags s',
    complete lat parsed_measures (Some pseudo) s = (Ok (polls, live_flags), s') ->
    none_live live_flags
    /\ forall k, flag_get k live_flags = false.
Proof.
  intros lat ms s polls flags s' Hrun.
  assert (H : none_live flags).
  { unfold complete, bind, ret in Hrun.
    destruct (ingest iso_to_dt (Some pseudo) ms (polls_init, live_flags_init) s)
      as [[pf|e] s1] eqn:E1; simpl in Hrun; [|discriminate].
    destruct (pm25_fallback lat pf) as [pf1|e] eqn:E2; [|discriminate].
    destruct (fill_missing (map fst (fst pf1)) pf1 s1) as [pf2 s2] eqn:E3.
    injection Hrun as -> _.
    apply (fill_missing_none_live _ _ _ _ _ E3).
    apply (pm25_fallback_none_live _ _ _ E2).
    apply (ingest_pseudo_none_live _ _ _ _ _ E1).
    exact none_live_init. }
  split; [exact H|].
  intros k. apply all_false_flag_get, H.
Qed.


Lemma age_hr_at_48h dtt :
  F64.leb (age_hr (dtt + 48 * 3600 * 10 ^ 6) dtt) f48_0 = true.
Proof.
  unfold age_hr. replace (dtt + 48 * 3600 * 10 ^ 6 - dtt) with 172800000000 by lia.
  vm_compute. reflexivity.
Qed.

Lemma age_hr_at_48_01h dtt :
  F64.leb (age_hr (dtt + 172836 * 10 ^ 6) dtt) f48_0 = false.
Proof.
  unfold age_hr. replace (dtt + 172836 * 10 ^ 6 - dtt) with 172836000000 by lia.
  vm_compute. reflexivity.
Qed.

(** Had the module bound [iso_to_dt] to a parser, the flag of a pseudo
    measurement would be the test [age_hr <= 48.0]. *)
Lemma ingest_one_pseudo_with_parser parser m p val ts dtt polls flags s :
  py_get m (py "parameter") = Ok p ->
  py_get m (py "value") = Ok val ->
  py_get m (py "lastUpdated") = Ok ts ->
  dict_in (normalize_label p) polls = true ->
  is_none val = false -> truthy ts = true ->
  parser ts = Ok (Some dtt) ->
  exists polls' s',
    ingest_one (Some parser) (Some pseudo) (polls, flags) m s
    = (Ok (polls',
           dict_set (normalize_label p)
                    (F64.leb (age_hr (fst (utcnow (st_world s))) dtt) f48_0)
                    flags), s').
Proof.
  intros Hp Hv Ht Hin Hval Hts Hparse.
  unfold ingest_one, rbind. rewrite Hp, Hv, Ht, Hin, Hval, Hts. simpl.
  rewrite Hparse. unfold bind, lift, ret.
  destruct (utcnow (st_world s)) as [now w']. simpl.
  do 2 eexists. reflexivity.
Qed.

Lemma py_sin_finite x : F64.is_inf x = false -> py_sin x = Ok (libm_sin x).
Proof. destruct x; simpl; try reflexivity; discriminate. Qed.

Lemma geo_baseline_value lat c :
  F64.is_inf (F64.div lat f12_0) = false ->
  geo_baseline lat c
  = Ok (F64.round_nd (F64.add (F64.of_Z 5)
                        (F64.mul (F64.abs (libm_sin (F64.div lat f12_0)))
                                 (F64.of_Z c))) 1).
Proof. intros H. unfold geo_baseline. rewrite (py_sin_finite _ H). reflexivity. Qed.





(** The latitudes of the dropdown, divided by 12.0, are finite. *)
Lemma locations_latitudes_finite :
  Forall (fun ll => F64.is_inf (F64.div (fst ll) f12_0) = false) LOCATIONS.
Proof. repeat constructor. Qed.

(** The loop over the missing slots never touches PM2.5. *)
Lemma fill_missing_keeps_pm25 keys : forall pf s pf' s',
  fill_missing keys pf s = (pf', s') ->
  polls_get (py "pm25") (fst pf') = polls_get (py "pm25") (fst pf)
  /\ flag_get (py "pm25") (snd pf') = flag_get (py "pm25") (snd pf).
Proof.
  induction keys as [|k keys IH]; intros [polls flags] s pf' s'; cbn [fill_missing].
  - unfold ret. intros H; injection H as <- _. split; reflexivity.
  - destruct (is_none (polls_get k polls)); cbn [andb]; [|apply IH].
    destruct (pystr_eqb k (py "pm25")) eqn:E; cbn [negb]; [apply IH|].
    apply pystr_eqb_neq in E.
    assert (Hne : py "pm25" <> k) by congruence.
    destruct (py_float (polls_get (py "pm25") polls)) as [x|e].
    + unfold bind, lift.
      destruct (np_random_uniform f0_6 f1_4 (st_world s)) as [u w'].
      intros Hrun. destruct (IH _ _ _ _ Hrun) as [H1 H2].
      cbn [fst snd] in *.
      rewrite H1, H2, (polls_get_set_other _ _ _ _ Hne),
        (flag_get_set_other _ _ _ _ Hne).
      split; reflexivity.
    + intros Hrun. destruct (IH _ _ _ _ Hrun) as [H1 H2].
      cbn [fst snd] in *.
      rewrite H1, H2, (polls_get_set_other _ _ _ _ Hne),
        (flag_get_set_other _ _ _ _ Hne).
      split; reflexivity.
Qed.

Lemma py_get_measure p v dt :
  py_get (measure p v dt) (py "parameter") = Ok p
  /\ py_get (measure p v dt) (py "value") = Ok v
  /\ py_get (measure p v dt) (py "lastUpdated") = Ok dt.
Proof. repeat split; reflexivity. Qed.

Lemma normalize_label_pm25 : normalize_label (PStr (py "pm25")) = py "pm25".
Proof. vm_compute. reflexivity. Qed.

(** A pseudo measurement of PM2.5 is stored and its flag stays false,
    whatever its timestamp: [iso_to_dt(ts)] raises [NameError]. *)
Lemma ingest_one_pseudo_pm25 v ts s :
  ingest_one iso_to_dt (Some pseudo) (polls_init, live_flags_init)
             (measure (PStr (py "pm25")) (PFloat v) ts) s
  = (Ok (dict_set (py "pm25") (PFloat v) polls_init, live_flags_init), s).
Proof.
  unfold ingest_one.
  destruct (py_get_measure (PStr (py "pm25")) (PFloat v) ts) as [-> [-> ->]].
  cbn [rbind]. rewrite normalize_label_pm25.
  change (dict_in (py "pm25") polls_init) with true.
  cbn [is_none negb andb py_float rbind try_except].
  destruct (truthy ts); reflexivity.
Qed.

(** C2.  The code on a pseudo measurement of PM2.5, for every timestamp
    [ts] and every state of the clock (so also when [ts] is exactly 48.0
    hours old): the script ends normally, PM2.5 holds the measured value,
    and its live flag is false. *)
Theorem pseudo_flag_false_at_any_age :
  forall lat v ts s,
  exists polls live_flags s',
    complete lat [measure (PStr (py "pm25")) (PFloat v) ts] (Some pseudo) s
    = (Ok (polls, live_flags), s')
    /\ polls_get (py "pm25") polls = PFloat v
    /\ flag_get (py "pm25") live_flags = false.
Proof.
  intros lat v ts s.
  unfold complete, bind. cbn [ingest]. unfold bind.
  rewrite ingest_one_pseudo_pm25. unfold ret. cbn [rbind].
  unfold pm25_fallback.
  change (polls_get (py "pm25") (dict_set (py "pm25") (PFloat v) polls_init))
    with (PFloat v).
  cbn [is_none].
  destruct (fill_missing _ _ s) as [[polls flags] s'] eqn:E.
  destruct (fill_missing_keeps_pm25 _ _ _ _ _ E) as [H1 H2].
  cbn [fst snd] in H1, H2.
  exists polls, flags, s'. split; [reflexivity|].
  rewrite H1, H2. split; reflexivity.
Qed.

(** The script ends with the float [v] in the PM2.5 slot and with the
    PM2.5 flag false, when the fallback of PM2.5 gives [v]. *)
Lemma complete_after_fallback lat ms mode s polls flags s1 v :
  ingest iso_to_dt mode ms (polls_init, live_flags_init) s
  = (Ok (polls, flags), s1) ->
  pm25_fallback lat (polls, flags)
  = Ok (dict_set (py "pm25") (PFloat v) polls, dict_set (py "pm25") false flags) ->
  completes_with_pm25 lat ms mode s v.
Proof.
  intros Hingest Hfall.
  destruct (ingest_slots _ _ _ _ _ _ _ Hingest six_slots_init) as [Hp Hf].
  cbn [fst snd] in Hp, Hf.
  assert (Hin1 : dict_in (py "pm25") polls = true)
    by (apply dict_in_keys; rewrite Hp; left; reflexivity).
  assert (Hin2 : dict_in (py "pm25") flags = true)
    by (apply dict_in_keys; rewrite Hf; left; reflexivity).
  unfold completes_with_pm25, complete, bind, ret. rewrite Hingest.
  cbn [rbind]. rewrite Hfall.
  destruct (fill_missing _ _ s1) as [[polls' flags'] s2] eqn:E.
  destruct (fill_missing_keeps_pm25 _ _ _ _ _ E) as [H1 H2].
  cbn [fst snd] in H1, H2.
  exists polls', flags', s2. split; [reflexivity|].
  rewrite H1, H2, (polls_get_set_same _ _ _ Hin1), (flag_get_set_same _ _ _ Hin2).
  split; reflexivity.
Qed.

(** C5, as the code has it.  When PM2.5 is unresolved after the
    measurements are read, the script ends with the PM2.5 flag false and
    with PM2.5 set to: [round(pm10 * 0.6, 1)] when PM10 is there and is a
    number; [round(5 + abs(sin(lat/12.0)) * 10, 1)] when PM10 is not
    there; [round(5 + abs(sin(lat/12.0)) * 15, 1)] when PM10 is there
    and [float] rejects it. *)
Theorem pm25_fallback_rounded :
  forall lat ms mode s polls flags s1,
    ingest iso_to_dt mode ms (polls_init, live_flags_init) s
    = (Ok (polls, flags), s1) ->
    polls_get (py "pm25") polls = PNone ->
    (forall x,
        polls_get (py "pm10") polls <> PNone ->
        py_float (polls_get (py "pm10") polls) = Ok x ->
        completes_with_pm25 lat ms mode s (F64.round_nd (F64.mul x f0_6) 1))
    /\ (polls_get (py "pm10") polls = PNone ->
        F64.is_inf (F64.div lat f12_0) = false ->
        completes_with_pm25 lat ms mode s
          (F64.round_nd
             (F64.add (F64.of_Z 5)
                (F64.mul (F64.abs (libm_sin (F64.div lat f12_0))) (F64.of_Z 10)))
             1))
    /\ (forall e,
        polls_get (py "pm10") polls <> PNone ->
        py_float (polls_get (py "pm10") polls) = Raise e ->
        F64.is_inf (F64.div lat f12_0) = false ->
        completes_with_pm25 lat ms mode s
          (F64.round_nd
             (F64.add (F64.of_Z 5)
                (F64.mul (F64.abs (libm_sin (F64.div lat f12_0))) (F64.of_Z 15)))
             1)).
Proof.
  intros lat ms mode s polls flags s1 Hingest Hpm25.
  assert (Hnone : forall v, is_none v = false <-> v <> PNone)
    by (intros []; simpl; split; congruence).
  split; [|split].
  - intros x Hpm10 Hx. apply (complete_after_fallback _ _ _ _ _ _ _ _ Hingest).
    unfold pm25_fallback. rewrite Hpm25. cbn [is_none].
    apply Hnone in Hpm10. rewrite Hpm10, Hx. reflexivity.
  - intros Hpm10 Hlat. apply (complete_after_fallback _ _ _ _ _ _ _ _ Hingest).
    unfold pm25_fallback. rewrite Hpm25, Hpm10. cbn [is_none negb].
    rewrite (geo_baseline_value lat 10 Hlat). reflexivity.
  - intros e Hpm10 He Hlat. apply (complete_after_fallback _ _ _ _ _ _ _ _ Hingest).
    unfold pm25_fallback. rewrite Hpm25. cbn [is_none].
    apply Hnone in Hpm10. rewrite Hpm10, He. cbn [negb].
    rewrite (geo_baseline_value lat 15 Hlat). reflexivity.
Qed.

End CompletionFacts.

(** A pseudo measurement of PM2.5 stamped 2025-10-01T00:00:00Z and read at
    2025-10-03T00:00:00Z, exactly 48.0 hours later: the flag is false. *)
Lemma pseudo_flag_false_at_48h :
  exists polls live_flags s',
    complete (B := plain_builtins) (P := scripted_platform) (F64.dec 25358 3)
      [measure (PStr (py "pm25")) (PFloat (F64.of_Z 10))
               (PStr (py "2025-10-01T00:00:00Z"))]
      (Some pseudo)
      (start {| responses := []; clock := 20364 * US_PER_DAY; draws := [] |})
    = (Ok (polls, live_flags), s')
    /\ polls_get (py "pm25") polls = PFloat (F64.of_Z 10)
    /\ flag_get (py "pm25") live_flags = false.
Proof.
  exact (pseudo_flag_false_at_any_age (B := plain_builtins) (P := scripted_platform)
           (F64.dec 25358 3) (F64.of_Z 10) (PStr (py "2025-10-01T00:00:00Z"))
           (start {| responses := []; clock := 20364 * US_PER_DAY; draws := [] |})).
Defined.


(** PM10 = 10.03 from a station and no PM2.5: the script ends with
    PM2.5 = [round(10.03 * 0.6, 1)]; with no measurement at all it ends
    with the baseline of the latitude. *)
Lemma pm25_fallback_rounded_witness :
  completes_with_pm25 (B := plain_builtins) (P := scripted_platform)
    (F64.dec 25358 3)
    [measure (PStr (py "pm10")) (PFloat (F64.dec 1003 2)) PNone] (Some latest)
    (start {| responses := []; clock := 0; draws := [] |})
    (F64.round_nd (F64.mul (F64.dec 1003 2) f0_6) 1)
  /\ completes_with_pm25 (B := plain_builtins) (P := scripted_platform)
       (F64.dec 25358 3) [] None
       (start {| responses := []; clock := 0; draws := [] |})
       (F64.round_nd
          (F64.add (F64.of_Z 5)
             (F64.mul (F64.abs (F64.div (F64.dec 25358 3) f12_0)) (F64.of_Z 10)))
          1).
Proof.
  split.
  - eassert (E : ingest (B := plain_builtins) (P := scripted_platform) iso_to_dt
                   (Some latest)
                   [measure (PStr (py "pm10")) (PFloat (F64.dec 1003 2)) PNone]
                   (polls_init, live_flags_init)
                   (start {| responses := []; clock := 0; draws := [] |})
                 = (Ok (_, _), _)) by (vm_compute; reflexivity).
    destruct (pm25_fallback_rounded (B := plain_builtins) (P := scripted_platform)
                (F64.dec 25358 3) _ _ _ _ _ _ E) as [Hpm10 _].
    + vm_compute. reflexivity.
    + apply (Hpm10 (F64.dec 1003 2)).
      * vm_compute. discriminate.
      * vm_compute. reflexivity.
  - eassert (E : ingest (B := plain_builtins) (P := scripted_platform) iso_to_dt
                   None [] (polls_init, live_flags_init)
                   (start {| responses := []; clock := 0; draws := [] |})
                 = (Ok (_, _), _)) by (vm_compute; reflexivity).
    destruct (pm25_fallback_rounded (B := plain_builtins) (P := scripted_platform)
                (F64.dec 25358 3) _ _ _ _ _ _ E) as [_ [Hgeo _]].
    + vm_compute. reflexivity.
    + apply Hgeo.
      * vm_compute. reflexivity.
      * vm_compute. reflexivity.
Defined.

(** C5 as stated fails: with PM10 = 10.03 and no PM2.5 the script ends with
    PM2.5 = 6.0, and [0.6 * 10.03] is 6.018. *)
Lemma pm25_is_not_the_plain_product :
  exists polls live_flags s',
    complete (B := plain_builtins) (P := scripted_platform) (F64.dec 25358 3)
      [measure (PStr (py "pm10")) (PFloat (F64.dec 1003 2)) PNone] (Some latest)
      (start {| responses := []; clock := 0; draws := [] |})
    = (Ok (polls, live_flags), s')
    /\ polls_get (py "pm25") polls = PFloat (F64.of_Z 6)
    /\ F64.mul f0_6 (F64.dec 1003 2) = F64.dec 6018 3
    /\ PFloat (F64.of_Z 6) <> PFloat (F64.mul f0_6 (F64.dec 1003 2)).
Proof.
  do 3 eexists. split; [vm_compute; reflexivity|].
  split; [vm_compute; reflexivity|].
  split; [vm_compute; reflexivity|].
  intros H. vm_compute in H. discriminate.
Qed.

(** ** The resolver *)

Section ResolverFacts.
Context {B : Builtins} {P : Platform}.

Lemma py_get_dict d k : py_get (PDict d) k = Ok (field k d).
Proof. reflexivity. Qed.

(** Reading an object never raises. *)
Lemma measurement_time_dict d : exists t, measurement_time (PDict d) = Ok t.
Proof.
  unfold measurement_time. rewrite !py_get_dict. cbn [rbind].
  destruct (field (py "date") d) as [| | | | | |dd]; cbn [is_dict rbind truthy];
    try (eexists; reflexivity).
  rewrite !py_get_dict. cbn [rbind].
  destruct (truthy (field (py "utc") dd)); cbn [rbind].
  - destruct (truthy (field (py "utc") dd)); eexists; reflexivity.
  - destruct (truthy (field (py "local") dd)); eexists; reflexivity.
Qed.

Lemma parse_latest_dict d : exists x, parse_latest (PDict d) = Ok x.
Proof.
  unfold parse_latest. rewrite !py_get_dict. cbn [rbind].
  destruct (measurement_time_dict d) as [t ->]. eexists. reflexivity.
Qed.

Lemma mapM_parse_latest ms :
  Forall (fun x => is_dict x = true) ms ->
  exists parsed, mapM parse_latest ms = Ok parsed.
Proof.
  induction 1 as [|m ms Hm _ [parsed IH]]; cbn [mapM].
  - eexists. reflexivity.
  - destruct m; try discriminate.
    destruct (parse_latest_dict d) as [x ->]. rewrite IH.
    eexists. reflexivity.
Qed.

Lemma first_with_measurements_skip r before rest :
  Forall without_measurements before ->
  first_with_measurements r (before ++ rest) = first_with_measurements r rest.
Proof.
  induction 1 as [|res before (rd & -> & Hfalse) _ IH].
  - reflexivity.
  - cbn [app first_with_measurements]. rewrite py_get_dict. cbn [rbind].
    rewrite Hfalse. exact IH.
Qed.

Lemma first_with_measurements_none r results :
  Forall without_measurements results ->
  first_with_measurements r results = Ok None.
Proof.
  intros H. rewrite <- (app_nil_r results).
  rewrite (first_with_measurements_skip r results [] H). reflexivity.
Qed.

(** A response without data makes the body of the first [try] end without
    a [return]: the loop goes on to the next radius. *)
Lemma latest_body_miss r resp :
  no_latest_data resp -> try_except (latest_body r resp) None = None.
Proof.
  intros [ |e|j Hj|d Hd|d results Hd Hres]; try reflexivity.
  - destruct j; try discriminate; reflexivity.
  - unfold latest_body. cbn [rbind py_get_default]. rewrite Hd. reflexivity.
  - unfold latest_body. cbn [rbind py_get_default]. rewrite Hd.
    destruct results as [|res results]; [reflexivity|].
    cbn [truthy py_iter rbind].
    rewrite (first_with_measurements_none r _ Hres). reflexivity.
Qed.

(** A response with data makes it return the first result that has
    measurements, with the radius, the normalised measurements and the
    mode ["latest"]. *)
Lemma latest_body_hit r resp res ms :
  latest_hit resp res ms ->
  exists parsed,
    mapM parse_latest ms = Ok parsed
    /\ latest_body r resp = Ok (Some (res, Some r, parsed, Some latest)).
Proof.
  intros [d before rd m ms' after Hd Hbefore Hms Hdicts].
  destruct (mapM_parse_latest _ Hdicts) as [parsed Hparsed].
  exists parsed. split; [exact Hparsed|].
  unfold latest_body. cbn [rbind py_get_default]. rewrite Hd.
  replace (truthy (PList (before ++ PDict rd :: after))) with true
    by (destruct before; reflexivity).
  cbn [py_iter rbind].
  rewrite (first_with_measurements_skip r before _ Hbefore).
  cbn [first_with_measurements]. rewrite py_get_dict. cbn [rbind].
  unfold field. rewrite Hms. cbn [truthy py_get_default].
  rewrite Hms. cbn [rbind py_iter]. rewrite Hparsed. reflexivity.
Qed.

Lemma measurements_body_miss r resp :
  no_measurements_data resp -> try_except (measurements_body r resp) None = None.
Proof.
  intros [ |e|j Hj|d Hd]; try reflexivity.
  - destruct j; try discriminate; reflexivity.
  - unfold measurements_body. cbn [rbind py_get_default]. rewrite Hd. reflexivity.
Qed.

(** The log grows by the request sent. *)
Lemma safe_get_json_log req s resp s' :
  safe_get_json req s = (resp, s') -> st_log s' = st_log s ++ [req].
Proof.
  unfold safe_get_json. destruct (http_get_json req (st_world s)) as [x w'].
  intros H. injection H as _ <-. reflexivity.
Qed.

Lemma lift_log {A} (op : world -> A * world) s a s' :
  lift op s = (a, s') -> st_log s' = st_log s.
Proof.
  unfold lift. destruct (op (st_world s)) as [x w'].
  intros H. injection H as _ <-. reflexivity.
Qed.

Lemma sent_refl s : sent s s [].
Proof. unfold sent. rewrite app_nil_r. reflexivity. Qed.

Lemma sent_trans s1 s2 s3 l1 l2 :
  sent s1 s2 l1 -> sent s2 s3 l2 -> sent s1 s3 (l1 ++ l2).
Proof. unfold sent. intros H1 H2. rewrite H2, H1, app_assoc. reflexivity. Qed.

Lemma sent_one req s resp s' :
  safe_get_json req s = (resp, s') -> sent s s' [(req_url req, req_radius req)].
Proof.
  intros H. unfold sent. rewrite (safe_get_json_log _ _ _ _ H), map_app. reflexivity.
Qed.

Lemma sent_lift {A} (op : world -> A * world) s a s' :
  lift op s = (a, s') -> sent s s' [].
Proof.
  intros H. unfold sent. rewrite (lift_log _ _ _ _ H), app_nil_r. reflexivity.
Qed.

Lemma latest_misses_sweep lat lon radii s s' :
  latest_misses lat lon radii s s' ->
  forall rest, sweep_latest lat lon (radii ++ rest) s = sweep_latest lat lon rest s'.
Proof.
  induction 1 as [s|r radii s resp s1 s' Hget Hmiss _ IH]; intros rest.
  - reflexivity.
  - cbn [app sweep_latest]. unfold bind at 1. rewrite Hget.
    rewrite (latest_body_miss r resp Hmiss). apply IH.
Qed.

Lemma latest_misses_sent lat lon radii s s' :
  latest_misses lat lon radii s s' ->
  sent s s' (map (fun r => (OPENAQ_LATEST, r)) radii).
Proof.
  induction 1 as [s|r radii s resp s1 s' Hget Hmiss _ IH].
  - apply sent_refl.
  - apply (sent_trans _ _ _ [_] _ (sent_one _ _ _ _ Hget) IH).
Qed.

Lemma measurements_misses_sweep lat lon radii s s' :
  measurements_misses lat lon radii s s' ->
  sweep_measurements lat lon radii s = (None, s').
Proof.
  induction 1 as [s|r radii s now s0 resp s1 s' Hnow Hget Hmiss _ IH].
  - reflexivity.
  - cbn [sweep_measurements]. unfold bind at 1. rewrite Hnow.
    unfold bind at 1. rewrite Hget.
    rewrite (measurements_body_miss r resp Hmiss). exact IH.
Qed.

Lemma measurements_misses_sent lat lon radii s s' :
  measurements_misses lat lon radii s s' ->
  sent s s' (map (fun r => (OPENAQ_MEASUREMENTS, r)) radii).
Proof.
  induction 1 as [s|r radii s now s0 resp s1 s' Hnow Hget Hmiss _ IH].
  - apply sent_refl.
  - apply (sent_trans _ _ _ [] _ (sent_lift _ _ _ _ Hnow)).
    apply (sent_trans _ _ _ [_] _ (sent_one _ _ _ _ Hget) IH).
Qed.

(** C4.  The radii are tried in order on the latest endpoint; requests
    that fail or carry no data are passed over; at the first radius whose
    response has a result with measurements the function returns that
    result, the radius, the normalised measurements and the mode
    ["latest"], having sent nothing to the measurements endpoint.  When
    neither endpoint has data at any radius, all radii are tried on the
    latest endpoint, then all on the measurements endpoint, and the empty
    result is returned. *)
Theorem fetch_openaq_adaptive_sweeps :
  (forall lat lon before r after s s1 resp s2 res ms,
      latest_misses lat lon before s s1 ->
      safe_get_json (latest_request lat lon r) s1 = (resp, s2) ->
      latest_hit resp res ms ->
      exists parsed,
        mapM parse_latest ms = Ok parsed
        /\ fetch_openaq_adaptive lat lon (before ++ r :: after) s
           = ((res, Some r, parsed, Some latest), s2)
        /\ sent s s2 (map (fun r => (OPENAQ_LATEST, r)) (before ++ [r])))
  /\ (forall lat lon radii s s1 s2,
         latest_misses lat lon radii s s1 ->
         measurements_misses lat lon radii s1 s2 ->
         fetch_openaq_adaptive lat lon radii s = (EMPTY_RESULT, s2)
         /\ sent s s2 (map (fun r => (OPENAQ_LATEST, r)) radii
                       ++ map (fun r => (OPENAQ_MEASUREMENTS, r)) radii)).
Proof.
  split.
  - intros lat lon before r after s s1 resp s2 res ms Hmiss Hget Hhit.
    destruct (latest_body_hit r resp res ms Hhit) as [parsed [Hparsed Hbody]].
    exists parsed. split; [exact Hparsed|]. split.
    + unfold fetch_openaq_adaptive, bind.
      rewrite (latest_misses_sweep _ _ _ _ _ Hmiss (r :: after)).
      cbn [sweep_latest]. unfold bind. rewrite Hget, Hbody. reflexivity.
    + rewrite map_app.
      apply (sent_trans _ _ _ _ _ (latest_misses_sent _ _ _ _ _ Hmiss)).
      apply (sent_one _ _ _ _ Hget).
  - intros lat lon radii s s1 s2 Hlatest Hmeas. split.
    + unfold fetch_openaq_adaptive, bind.
      rewrite <- (app_nil_r radii) at 1.
      rewrite (latest_misses_sweep _ _ _ _ _ Hlatest []).
      cbn [sweep_latest]. unfold ret.
      rewrite (measurements_misses_sweep _ _ _ _ _ Hmeas). reflexivity.
    + apply (sent_trans _ _ _ _ _ (latest_misses_sent _ _ _ _ _ Hlatest)).
      apply (measurements_misses_sent _ _ _ _ _ Hmeas).
Qed.

End ResolverFacts.

(** Sharjah with the default radii.  When the request at 5000 m fails and
    the one at 20000 m is answered by a station, the station is returned
    in mode ["latest"] after two requests to the latest endpoint; when
    the network is down, the ten requests are sent and the result is
    empty. *)
Lemma fetch_openaq_adaptive_sweeps_witness :
  (exists s2,
      fetch_openaq_adaptive (B := plain_builtins) (P := scripted_platform)
        (F64.dec 25358 3) (F64.dec 55478 3) DEFAULT_RADII (start second_try)
      = ((station, Some 20000, [station_reading], Some latest), s2)
      /\ sent (start second_try) s2 [(OPENAQ_LATEST, 5000); (OPENAQ_LATEST, 20000)])
  /\ (exists s2,
         fetch_openaq_adaptive (B := plain_builtins) (P := scripted_platform)
           (F64.dec 25358 3) (F64.dec 55478 3) DEFAULT_RADII (start offline)
         = (EMPTY_RESULT, s2)
         /\ sent (start offline) s2
              (map (fun r => (OPENAQ_LATEST, r)) DEFAULT_RADII
               ++ map (fun r => (OPENAQ_MEASUREMENTS, r)) DEFAULT_RADII)).
Proof.
  pose proof (fetch_openaq_adaptive_sweeps (B := plain_builtins) (P := scripted_platform))
    as [Hhit Hempty].
  split.
  - edestruct (Hhit (F64.dec 25358 3) (F64.dec 55478 3) [5000] 20000
                    [50000; 100000; 200000] (start second_try))
      as [parsed [Hparsed [Hrun Hsent]]].
    + eapply latest_misses_cons; [vm_compute; reflexivity | apply nld_failed |].
      apply latest_misses_nil.
    + vm_compute. reflexivity.
    + apply (latest_hit_intro
               [(py "results", PList [station])] []
               [(py "location", PStr (py "Sharjah"));
                (py "measurements", PList [station_reading])]
               station_reading [] []);
        [reflexivity | constructor | reflexivity | repeat constructor].
    + vm_compute in Hparsed. injection Hparsed as <-.
      eexists. split; [exact Hrun | exact Hsent].
  - eexists. eapply (Hempty (F64.dec 25358 3) (F64.dec 55478 3) DEFAULT_RADII
                           (start offline)).
    + repeat (eapply latest_misses_cons;
              [vm_compute; reflexivity | apply nld_failed |]).
      apply latest_misses_nil.
    + repeat (eapply measurements_misses_cons;
              [vm_compute; reflexivity | vm_compute; reflexivity
               | apply nmd_failed |]).
      apply measurements_misses_nil.
Defined.

(** The whole resolution on a record that is exactly 48.0 hours old: the
    resolver answers in mode ["pseudo"] after five requests to the latest
    endpoint and one to the measurements endpoint, PM2.5 is the recorded
    31.25 and its live flag is false. *)
Example pseudo_resolution_at_48h :
  snd (fst (fetch_openaq_adaptive (B := plain_builtins) (P := scripted_platform)
              (F64.dec 25358 3) (F64.dec 55478 3) DEFAULT_RADII (start history_only)))
  = Some pseudo
  /\ exists polls live_flags,
      fst (script_resolution (B := plain_builtins) (P := scripted_platform)
             (F64.dec 25358 3) (F64.dec 55478 3) true (start history_only))
      = Ok (polls, live_flags)
      /\ polls_get (py "pm25") polls = PFloat (F64.dec 3125 2)
      /\ flag_get (py "pm25") live_flags = false.
Proof.
  split; [vm_compute; reflexivity|].
  do 2 eexists. split; [vm_compute; reflexivity|].
  split; vm_compute; reflexivity.
Qed.

(* ===================================================================== *)
(** * Further properties of the script                                    *)
(* ===================================================================== *)

(** ** Severity classes *)

Section SeverityFacts.
Context {B : Builtins}.

Lemma leb_above c lo x :
  F64.ltb c lo = true -> F64.leb lo x = true -> F64.leb x c = false.
Proof.
  intros Hc Hlo. apply F64Facts.ltb_not_leb.
  exact (F64Facts.ltb_leb_trans _ _ _ Hc Hlo).
Qed.

Lemma leb_below c hi x :
  F64.leb hi c = true -> F64.leb x hi = true -> F64.leb x c = true.
Proof. intros Hc Hhi. exact (F64Facts.leb_trans _ _ _ Hhi Hc). Qed.

Lemma leb_above_strict c lo x :
  F64.leb c lo = true -> F64.ltb lo x = true -> F64.leb x c = false.
Proof.
  intros Hc Hlo. apply F64Facts.ltb_not_leb.
  exact (F64Facts.leb_ltb_trans _ _ _ Hc Hlo).
Qed.

Lemma leb_below_strict c hi x :
  F64.leb hi c = true -> F64.ltb x hi = true -> F64.leb x c = true.
Proof.
  intros Hc Hhi. apply F64Facts.ltb_leb.
  exact (F64Facts.ltb_leb_trans _ _ _ Hhi Hc).
Qed.

Lemma some_pair_inj {A C} (a a' : A) (c c' : C) :
  Some (a, c) = Some (a', c') -> a' = a /\ c' = c.
Proof. intros H. split; congruence. Qed.

(** Settles every test [x <= c] of the goal from [lo <= x <= hi]. *)
Ltac threshold Hlo Hhi :=
  match type of Hlo with F64.leb ?lo ?x = true =>
  match type of Hhi with F64.leb _ ?hi = true =>
  repeat match goal with
  | |- context [F64.leb x ?c] =>
      let b := eval vm_compute in (F64.leb hi c) in
      match b with
      | true => rewrite (leb_below c hi x ltac:(vm_compute; reflexivity) Hhi)
      | false => rewrite (leb_above c lo x ltac:(vm_compute; reflexivity) Hlo)
      end
  end end end.

(** The same from [lo < x < hi]. *)
Ltac threshold_strict Hlo Hhi :=
  match type of Hlo with F64.ltb ?lo ?x = true =>
  match type of Hhi with F64.ltb _ ?hi = true =>
  repeat match goal with
  | |- context [F64.leb x ?c] =>
      let b := eval vm_compute in (F64.leb hi c) in
      match b with
      | true =>
          rewrite (leb_below_strict c hi x ltac:(vm_compute; reflexivity) Hhi)
      | false =>
          rewrite (leb_above_strict c lo x ltac:(vm_compute; reflexivity) Hlo)
      end
  end end end.

(** X1.  [severity_idx_pm25] is monotone: of two concentrations the
    higher one never gets the lower class, and every class lies between
    0 and 4. *)
Theorem severity_idx_pm25_monotone :
  forall x y,
    F64.leb x y = true ->
    exists a b,
      severity_idx_pm25 (PFloat x) = Ok a
      /\ severity_idx_pm25 (PFloat y) = Ok b
      /\ 0 <= a <= b /\ b <= 4.
Proof.
  intros x y Hxy. unfold severity_idx_pm25. cbn [py_float rbind].
  do 2 eexists. split; [reflexivity|]. split; [reflexivity|].
  repeat match goal with
  | |- context [F64.leb y ?c] =>
      let E := fresh "E" in
      destruct (F64.leb y c) eqn:E;
      [ rewrite ?(F64Facts.leb_trans x y c Hxy E) | ]
  end;
  repeat match goal with
  | |- context [F64.leb x ?c] => destruct (F64.leb x c)
  end; lia.
Qed.

(** X2.  The severity class follows the EPA table: a concentration in
    the band number [i] of [EPA_BP] (counted from 0) has the class [i],
    and the class 4 in the last three bands. *)
Theorem severity_idx_pm25_follows_bands :
  forall i band x,
    nth_error EPA_BP i = Some band ->
    in_band band x = true ->
    severity_idx_pm25 (PFloat x) = Ok (Z.min (Z.of_nat i) 4).
Proof.
  intros i band x Hnth Hin.
  unfold severity_idx_pm25. cbn [py_float rbind]. f_equal.
  do 7 (destruct i as [|i];
        [ injection Hnth as <-; cbn [in_band] in Hin;
          apply andb_prop in Hin; destruct Hin as [Hlo Hhi];
          threshold Hlo Hhi; reflexivity
        | ]).
  destruct i; discriminate.
Qed.

(** X3.  A concentration strictly inside the gap number [i] of the EPA
    table gets the index 500 from [aqi_now], and for the index it gets
    the banner reads UNHEALTHY and the category Very Unhealthy,
    while the severity used for the advice is the class of the band
    after the gap. *)
Theorem gap_value_index_and_severity :
  forall i lo hi x,
    nth_error (band_gaps EPA_BP) i = Some (lo, hi) ->
    F64.ltb lo x = true -> F64.ltb x hi = true ->
    aqi_now (PFloat x) = Ok 500
    /\ (forall aqi,
           aqi_now (PFloat x) = Ok aqi ->
           snd (render_banner_style aqi) = py "UNHEALTHY"
           /\ aqi_category aqi = py "Very Unhealthy")
    /\ severity_idx_pm25 (PFloat x) = Ok (Z.min (Z.of_nat (S i)) 4).
Proof.
  intros i lo hi x Hnth Hlo Hhi.
  assert (Hall : Forall (fun band => in_band band x = false) EPA_BP).
  { apply (between_bands lo hi x Hlo Hhi).
    pose proof gaps_between_bands as Hgaps.
    rewrite forallb_forall in Hgaps.
    exact (Hgaps (lo, hi) (nth_error_In _ _ Hnth)). }
  assert (Hnow : aqi_now (PFloat x) = Ok 500).
  { unfold aqi_now.
    rewrite (pm25_to_aqi_fall_through (PFloat x) x eq_refl Hall).
    reflexivity. }
  split; [exact Hnow|]. split.
  { intros aqi Haqi. rewrite Hnow in Haqi. injection Haqi as <-.
    split; reflexivity. }
  unfold severity_idx_pm25. cbn [py_float rbind]. f_equal.
  rewrite band_gaps_EPA_BP in Hnth.
  do 6 (destruct i as [|i];
        [ destruct (some_pair_inj _ _ _ _ Hnth) as [-> ->];
          threshold_strict Hlo Hhi; reflexivity
        | ]).
  destruct i; discriminate.
Qed.

(** X4.  [aqi_now] never takes the estimate [int(min(500, 4 * pm25))]:
    on a value [float] converts it is the result of the table, and on
    any other value it is 0, because the estimate calls [float] on the
    same value and raises whenever [pm25_to_aqi] returned [None]. *)
Theorem aqi_now_estimate_never_used :
  forall v,
    (forall x, py_float v = Ok x -> aqi_now v = aqi_bands EPA_BP x)
    /\ (forall e, py_float v = Raise e ->
        aqi_now v = Ok 0 /\ aqi_estimate v = Raise e)
    /\ (pm25_to_aqi v = Ok None -> exists e, aqi_estimate v = Raise e).
Proof.
  intros v. unfold aqi_now, aqi_estimate, pm25_to_aqi.
  destruct (py_float v) as [x|e]; cbn [rbind try_except].
  - split; [|split].
    + intros y Hy. injection Hy as <-.
      destruct (aqi_bands EPA_BP x); reflexivity.
    + intros e He. discriminate.
    + destruct (aqi_bands EPA_BP x); discriminate.
  - split; [|split].
    + intros y Hy. discriminate.
    + intros e' He. injection He as <-. split; reflexivity.
    + intros _. exists e. reflexivity.
Qed.

End SeverityFacts.

(** 10.0 and 40.0 are in the classes 0 and 2. *)
Lemma severity_idx_pm25_monotone_witness :
  exists a b,
    severity_idx_pm25 (B := plain_builtins) (PFloat (F64.of_Z 10)) = Ok a
    /\ severity_idx_pm25 (B := plain_builtins) (PFloat (F64.of_Z 40)) = Ok b
    /\ 0 <= a <= b /\ b <= 4.
Proof.
  apply (severity_idx_pm25_monotone (B := plain_builtins)).
  vm_compute. reflexivity.
Defined.

(** 20.0 lies in the second band. *)
Lemma severity_idx_pm25_follows_bands_witness :
  severity_idx_pm25 (B := plain_builtins) (PFloat (F64.of_Z 20))
  = Ok (Z.min (Z.of_nat 1) 4).
Proof.
  apply (severity_idx_pm25_follows_bands
           (B := plain_builtins) 1
           (F64.dec 121 1, F64.dec 354 1, 51, 100) (F64.of_Z 20)).
  - reflexivity.
  - vm_compute. reflexivity.
Defined.

(** 12.05 lies in the first gap. *)
Lemma gap_value_index_and_severity_witness :
  aqi_now (B := plain_builtins) (PFloat (F64.dec 1205 2)) = Ok 500
  /\ (forall aqi,
         aqi_now (B := plain_builtins) (PFloat (F64.dec 1205 2)) = Ok aqi ->
         snd (render_banner_style aqi) = py "UNHEALTHY"
         /\ aqi_category aqi = py "Very Unhealthy")
  /\ severity_idx_pm25 (B := plain_builtins) (PFloat (F64.dec 1205 2))
     = Ok (Z.min (Z.of_nat 1) 4).
Proof.
  apply (gap_value_index_and_severity
           (B := plain_builtins) 0 (F64.dec 120 1) (F64.dec 121 1)).
  - reflexivity.
  - vm_compute. reflexivity.
  - vm_compute. reflexivity.
Defined.

(** ** Banner, colour and category *)

(** X5.  The colour of the index card is the colour of the banner, and
    the category line names the same four ranges of the index as the
    banner with other words: its [Unhealthy] is the banner's UNHEALTHY
    FOR SENSITIVE GROUPS, and its [Very Unhealthy] the banner's
    UNHEALTHY. *)
Theorem banner_and_category_thresholds :
  forall aqi,
    aqi_color aqi = fst (render_banner_style aqi)
    /\ (aqi_category aqi = py "Good"
        <-> snd (render_banner_style aqi) = py "GOOD")
    /\ (aqi_category aqi = py "Moderate"
        <-> snd (render_banner_style aqi) = py "MODERATE")
    /\ (aqi_category aqi = py "Unhealthy"
        <-> snd (render_banner_style aqi) = py "UNHEALTHY FOR SENSITIVE GROUPS")
    /\ (aqi_category aqi = py "Very Unhealthy"
        <-> snd (render_banner_style aqi) = py "UNHEALTHY").
Proof.
  intros aqi. unfold aqi_color, render_banner_style, aqi_category.
  destruct (Z.leb_spec 150 aqi), (Z.leb_spec 100 aqi), (Z.leb_spec 50 aqi),
           (Z.ltb_spec aqi 50), (Z.ltb_spec aqi 100), (Z.ltb_spec aqi 150);
    try lia;
    (split; [reflexivity|]);
    repeat split; intros Heq; try reflexivity; discriminate Heq.
Qed.

(** ** Worst pollutant and advice *)

(** The entry [max] returns splits the items: smaller entries before it,
    none larger after it. *)
Lemma max_by_sev_first_maximum rest : forall best,
  exists before after,
    best :: rest = before ++ max_by_sev best rest :: after
    /\ Forall (fun e => snd e < snd (max_by_sev best rest)) before
    /\ Forall (fun e => snd e <= snd (max_by_sev best rest)) after.
Proof.
  induction rest as [|e rest IH]; intros best; cbn [max_by_sev].
  - exists [], []. repeat split; constructor.
  - destruct (Z.ltb_spec (snd best) (snd e)) as [Hlt|Hge].
    + destruct (IH e) as (before & after & Heq & Hb & Ha).
      exists (best :: before), after. split; [|split].
      * cbn [app]. rewrite Heq. reflexivity.
      * constructor; [|exact Hb].
        destruct before as [|e0 before]; cbn [app] in Heq.
        -- injection Heq as He _. rewrite <- He. exact Hlt.
        -- injection Heq as He _. subst e0.
           apply Forall_inv in Hb. cbn beta in Hb. lia.
      * exact Ha.
    + destruct (IH best) as (before & after & Heq & Hb & Ha).
      destruct before as [|e0 before]; cbn [app] in Heq.
      * injection Heq as He Hr.
        exists [], (e :: after). split; [|split].
        -- cbn [app]. rewrite <- He, <- Hr. reflexivity.
        -- constructor.
        -- constructor; [|exact Ha]. rewrite <- He. exact Hge.
      * injection Heq as He Hr. subst e0.
        exists (best :: e :: before), after. split; [|split].
        -- cbn [app]. do 2 f_equal. exact Hr.
        -- pose proof (Forall_inv Hb) as Hbest. cbn beta in Hbest.
           constructor; [exact Hbest|].
           constructor; [lia|]. exact (Forall_inv_tail Hb).
        -- exact Ha.
Qed.

(** X6.  [worst_poll] is the first key of [sev] with the highest
    severity: every entry before it is strictly lower, none after it is
    higher.  On a tie the key that comes first in [polls] wins. *)
Theorem worst_poll_first_maximum :
  forall sev,
    sev <> [] ->
    exists before worst severity after,
      worst_poll sev = Some worst
      /\ sev = before ++ (worst, severity) :: after
      /\ Forall (fun e => snd e < severity) before
      /\ Forall (fun e => snd e <= severity) after.
Proof.
  intros [|e rest] Hne; [congruence|].
  destruct (max_by_sev_first_maximum rest e) as (before & after & Heq & Hb & Ha).
  exists before, (fst (max_by_sev e rest)), (snd (max_by_sev e rest)), after.
  rewrite <- surjective_pairing. auto.
Qed.

(** Of PM2.5 at 1 and PM10 and NO2 at 3, PM10 is the worst. *)
Lemma worst_poll_first_maximum_witness :
  exists before worst severity after,
    worst_poll [(py "pm25", 1); (py "pm10", 3); (py "no2", 3)] = Some worst
    /\ [(py "pm25", 1); (py "pm10", 3); (py "no2", 3)]
       = before ++ (worst, severity) :: after
    /\ Forall (fun e => snd e < severity) before
    /\ Forall (fun e => snd e <= severity) after.
Proof. apply worst_poll_first_maximum. discriminate. Defined.

Section AssocFacts.
Context {V : Type}.
Implicit Types (d : list (pystr * V)) (k : pystr) (v : V).

Lemma dict_set_new_key k v d :
  dict_in k d = false -> map fst (dict_set k v d) = map fst d ++ [k].
Proof.
  unfold dict_in. induction d as [|[k' v'] d IH]; simpl.
  - reflexivity.
  - destruct (pystr_eqb k k') eqn:E; simpl.
    + discriminate.
    + intros H. rewrite (IH H). reflexivity.
Qed.

Lemma dict_set_Forall (Q : pystr * V -> Prop) k v d :
  Forall Q d -> Q (k, v) -> Forall Q (dict_set k v d).
Proof.
  intros Hd Hkv. induction Hd as [|[k' v'] d Hq Hd IH]; simpl.
  - repeat constructor. exact Hkv.
  - destruct (pystr_eqb k k') eqn:E.
    + apply pystr_eqb_eq in E. subst k'. constructor; assumption.
    + constructor; assumption.
Qed.

Lemma dict_set_NoDup k v d :
  NoDup (map fst d) -> NoDup (map fst (dict_set k v d)).
Proof.
  intros Hd. destruct (dict_in k d) eqn:E.
  - rewrite (dict_set_keys k v d E). exact Hd.
  - rewrite (dict_set_new_key k v d E).
    apply NoDup_app; [exact Hd | repeat constructor; intros [] | ].
    intros a Ha [<-|[]].
    apply dict_in_keys in Ha. congruence.
Qed.

Lemma dict_set_key_in k0 k v d :
  In k0 (map fst (dict_set k v d)) -> k0 = k \/ In k0 (map fst d).
Proof.
  destruct (dict_in k d) eqn:E.
  - rewrite (dict_set_keys k v d E). auto.
  - rewrite (dict_set_new_key k v d E), in_app_iff.
    intros [H|[H|[]]]; auto.
Qed.

Lemma assoc_In k v d : assoc k d = Some v -> In (k, v) d.
Proof.
  induction d as [|[k' v'] d IH]; simpl; [discriminate|].
  destruct (pystr_eqb k k') eqn:E.
  - apply pystr_eqb_eq in E. subst k'. intros H. injection H as ->. auto.
  - auto.
Qed.

Lemma In_assoc k v d : NoDup (map fst d) -> In (k, v) d -> assoc k d = Some v.
Proof.
  induction d as [|[k' v'] d IH]; simpl; [contradiction|].
  intros Hnd [Heq|Hin].
  - injection Heq as -> ->. rewrite pystr_eqb_refl. reflexivity.
  - destruct (pystr_eqb k k') eqn:E.
    + apply pystr_eqb_eq in E. subst k'.
      apply NoDup_cons_iff in Hnd. destruct Hnd as [Hnot _].
      exfalso. apply Hnot. apply (in_map fst) in Hin. exact Hin.
    + apply IH; [|exact Hin]. exact (proj2 (proj1 (NoDup_cons_iff _ _) Hnd)).
Qed.

End AssocFacts.

Lemma py_index_in_range {A} (l : list A) (i : Z) :
  0 <= i < Z.of_nat (List.length l) ->
  exists x, py_index l i = Some x /\ In x l.
Proof.
  intros [Hlo Hhi]. unfold py_index.
  destruct (Z.leb_spec 0 i) as [_|]; [|lia].
  destruct (nth_error l (Z.to_nat i)) as [x|] eqn:E.
  - exists x. split; [reflexivity|]. exact (nth_error_In _ _ E).
  - apply nth_error_None in E. lia.
Qed.

Lemma ADVICE_entries_nonempty k entries :
  assoc k ADVICE = Some entries -> entries <> [].
Proof.
  intros H. apply assoc_In in H.
  assert (Hall : Forall (fun kv => snd kv <> []) ADVICE)
    by (repeat constructor; discriminate).
  rewrite Forall_forall in Hall. exact (Hall _ H).
Qed.

Section AdviceFacts.
Context {B : Builtins}.

Lemma sev_entry_range k v : 0 <= sev_entry k v <= 4.
Proof.
  unfold sev_entry, severity_idx_pm25, severity_other.
  destruct (pystr_eqb k (py "pm25")), (py_float v) as [x|e];
    cbn [rbind try_except]; try lia;
    repeat match goal with
    | |- context [F64.leb x ?c] => destruct (F64.leb x c)
    | |- context [F64.ltb x ?c] => destruct (F64.ltb x c)
    end; lia.
Qed.

Lemma sev_loop_ok keys polls : forall sev,
  sev_ok keys sev ->
  (forall k, In k (map fst polls) -> In k keys) ->
  sev_ok keys
    (fold_left
       (fun sev kv => dict_set (fst kv) (sev_entry (fst kv) (snd kv)) sev)
       polls sev).
Proof.
  induction polls as [|[k v] polls IH]; intros sev Hok Hkeys; cbn [fold_left].
  - exact Hok.
  - apply IH.
    + destruct Hok as (Hnd & Hall & Hin). cbn [fst snd]. split; [|split].
      * apply dict_set_NoDup. exact Hnd.
      * apply dict_set_Forall; [exact Hall|]. apply sev_entry_range.
      * intros k0 Hk0. apply dict_set_key_in in Hk0.
        destruct Hk0 as [->|Hk0]; [|auto].
        apply Hkeys. left. reflexivity.
    + intros k0 Hk0. apply Hkeys. right. exact Hk0.
Qed.

Lemma sev_of_ok polls : sev_ok (map fst polls) (sev_of polls).
Proof.
  apply sev_loop_ok; [|auto].
  split; [constructor | split; [constructor | intros k []]].
Qed.

Lemma fold_dict_set_nonempty polls : forall sev,
  sev <> [] ->
  fold_left
    (fun sev kv => dict_set (fst kv) (sev_entry (fst kv) (snd kv)) sev)
    polls sev <> [].
Proof.
  induction polls as [|[k v] polls IH]; intros sev Hne; cbn [fold_left].
  - exact Hne.
  - apply IH. destruct sev as [|[k' v'] sev]; cbn [dict_set fst snd].
    + discriminate.
    + destruct (pystr_eqb k k'); discriminate.
Qed.

Lemma sev_of_nonempty polls : polls <> [] -> sev_of polls <> [].
Proof.
  destruct polls as [|[k v] polls]; [congruence|]. intros _.
  unfold sev_of. cbn [fold_left].
  apply fold_dict_set_nonempty. discriminate.
Qed.

(** X7.  For every non-empty [polls] the advice lookup succeeds, with
    neither a [KeyError] nor an [IndexError]: the worst pollutant is a
    key of [polls], and the text is one of the entries [ADVICE] has for
    it, or, for a key [ADVICE] does not have, the default text. *)
Theorem advice_lookup_never_fails :
  forall polls,
    polls <> [] ->
    exists worst text,
      script_advice polls = Some (worst, text)
      /\ In worst (map fst polls)
      /\ match assoc worst ADVICE with
         | Some entries => In text entries
         | None => text = py "No advice available"
         end.
Proof.
  intros polls Hne. unfold script_advice.
  destruct (sev_of_ok polls) as (Hnd & Hall & Hkeys).
  destruct (sev_of polls) as [|e rest] eqn:Esev.
  { exfalso. exact (sev_of_nonempty polls Hne Esev). }
  cbn [worst_poll].
  destruct (max_by_sev_first_maximum rest e) as (before & after & Heq & _ & _).
  set (best := max_by_sev e rest) in *.
  assert (Hin : In best (e :: rest)).
  { rewrite Heq. apply in_or_app. right. left. reflexivity. }
  exists (fst best).
  assert (Hassoc : assoc (fst best) (e :: rest) = Some (snd best)).
  { apply In_assoc; [exact Hnd|]. rewrite <- surjective_pairing. exact Hin. }
  assert (Hrange : 0 <= snd best <= 4).
  { rewrite Forall_forall in Hall. exact (Hall _ Hin). }
  assert (Hkey : In (fst best) (map fst polls)).
  { apply Hkeys. apply in_map. exact Hin. }
  unfold advice_text. rewrite Hassoc.
  destruct (assoc (fst best) ADVICE) as [entries|] eqn:Eadv.
  - pose proof (ADVICE_entries_nonempty _ _ Eadv) as Hnonempty.
    destruct (py_index_in_range entries
                (Z.min (snd best) (Z.of_nat (List.length entries) - 1)))
      as (text & Htext & Hmem).
    { destruct entries; [congruence|]. cbn [List.length]. lia. }
    rewrite Htext. exists text. auto.
  - exists (py "No advice available"). split; [|auto].
    replace (Z.min (snd best) (Z.of_nat (List.length (@nil pystr)) - 1))
      with (-1) by (cbn [List.length]; lia).
    reflexivity.
Qed.

End AdviceFacts.

(** PM2.5 at 40.0 and NO2 at 120.0. *)
Lemma advice_lookup_never_fails_witness :
  exists worst text,
    script_advice (B := plain_builtins)
      [(py "pm25", PFloat (F64.of_Z 40)); (py "no2", PFloat (F64.of_Z 120))]
    = Some (worst, text)
    /\ In worst (map fst [(py "pm25", PFloat (F64.of_Z 40));
                          (py "no2", PFloat (F64.of_Z 120))])
    /\ match assoc worst ADVICE with
       | Some entries => In text entries
       | None => text = py "No advice available"
       end.
Proof.
  apply (advice_lookup_never_fails (B := plain_builtins)). discriminate.
Defined.

(** ** What the resolver returns and asks, for every network *)

Section ResolverShape.
Context {B : Builtins} {P : Platform}.

Lemma mapM_Forall2 {A C} (f : A -> result C) l : forall l',
  mapM f l = Ok l' -> Forall2 (fun a c => f a = Ok c) l l'.
Proof.
  induction l as [|a l IH]; intros l'; cbn [mapM].
  - intros H. injection H as <-. constructor.
  - unfold rbind. destruct (f a) as [c|e] eqn:Ea; [|discriminate].
    destruct (mapM f l) as [cs|e]; [|discriminate].
    intros H. injection H as <-. constructor; [exact Ea | apply IH; reflexivity].
Qed.

Lemma parse_latest_measure m x : parse_latest m = Ok x -> is_measure x.
Proof.
  unfold parse_latest, rbind.
  destruct (py_get m (py "parameter")) as [p|e]; [|discriminate].
  destruct (py_get m (py "value")) as [v|e]; [|discriminate].
  destruct (measurement_time m) as [dt|e]; [|discriminate].
  intros H. injection H as <-. exists p, v, dt. reflexivity.
Qed.

Lemma parse_pseudo_measure ts entry x :
  parse_pseudo ts entry = Ok x -> is_mean_measure x.
Proof.
  unfold parse_pseudo, rbind. destruct entry as [p arr].
  destruct (np_mean arr) as [avg|e]; [|discriminate].
  intros H. injection H as <-. do 3 eexists. reflexivity.
Qed.

Lemma mapM_all {A C} (f : A -> result C) (Q : C -> Prop) l l' :
  (forall a c, f a = Ok c -> Q c) -> mapM f l = Ok l' -> Forall Q l'.
Proof.
  intros Hf H. apply mapM_Forall2 in H.
  induction H; constructor; eauto.
Qed.

Lemma mapM_length {A C} (f : A -> result C) l l' :
  mapM f l = Ok l' -> List.length l' = List.length l.
Proof.
  intros H. apply mapM_Forall2 in H. symmetry. exact (Forall2_length H).
Qed.

Lemma py_iter_truthy v items : truthy v = true -> py_iter v = Ok items -> items <> [].
Proof.
  destruct v as [| | | |s|l|d]; cbn [py_iter]; try discriminate.
  - destruct s; [discriminate|]. intros _ H. injection H as <-. discriminate.
  - destruct l; [discriminate|]. intros _ H. injection H as <-. discriminate.
  - destruct d; [discriminate|]. intros _ H. injection H as <-. discriminate.
Qed.

(** What the first [try] returns: the mode ["latest"], the radius of the
    request, a station object and its normalised measurements. *)
Lemma first_with_measurements_out r results out :
  first_with_measurements r results = Ok (Some out) ->
  well_shaped out /\ snd (fst (fst out)) = Some r /\ snd out = Some latest.
Proof.
  induction results as [|res results IH]; cbn [first_with_measurements].
  - discriminate.
  - unfold rbind.
    destruct (py_get res (py "measurements")) as [g|e] eqn:Eg; [|discriminate].
    destruct (truthy g) eqn:Etruthy; [|exact IH].
    destruct res as [| | | | | |rd]; try discriminate.
    cbn [py_get py_get_default] in Eg |- *. injection Eg as Eg.
    destruct (assoc (py "measurements") rd) as [ms|]; [|subst g; discriminate].
    subst g.
    destruct (py_iter ms) as [items|e] eqn:Eitems; [|discriminate].
    destruct (mapM parse_latest items) as [parsed|e] eqn:Eparsed; [|discriminate].
    intros H. injection H as <-. cbn [well_shaped fst snd].
    repeat split; try discriminate.
    + pose proof (py_iter_truthy _ _ Etruthy Eitems) as Hne.
      pose proof (mapM_length _ _ _ Eparsed) as Hlen.
      destruct parsed; [|discriminate].
      destruct items; [congruence|discriminate].
    + exact (mapM_all _ _ _ _ parse_latest_measure Eparsed).
Qed.

Lemma latest_body_out r resp out :
  latest_body r resp = Ok (Some out) ->
  well_shaped out /\ snd (fst (fst out)) = Some r /\ snd out = Some latest.
Proof.
  unfold latest_body, rbind. destruct resp as [[j|e]|]; try discriminate.
  destruct (py_get_default j (py "results") (PList [])) as [results|e];
    [|discriminate].
  destruct (truthy results); [|discriminate].
  destruct (py_iter results) as [items|e]; [|discriminate].
  apply first_with_measurements_out.
Qed.

Lemma measurements_body_out r resp out :
  measurements_body r resp = Ok (Some out) ->
  well_shaped out /\ snd (fst (fst out)) = Some r /\ snd out = Some pseudo.
Proof.
  unfold measurements_body, rbind. destruct resp as [[j|e]|]; try discriminate.
  destruct (py_get_default j (py "results") (PList [])) as [meas|e];
    [|discriminate].
  destruct (truthy meas); [|discriminate].
  destruct (py_iter meas) as [items|e]; [|discriminate].
  destruct (foldM group_step items []) as [[|e0 rest]|e]; try discriminate.
  destruct (max_by_len e0 rest) as [best_loc [best_ms coords]].
  destruct (foldM collect_step best_ms ([], [])) as [[params_seen latest_ts]|e];
    [|discriminate].
  destruct (mapM (parse_pseudo latest_ts) params_seen) as [parsed|e] eqn:Eparsed;
    [|discriminate].
  intros H. injection H as <-. cbn [well_shaped fst snd].
  repeat split; try discriminate.
  - do 2 eexists. reflexivity.
  - exact (mapM_all _ _ _ _ (parse_pseudo_measure latest_ts) Eparsed).
Qed.

Lemma try_except_some {A} (c : result (option A)) (a : A) :
  try_except c None = Some a -> c = Ok (Some a).
Proof. destruct c as [[x|]|e]; cbn; congruence. Qed.

(** The first sweep stops at the first radius with data. *)
Lemma sweep_latest_spec lat lon radii : forall s,
  match sweep_latest lat lon radii s with
  | (Some out, s') =>
      exists n, (n < List.length radii)%nat
                /\ snd (fst (fst out)) = nth_error radii n
                /\ snd out = Some latest
                /\ well_shaped out
                /\ sent s s' (sweep_requests OPENAQ_LATEST (S n) radii)
  | (None, s') =>
      sent s s' (sweep_requests OPENAQ_LATEST (List.length radii) radii)
  end.
Proof.
  unfold sweep_requests.
  induction radii as [|r radii IH]; intros s; cbn [sweep_latest].
  - apply sent_refl.
  - unfold bind at 1.
    destruct (safe_get_json (latest_request lat lon r) s) as [resp s1] eqn:Eget.
    pose proof (sent_one _ _ _ _ Eget) as Hone. cbn [req_url req_radius latest_request] in Hone.
    destruct (try_except (latest_body r resp) None) as [out|] eqn:Ebody.
    + apply try_except_some in Ebody.
      destruct (latest_body_out _ _ _ Ebody) as (Hshape & Hr & Hmode).
      unfold ret. exists 0%nat. cbn [List.length nth_error firstn map].
      repeat split; try assumption. lia.
    + specialize (IH s1).
      destruct (sweep_latest lat lon radii s1) as [[out|] s'].
      * destruct IH as (n & Hn & Hr & Hmode & Hshape & Hsent).
        exists (S n). cbn [List.length nth_error].
        repeat split; try assumption; [lia|].
        exact (sent_trans _ _ _ [_] _ Hone Hsent).
      * cbn [List.length firstn map].
        exact (sent_trans _ _ _ [_] _ Hone IH).
Qed.

Lemma sweep_measurements_spec lat lon radii : forall s,
  match sweep_measurements lat lon radii s with
  | (Some out, s') =>
      exists n, (n < List.length radii)%nat
                /\ snd (fst (fst out)) = nth_error radii n
                /\ snd out = Some pseudo
                /\ well_shaped out
                /\ sent s s' (sweep_requests OPENAQ_MEASUREMENTS (S n) radii)
  | (None, s') =>
      sent s s' (sweep_requests OPENAQ_MEASUREMENTS (List.length radii) radii)
  end.
Proof.
  unfold sweep_requests.
  induction radii as [|r radii IH]; intros s; cbn [sweep_measurements].
  - apply sent_refl.
  - unfold bind at 1.
    destruct (lift utcnow s) as [now s0] eqn:Enow.
    unfold bind at 1.
    destruct (safe_get_json (measurements_request lat lon r 30 now) s0)
      as [resp s1] eqn:Eget.
    pose proof (sent_trans _ _ _ _ _ (sent_lift _ _ _ _ Enow)
                           (sent_one _ _ _ _ Eget)) as Hone.
    cbn [req_url req_radius measurements_request app] in Hone.
    destruct (try_except (measurements_body r resp) None) as [out|] eqn:Ebody.
    + apply try_except_some in Ebody.
      destruct (measurements_body_out _ _ _ Ebody) as (Hshape & Hr & Hmode).
      unfold ret. exists 0%nat. cbn [List.length nth_error firstn map].
      repeat split; try assumption. lia.
    + specialize (IH s1).
      destruct (sweep_measurements lat lon radii s1) as [[out|] s'].
      * destruct IH as (n & Hn & Hr & Hmode & Hshape & Hsent).
        exists (S n). cbn [List.length nth_error].
        repeat split; try assumption; [lia|].
        exact (sent_trans _ _ _ [_] _ Hone Hsent).
      * cbn [List.length firstn map].
        exact (sent_trans _ _ _ [_] _ Hone IH).
Qed.

(** X8.  Whatever the network answers, the resolver returns one of
    three shapes: in the mode ["latest"] a station object with a
    non-empty list of normalised measurements; in the mode ["pseudo"] a
    synthetic object with the keys location, coordinates and
    measurements, whose measurements are the returned list and carry
    floats; or the empty result.  Every returned measure has exactly the
    keys parameter, value and lastUpdated. *)
Theorem fetch_openaq_adaptive_well_shaped :
  forall lat lon radii s,
    well_shaped (fst (fetch_openaq_adaptive lat lon radii s)).
Proof.
  intros lat lon radii s. unfold fetch_openaq_adaptive, bind, ret.
  pose proof (sweep_latest_spec lat lon radii s) as H1.
  destruct (sweep_latest lat lon radii s) as [[out|] s1].
  - destruct H1 as (n & _ & _ & _ & Hshape & _). exact Hshape.
  - pose proof (sweep_measurements_spec lat lon radii s1) as H2.
    destruct (sweep_measurements lat lon radii s1) as [[out|] s2].
    + destruct H2 as (n & _ & _ & _ & Hshape & _). exact Hshape.
    + reflexivity.
Qed.

(** X9.  Whatever the network answers, the requests of one call are a
    prefix of the full sweep: the latest endpoint for the first [n]
    radii in order, then the measurements endpoint for the first [m]
    radii, where the measurements endpoint is only asked after every
    radius failed on the latest endpoint, and the returned radius is the
    radius of the last request sent. *)
Theorem fetch_openaq_adaptive_request_order :
  forall lat lon radii s,
    let '(res, used_radius, parsed, source_type, s') :=
      fetch_openaq_adaptive lat lon radii s in
    exists n m,
      sent s s' (sweep_requests OPENAQ_LATEST n radii
                 ++ sweep_requests OPENAQ_MEASUREMENTS m radii)
      /\ match source_type with
         | Some latest =>
             (0 < n <= List.length radii)%nat /\ m = 0%nat
             /\ used_radius = nth_error radii (n - 1)
         | Some pseudo =>
             n = List.length radii /\ (0 < m <= List.length radii)%nat
             /\ used_radius = nth_error radii (m - 1)
         | None =>
             n = List.length radii /\ m = List.length radii
             /\ used_radius = None
         end.
Proof.
  intros lat lon radii s. unfold fetch_openaq_adaptive, bind, ret.
  pose proof (sweep_latest_spec lat lon radii s) as H1.
  destruct (sweep_latest lat lon radii s) as [[out|] s1].
  - destruct out as [[[res used_radius] parsed] source_type].
    destruct H1 as (n & Hn & Hr & Hmode & _ & Hsent).
    cbn [fst snd] in Hr, Hmode. subst source_type.
    exists (S n), 0%nat. split.
    + unfold sweep_requests at 2. cbn [firstn map]. rewrite app_nil_r. exact Hsent.
    + repeat split; try lia. rewrite Hr. f_equal. lia.
  - pose proof (sweep_measurements_spec lat lon radii s1) as H2.
    destruct (sweep_measurements lat lon radii s1) as [[out|] s2].
    + destruct out as [[[res used_radius] parsed] source_type].
      destruct H2 as (m & Hm & Hr & Hmode & _ & Hsent).
      cbn [fst snd] in Hr, Hmode. subst source_type.
      exists (List.length radii), (S m). split.
      * exact (sent_trans _ _ _ _ _ H1 Hsent).
      * repeat split; try lia. rewrite Hr. f_equal. lia.
    + cbn. exists (List.length radii), (List.length radii). split.
      * exact (sent_trans _ _ _ _ _ H1 H2).
      * auto.
Qed.

End ResolverShape.

(** ** Completion of the slots, for every list of measurements *)

Section CompletionMore.
Context {B : Builtins} {P : Platform}.

Lemma stored_not_none val :
  is_none val = false -> is_none (stored val) = false.
Proof.
  intros H. unfold stored. destruct (py_float val); cbn; [reflexivity | exact H].
Qed.

(** A normalised measurement is read without an exception. *)
Lemma ingest_one_measure binding mode pf m s :
  is_dict m = true ->
  exists pf' s', ingest_one binding mode pf m s = (Ok pf', s').
Proof.
  destruct m as [| | | | | |d]; try discriminate. intros _.
  destruct pf as [polls flags]. unfold ingest_one.
  rewrite !py_get_dict. cbn [rbind].
  destruct (dict_in _ polls && negb (is_none _)); [|do 2 eexists; reflexivity].
  destruct mode as [[|]|]; try (do 2 eexists; reflexivity).
  destruct (truthy _); [|do 2 eexists; reflexivity].
  destruct (call_global binding _) as [[dtt|]|e]; try (do 2 eexists; reflexivity).
  unfold bind, lift, ret. destruct (utcnow (st_world s)) as [now w'].
  do 2 eexists. reflexivity.
Qed.

Lemma ingest_measures binding mode ms : forall pf s,
  Forall (fun m => is_dict m = true) ms ->
  exists pf' s', ingest binding mode ms pf s = (Ok pf', s').
Proof.
  induction ms as [|m ms IH]; intros pf s Hms; cbn [ingest].
  - do 2 eexists. reflexivity.
  - unfold bind.
    destruct (ingest_one_measure binding mode pf m s (Forall_inv Hms))
      as (pf1 & s1 & ->).
    apply IH. exact (Forall_inv_tail Hms).
Qed.

Lemma six_slots_pm25 pf :
  six_slots pf ->
  dict_in (py "pm25") (fst pf) = true /\ dict_in (py "pm25") (snd pf) = true.
Proof.
  intros [Hp Hf].
  split; apply dict_in_keys; [rewrite Hp | rewrite Hf]; left; reflexivity.
Qed.

Lemma pm25_fallback_ok lat pf :
  F64.is_inf (F64.div lat f12_0) = false ->
  exists pf', pm25_fallback lat pf = Ok pf'.
Proof.
  intros Hlat. destruct pf as [polls flags]. unfold pm25_fallback.
  rewrite !(geo_baseline_value lat _ Hlat). cbn [rbind].
  destruct (is_none (polls_get (py "pm25") polls)); [|eexists; reflexivity].
  destruct (negb (is_none (polls_get (py "pm10") polls)));
    [destruct (py_float (polls_get (py "pm10") polls)) as [x|e]|];
    eexists; reflexivity.
Qed.

(** After the PM2.5 fallback the PM2.5 slot is filled; the other slots
    are as before, and so is PM2.5 when it was filled. *)
Lemma pm25_fallback_fills lat pf pf' :
  pm25_fallback lat pf = Ok pf' ->
  six_slots pf ->
  six_slots pf'
  /\ is_none (polls_get (py "pm25") (fst pf')) = false
  /\ (forall k, k <> py "pm25" ->
                polls_get k (fst pf') = polls_get k (fst pf)
                /\ flag_get k (snd pf') = flag_get k (snd pf))
  /\ (is_none (polls_get (py "pm25") (fst pf)) = false -> pf' = pf)
  /\ (is_none (polls_get (py "pm25") (fst pf)) = true ->
      flag_get (py "pm25") (snd pf') = false).
Proof.
  intros Hrun Hs. destruct (six_slots_pm25 pf Hs) as [Hin1 Hin2].
  destruct pf as [polls flags]. cbn [fst snd] in *.
  unfold pm25_fallback in Hrun.
  destruct (is_none (polls_get (py "pm25") polls)) eqn:Enone.
  - assert (Hput : forall v,
               Ok (dict_set (py "pm25") (PFloat v) polls,
                   dict_set (py "pm25") false flags) = Ok pf' ->
               six_slots pf'
               /\ is_none (polls_get (py "pm25") (fst pf')) = false
               /\ (forall k, k <> py "pm25" ->
                     polls_get k (fst pf') = polls_get k polls
                     /\ flag_get k (snd pf') = flag_get k flags)
               /\ (true = false -> pf' = (polls, flags))
               /\ (true = true -> flag_get (py "pm25") (snd pf') = false)).
    { intros v Hv. injection Hv as <-. cbn [fst snd].
      split; [|split; [|split; [|split]]].
      - apply (six_slots_set _ _ _ (polls, flags)); assumption.
      - rewrite polls_get_set_same by assumption. reflexivity.
      - intros k Hk.
        rewrite polls_get_set_other, flag_get_set_other by assumption.
        split; reflexivity.
      - discriminate.
      - intros _. apply flag_get_set_same. assumption. }
    unfold rbind in Hrun.
    destruct (negb (is_none (polls_get (py "pm10") polls)));
      [destruct (py_float (polls_get (py "pm10") polls)) as [x|e];
       [exact (Hput _ Hrun)|]|];
      (destruct (geo_baseline lat _) as [b|e']; [|discriminate]);
      exact (Hput _ Hrun).
  - injection Hrun as <-. cbn [fst snd].
    split; [exact Hs|]. split; [exact Enone|].
    split; [split; reflexivity|]. split; [reflexivity | discriminate].
Qed.

(** The last loop fills every slot it visits, keeps the slots that are
    filled, and clears no flag of a filled slot. *)
Lemma fill_missing_fills keys : forall pf s pf' s',
  fill_missing keys pf s = (pf', s') ->
  six_slots pf ->
  is_none (polls_get (py "pm25") (fst pf)) = false ->
  (forall k, In k keys -> In k POLLUTANTS) ->
  six_slots pf'
  /\ (forall k, is_none (polls_get k (fst pf)) = false ->
                polls_get k (fst pf') = polls_get k (fst pf)
                /\ flag_get k (snd pf') = flag_get k (snd pf))
  /\ (forall k, is_none (polls_get k (fst pf)) = true ->
                flag_get k (snd pf) = false -> flag_get k (snd pf') = false)
  /\ (forall k, In k keys -> is_none (polls_get k (fst pf')) = false).
Proof.
  induction keys as [|k keys IH]; intros [polls flags] s pf' s';
    cbn [fill_missing].
  - unfold ret. intros H Hs _ _. injection H as <- _.
    split; [exact Hs|]. split; [intros k _; split; reflexivity|].
    split; [intros k _ Hf; exact Hf | intros k []].
  - intros Hrun Hs Hpm Hkeys.
    pose proof Hs as [Hp Hf]. cbn [fst snd] in Hp, Hf.
    assert (Hk : dict_in k polls = true).
    { apply dict_in_keys. rewrite Hp. apply Hkeys. left. reflexivity. }
    assert (Hkeys' : forall k0, In k0 keys -> In k0 POLLUTANTS)
      by (intros k0 H0; apply Hkeys; right; exact H0).
    cbn [fst snd] in *.
    destruct (is_none (polls_get k polls)) eqn:Enone; cbn [andb] in Hrun.
    + destruct (pystr_eqb k (py "pm25")) eqn:Epm; cbn [negb] in Hrun.
      { apply pystr_eqb_eq in Epm. subst k. congruence. }
      apply pystr_eqb_neq in Epm.
      assert (Hstep : forall v pf1 s1,
                 fill_missing keys (dict_set k v polls, dict_set k false flags) s1
                 = (pf1, s') ->
                 is_none v = false -> pf1 = pf' ->
                 six_slots pf'
                 /\ (forall k0, is_none (polls_get k0 polls) = false ->
                        polls_get k0 (fst pf') = polls_get k0 polls
                        /\ flag_get k0 (snd pf') = flag_get k0 flags)
                 /\ (forall k0, is_none (polls_get k0 polls) = true ->
                        flag_get k0 flags = false ->
                        flag_get k0 (snd pf') = false)
                 /\ (forall k0, k = k0 \/ In k0 keys ->
                        is_none (polls_get k0 (fst pf')) = false)).
      { intros v pf1 s1 Hrun1 Hv <-.
        destruct (IH _ _ _ _ Hrun1) as (Hs1 & Hkeep & Hclear & Hfilled).
        - apply (six_slots_set _ _ _ (polls, flags)); assumption.
        - cbn [fst]. rewrite polls_get_set_other by congruence. exact Hpm.
        - exact Hkeys'.
        - cbn [fst snd] in *.
          assert (Hkept : polls_get k (fst pf1) = v
                          /\ flag_get k (snd pf1) = false).
          { destruct (Hkeep k) as [E1 E2].
            - rewrite polls_get_set_same by assumption. exact Hv.
            - rewrite E1, E2, polls_get_set_same by assumption.
              rewrite flag_get_set_same; [split; reflexivity|].
              apply dict_in_keys. rewrite Hf, <- Hp.
              apply dict_in_keys, Hk. }
          split; [exact Hs1|]. split; [|split].
          + intros k0 H0.
            assert (Hne : k0 <> k) by (intros ->; congruence).
            destruct (Hkeep k0) as [E1 E2].
            * rewrite polls_get_set_other by assumption. exact H0.
            * rewrite E1, E2, polls_get_set_other, flag_get_set_other
                by assumption.
              split; reflexivity.
          + intros k0 H0 Hf0.
            destruct (list_eq_dec N.eq_dec k0 k) as [->|Hne];
              [exact (proj2 Hkept)|].
            apply Hclear.
            * rewrite polls_get_set_other by assumption. exact H0.
            * rewrite flag_get_set_other by assumption. exact Hf0.
          + intros k0 [<-|H0]; [|apply Hfilled, H0].
            rewrite (proj1 Hkept). exact Hv. }
      destruct (py_float (polls_get (py "pm25") polls)) as [x|e].
      * unfold bind, lift in Hrun.
        destruct (np_random_uniform f0_6 f1_4 (st_world s)) as [u w'].
        exact (Hstep _ _ _ Hrun eq_refl eq_refl).
      * exact (Hstep _ _ _ Hrun eq_refl eq_refl).
    + destruct (IH _ _ _ _ Hrun Hs Hpm Hkeys') as (Hs1 & Hkeep & Hclear & Hfilled).
      cbn [fst snd] in *.
      split; [exact Hs1|]. split; [exact Hkeep|]. split; [exact Hclear|].
      intros k0 [<-|H0]; [|apply Hfilled, H0].
      rewrite (proj1 (Hkeep k Enone)). exact Enone.
Qed.

Lemma NoDup_POLLUTANTS : NoDup POLLUTANTS.
Proof.
  repeat constructor; cbn [In]; intros H;
    repeat (destruct H as [H|H]; [discriminate H|]); exact H.
Qed.

Lemma all_resolved_of_slots polls :
  map fst polls = POLLUTANTS ->
  (forall k, In k POLLUTANTS -> is_none (polls_get k polls) = false) ->
  all_resolved polls.
Proof.
  intros Hkeys Hall. apply Forall_forall. intros [k v] Hin. cbn [snd].
  assert (Hnd : NoDup (map fst polls)) by (rewrite Hkeys; exact NoDup_POLLUTANTS).
  specialize (Hall k). unfold polls_get in Hall.
  rewrite (In_assoc k v polls Hnd Hin) in Hall. apply Hall.
  rewrite <- Hkeys. exact (in_map fst _ _ Hin).
Qed.

(** The script on normalised measurements. *)
Lemma complete_fills lat ms mode s :
  F64.is_inf (F64.div lat f12_0) = false ->
  Forall (fun m => is_dict m = true) ms ->
  exists polls flags s',
    complete lat ms mode s = (Ok (polls, flags), s')
    /\ six_slots (polls, flags)
    /\ all_resolved polls.
Proof.
  intros Hlat Hms. unfold complete, bind, ret.
  destruct (ingest_measures iso_to_dt mode ms (polls_init, live_flags_init) s Hms)
    as (pf & s1 & Hingest).
  rewrite Hingest. cbn [rbind].
  pose proof (ingest_slots _ _ _ _ _ _ _ Hingest six_slots_init) as Hs.
  destruct (pm25_fallback_ok lat pf Hlat) as (pf1 & Hfall). rewrite Hfall.
  destruct (pm25_fallback_fills lat pf pf1 Hfall Hs) as (Hs1 & Hpm & _).
  destruct (fill_missing (map fst (fst pf1)) pf1 s1) as [[polls flags] s2] eqn:E.
  destruct (fill_missing_fills _ _ _ _ _ E Hs1 Hpm) as (Hs2 & _ & _ & Hfilled).
  { rewrite (proj1 Hs1). auto. }
  exists polls, flags, s2. split; [reflexivity|]. split; [exact Hs2|].
  apply all_resolved_of_slots; [exact (proj1 Hs2)|].
  intros k Hk. apply Hfilled. rewrite (proj1 Hs1). exact Hk.
Qed.

Lemma well_shaped_dicts res used_radius parsed source_type :
  well_shaped (res, used_radius, parsed, source_type) ->
  Forall (fun m => is_dict m = true) parsed.
Proof.
  cbn [well_shaped]. destruct source_type as [[|]|].
  - intros (_ & _ & H & _). apply (Forall_impl _ (P := is_measure)); [|exact H].
    intros m (p & v & dt & ->). reflexivity.
  - intros (_ & H & _). apply (Forall_impl _ (P := is_mean_measure)); [|exact H].
    intros m (p & v & dt & ->). reflexivity.
  - intros H. injection H as _ _ ->. constructor.
Qed.

Lemma fetch_openaq_adaptive_shape lat lon radii s :
  well_shaped (fst (fetch_openaq_adaptive lat lon radii s)).
Proof.
  unfold fetch_openaq_adaptive, bind, ret.
  pose proof (sweep_latest_spec lat lon radii s) as H1.
  destruct (sweep_latest lat lon radii s) as [[out|] s1].
  - destruct H1 as (n & _ & _ & _ & Hshape & _). exact Hshape.
  - pose proof (sweep_measurements_spec lat lon radii s1) as H2.
    destruct (sweep_measurements lat lon radii s1) as [[out|] s2].
    + destruct H2 as (n & _ & _ & _ & Hshape & _). exact Hshape.
    + reflexivity.
Qed.

(** X10.  Whatever the network answers, and for every latitude whose
    twelfth is not infinite, the resolution step of the script ends
    normally with the six slots in place and none of them [None]. *)
Theorem script_resolution_fills_every_slot :
  forall lat lon (use_adaptive : bool) s,
    F64.is_inf (F64.div lat f12_0) = false ->
    exists polls flags s',
      script_resolution lat lon use_adaptive s = (Ok (polls, flags), s')
      /\ six_slots (polls, flags)
      /\ all_resolved polls.
Proof.
  intros lat lon use_adaptive s Hlat. unfold script_resolution, bind.
  pose proof (fetch_openaq_adaptive_shape lat lon
                (if use_adaptive then DEFAULT_RADII else [20000]) s) as Hshape.
  destruct (fetch_openaq_adaptive lat lon _ s)
    as [[[[res used_radius] parsed] source_type] s1].
  cbn [fst] in Hshape.
  apply (complete_fills lat parsed source_type s1 Hlat).
  exact (well_shaped_dicts _ _ _ _ Hshape).
Qed.

Lemma reports_key m k p :
  py_get m (py "parameter") = Ok p -> reports m k -> normalize_label p = k.
Proof. intros Hp (p' & v & Hp' & Hk & _). congruence. Qed.

Lemma latest_flags_inv_init : latest_flags_inv [] (polls_init, live_flags_init).
Proof.
  split; [exact six_slots_init|].
  assert (H : forall k, flag_get k live_flags_init = false)
    by (intros k; apply all_false_flag_get, none_live_init).
  cbn [fst snd]. split; intros k.
  - rewrite H. split; [discriminate|]. intros (_ & m & [] & _).
  - rewrite H. discriminate.
Qed.

Lemma latest_flags_inv_more seen m pf :
  (forall k, ~ (In k POLLUTANTS /\ reports m k)) ->
  latest_flags_inv seen pf -> latest_flags_inv (seen ++ [m]) pf.
Proof.
  intros Hm (Hs & Hflag & Hslot). split; [exact Hs|]. split; [|exact Hslot].
  intros k. rewrite Hflag. split.
  - intros (Hk & m0 & Hin & Hrep). split; [exact Hk|].
    exists m0. split; [apply in_or_app; left; exact Hin | exact Hrep].
  - intros (Hk & m0 & Hin & Hrep). split; [exact Hk|].
    apply in_app_or in Hin. destruct Hin as [Hin|[<-|[]]].
    + exists m0. auto.
    + exfalso. apply (Hm k). auto.
Qed.

Lemma ingest_one_latest_inv binding seen pf m s pf' s' :
  ingest_one binding (Some latest) pf m s = (Ok pf', s') ->
  latest_flags_inv seen pf -> latest_flags_inv (seen ++ [m]) pf'.
Proof.
  destruct pf as [polls flags]. unfold ingest_one, rbind.
  destruct (py_get m (py "parameter")) as [p|e] eqn:Ep; [|discriminate].
  destruct (py_get m (py "value")) as [val|e] eqn:Ev; [|discriminate].
  destruct (py_get m (py "lastUpdated")) as [ts|e]; [|discriminate].
  destruct (dict_in (normalize_label p) polls) eqn:Hin; cbn [andb].
  - destruct (is_none val) eqn:Hval; cbn [negb].
    + unfold ret. intros H Hinv. injection H as <- _.
      apply latest_flags_inv_more; [|exact Hinv].
      intros k (_ & p' & v' & Hp' & _ & Hv' & Hnone). congruence.
    + unfold ret. intros H (Hs & Hflag & Hslot). injection H as <- _.
      pose proof Hs as [Hp Hf]. cbn [fst snd] in Hp, Hf, Hflag, Hslot.
      assert (Hin2 : dict_in (normalize_label p) flags = true).
      { apply dict_in_keys. rewrite Hf, <- Hp. apply dict_in_keys, Hin. }
      split; [apply (six_slots_set _ _ _ (polls, flags)); assumption|].
      cbn [fst snd]. split; intros k.
      * destruct (list_eq_dec N.eq_dec k (normalize_label p)) as [->|Hne].
        -- rewrite flag_get_set_same by assumption. split; [|reflexivity].
           intros _. split.
           ++ rewrite <- Hp. apply dict_in_keys, Hin.
           ++ exists m. split; [apply in_or_app; right; left; reflexivity|].
              exists p, val. auto.
        -- rewrite flag_get_set_other by assumption. rewrite Hflag. split.
           ++ intros (Hk & m0 & Hm0 & Hrep). split; [exact Hk|].
              exists m0. split; [apply in_or_app; left; exact Hm0 | exact Hrep].
           ++ intros (Hk & m0 & Hm0 & Hrep). split; [exact Hk|].
              apply in_app_or in Hm0. destruct Hm0 as [Hm0|[<-|[]]].
              ** exists m0. auto.
              ** exfalso. apply Hne. symmetry. exact (reports_key _ _ _ Ep Hrep).
      * destruct (list_eq_dec N.eq_dec k (normalize_label p)) as [->|Hne].
        -- intros _. rewrite polls_get_set_same by assumption.
           apply stored_not_none, Hval.
        -- rewrite flag_get_set_other, polls_get_set_other by assumption.
           apply Hslot.
  - unfold ret. intros H Hinv. injection H as <- _.
    apply latest_flags_inv_more; [|exact Hinv].
    intros k (Hk & Hrep). rewrite <- (reports_key _ _ _ Ep Hrep) in Hk.
    rewrite <- (proj1 (proj1 Hinv)) in Hk. apply dict_in_keys in Hk.
    cbn [fst] in Hk. congruence.
Qed.

Lemma ingest_latest_inv binding ms : forall seen pf s pf' s',
  ingest binding (Some latest) ms pf s = (Ok pf', s') ->
  latest_flags_inv seen pf -> latest_flags_inv (seen ++ ms) pf'.
Proof.
  induction ms as [|m ms IH]; intros seen pf s pf' s'; cbn [ingest].
  - unfold ret. intros H Hinv. injection H as <- _.
    rewrite app_nil_r. exact Hinv.
  - unfold bind.
    destruct (ingest_one binding (Some latest) pf m s) as [[pf1|e] s1] eqn:E1;
      [|discriminate].
    intros Hrun Hinv.
    replace (seen ++ m :: ms) with ((seen ++ [m]) ++ ms)
      by (rewrite <- app_assoc; reflexivity).
    apply (IH _ _ _ _ _ Hrun).
    exact (ingest_one_latest_inv _ _ _ _ _ _ _ E1 Hinv).
Qed.

(** X11.  In the mode ["latest"] a pollutant is flagged live at the end
    of the script exactly when it is one of the six and some measurement
    of the list has a reading of it (a parameter that normalises to its
    key, with a value that is not [None]); neither fallback sets or
    clears such a flag. *)
Theorem latest_mode_live_flags :
  forall lat ms s polls flags s',
    complete lat ms (Some latest) s = (Ok (polls, flags), s') ->
    forall k,
      flag_get k flags = true
      <-> In k POLLUTANTS /\ exists m, In m ms /\ reports m k.
Proof.
  intros lat ms s polls flags s' Hrun k.
  unfold complete, bind, ret in Hrun.
  destruct (ingest iso_to_dt (Some latest) ms (polls_init, live_flags_init) s)
    as [[pf|e] s1] eqn:Eingest; cbn [rbind] in Hrun; [|discriminate].
  destruct (pm25_fallback lat pf) as [pf1|e] eqn:Efall; [|discriminate].
  destruct (fill_missing (map fst (fst pf1)) pf1 s1) as [pf2 s2] eqn:Efill.
  injection Hrun as -> _.
  destruct (ingest_latest_inv _ _ _ _ _ _ _ Eingest latest_flags_inv_init)
    as (Hs & Hflag & Hslot).
  cbn [app] in Hflag. rewrite <- Hflag.
  destruct (pm25_fallback_fills _ _ _ Efall Hs)
    as (Hs1 & Hpm & Hother & Hsame & Hcleared).
  destruct (fill_missing_fills _ _ _ _ _ Efill Hs1 Hpm)
    as (_ & Hkeep & Hclear & _).
  { rewrite (proj1 Hs1). auto. }
  cbn [fst snd] in *.
  assert (H1 : flag_get k (snd pf1) = flag_get k (snd pf)
               /\ (flag_get k (snd pf1) = true ->
                   is_none (polls_get k (fst pf1)) = false)).
  { destruct (is_none (polls_get (py "pm25") (fst pf))) eqn:Enone.
    - destruct (list_eq_dec N.eq_dec k (py "pm25")) as [->|Hne].
      + rewrite (Hcleared eq_refl).
        destruct (flag_get (py "pm25") (snd pf)) eqn:Ef.
        * rewrite (Hslot _ Ef) in Enone. discriminate.
        * split; [reflexivity | discriminate].
      + destruct (Hother k Hne) as [E1 E2]. rewrite E1, E2.
        split; [reflexivity | apply Hslot].
    - rewrite (Hsame eq_refl). split; [reflexivity | apply Hslot]. }
  destruct H1 as [E1 Hslot1]. rewrite <- E1.
  destruct (is_none (polls_get k (fst pf1))) eqn:Enone.
  - destruct (flag_get k (snd pf1)) eqn:Ef.
    + discriminate (Hslot1 eq_refl).
    + rewrite (Hclear k Enone Ef). reflexivity.
  - rewrite (proj2 (Hkeep k Enone)). reflexivity.
Qed.

(** The slots after one measurement, in every mode. *)
Lemma ingest_one_polls binding mode polls flags m s polls' flags' s' :
  ingest_one binding mode (polls, flags) m s = (Ok (polls', flags'), s') ->
  exists p val,
    py_get m (py "parameter") = Ok p /\ py_get m (py "value") = Ok val
    /\ polls' = if dict_in (normalize_label p) polls && negb (is_none val)
                then dict_set (normalize_label p) (stored val) polls
                else polls.
Proof.
  unfold ingest_one, rbind.
  destruct (py_get m (py "parameter")) as [p|e]; [|discriminate].
  destruct (py_get m (py "value")) as [val|e]; [|discriminate].
  destruct (py_get m (py "lastUpdated")) as [ts|e]; [|discriminate].
  intros Hrun. exists p, val. split; [reflexivity|]. split; [reflexivity|].
  destruct (dict_in (normalize_label p) polls && negb (is_none val)).
  - destruct mode as [[|]|]; [| |].
    + injection Hrun as <- _ _. reflexivity.
    + destruct (truthy ts).
      * destruct (call_global binding ts) as [[dtt|]|e].
        -- unfold bind, lift, ret in Hrun.
           destruct (utcnow (st_world s)) as [now w'].
           injection Hrun as <- _ _. reflexivity.
        -- injection Hrun as <- _ _. reflexivity.
        -- injection Hrun as <- _ _. reflexivity.
      * injection Hrun as <- _ _. reflexivity.
    + injection Hrun as <- _ _. reflexivity.
  - injection Hrun as <- _ _. reflexivity.
Qed.

Lemma last_reading_snoc seen m1 k v :
  last_reading (seen ++ [m1]) k v ->
  reading m1 k v \/ (last_reading seen k v /\ ~ reports m1 k).
Proof.
  intros (before & m & after & Heq & Hread & Hafter).
  induction after as [|x after' _] using rev_ind.
  - apply (app_inj_tail seen before m1 m) in Heq.
    destruct Heq as [_ ->]. left. exact Hread.
  - change (before ++ m :: after' ++ [x])
      with (before ++ (m :: after') ++ [x]) in Heq.
    rewrite app_assoc in Heq.
    apply app_inj_tail in Heq. destruct Heq as [-> ->].
    apply Forall_app in Hafter. destruct Hafter as [Hafter Hx].
    right. split; [|exact (Forall_inv Hx)].
    exists before, m, after'. auto.
Qed.

Lemma reading_reports m k v : reading m k v -> reports m k.
Proof. intros (p & Hp & Hk & Hv & Hnone). exists p, v. auto. Qed.

Lemma ingest_one_last_reading binding mode seen pf m s pf' s' :
  ingest_one binding mode pf m s = (Ok pf', s') ->
  six_slots pf ->
  (forall k v, In k POLLUTANTS -> last_reading seen k v ->
               polls_get k (fst pf) = stored v) ->
  forall k v, In k POLLUTANTS -> last_reading (seen ++ [m]) k v ->
              polls_get k (fst pf') = stored v.
Proof.
  destruct pf as [polls flags], pf' as [polls' flags'].
  intros Hrun [Hp _] Hinv k v Hk Hlast. cbn [fst snd] in *.
  destruct (ingest_one_polls _ _ _ _ _ _ _ _ _ Hrun) as (p & val & Ep & Ev & ->).
  assert (Hin : dict_in k polls = true)
    by (apply dict_in_keys; rewrite Hp; exact Hk).
  destruct (last_reading_snoc _ _ _ _ Hlast) as [Hread|[Hbefore Hnot]].
  - destruct Hread as (p' & Ep' & Hkey & Ev' & Hnone).
    assert (p' = p) by congruence. assert (v = val) by congruence. subst p' v.
    rewrite Hkey, Hin, Hnone. cbn [negb andb].
    apply polls_get_set_same. exact Hin.
  - rewrite <- (Hinv k v Hk Hbefore).
    destruct (dict_in (normalize_label p) polls) eqn:Ein; [|reflexivity].
    destruct (is_none val) eqn:Enone; [reflexivity|]. cbn [negb andb].
    apply polls_get_set_other. intros ->.
    apply Hnot. exists p, val. auto.
Qed.

Lemma ingest_last_reading binding mode ms : forall seen pf s pf' s',
  ingest binding mode ms pf s = (Ok pf', s') ->
  six_slots pf ->
  (forall k v, In k POLLUTANTS -> last_reading seen k v ->
               polls_get k (fst pf) = stored v) ->
  forall k v, In k POLLUTANTS -> last_reading (seen ++ ms) k v ->
              polls_get k (fst pf') = stored v.
Proof.
  induction ms as [|m ms IH]; intros seen pf s pf' s'; cbn [ingest].
  - unfold ret. intros H _ Hinv. injection H as <- _.
    rewrite app_nil_r. exact Hinv.
  - unfold bind.
    destruct (ingest_one binding mode pf m s) as [[pf1|e] s1] eqn:E1;
      [|discriminate].
    intros Hrun Hs Hinv.
    replace (seen ++ m :: ms) with ((seen ++ [m]) ++ ms)
      by (rewrite <- app_assoc; reflexivity).
    apply (IH _ _ _ _ _ Hrun).
    + exact (ingest_one_slots _ _ _ _ _ _ _ E1 Hs).
    + exact (ingest_one_last_reading _ _ _ _ _ _ _ _ E1 Hs Hinv).
Qed.

(** X12.  In every mode, a slot whose pollutant has a reading ends with
    the last reading of the list, converted by [float] when [float]
    accepts it and kept as it is otherwise; the fallbacks do not touch
    it. *)
Theorem last_reading_is_stored :
  forall lat ms mode s polls flags s' k v,
    complete lat ms mode s = (Ok (polls, flags), s') ->
    In k POLLUTANTS ->
    last_reading ms k v ->
    polls_get k polls = stored v.
Proof.
  intros lat ms mode s polls flags s' k v Hrun Hk Hlast.
  unfold complete, bind, ret in Hrun.
  destruct (ingest iso_to_dt mode ms (polls_init, live_flags_init) s)
    as [[pf|e] s1] eqn:Eingest; cbn [rbind] in Hrun; [|discriminate].
  destruct (pm25_fallback lat pf) as [pf1|e] eqn:Efall; [|discriminate].
  destruct (fill_missing (map fst (fst pf1)) pf1 s1) as [pf2 s2] eqn:Efill.
  injection Hrun as -> _.
  pose proof (ingest_slots _ _ _ _ _ _ _ Eingest six_slots_init) as Hs.
  assert (Hval : polls_get k (fst pf) = stored v).
  { apply (ingest_last_reading _ _ _ [] _ _ _ _ Eingest six_slots_init);
      [|exact Hk|exact Hlast].
    intros k0 v0 _ (before & m & after & Heq & _).
    destruct before; discriminate Heq. }
  assert (Hnone : is_none (stored v) = false).
  { destruct Hlast as (_ & m & _ & _ & (p & _ & _ & _ & Hv) & _).
    apply stored_not_none, Hv. }
  destruct (pm25_fallback_fills _ _ _ Efall Hs)
    as (Hs1 & Hpm & Hother & Hsame & _).
  assert (Hval1 : polls_get k (fst pf1) = stored v).
  { destruct (list_eq_dec N.eq_dec k (py "pm25")) as [->|Hne].
    - rewrite Hsame; [exact Hval|]. rewrite Hval. exact Hnone.
    - rewrite (proj1 (Hother k Hne)). exact Hval. }
  destruct (fill_missing_fills _ _ _ _ _ Efill Hs1 Hpm) as (_ & Hkeep & _).
  { rewrite (proj1 Hs1). auto. }
  cbn [fst] in *. rewrite (proj1 (Hkeep k ltac:(rewrite Hval1; exact Hnone))).
  exact Hval1.
Qed.

End CompletionMore.

(** Off line at Sharjah, Muweilah. *)
Lemma script_resolution_fills_every_slot_witness :
  exists polls flags s',
    script_resolution (B := plain_builtins) (P := scripted_platform)
      (F64.dec 25358 3) (F64.dec 55478 3) true (start offline)
    = (Ok (polls, flags), s')
    /\ six_slots (polls, flags)
    /\ all_resolved polls.
Proof.
  apply (script_resolution_fills_every_slot
           (B := plain_builtins) (P := scripted_platform)).
  vm_compute. reflexivity.
Defined.

(** One PM2.5 reading of a station: only PM2.5 is flagged live. *)
Lemma latest_mode_live_flags_witness :
  exists polls flags s',
    complete (B := plain_builtins) (P := scripted_platform) (F64.dec 25358 3)
      [station_reading] (Some latest) (start offline)
    = (Ok (polls, flags), s')
    /\ forall k,
         flag_get k flags = true
         <-> In k POLLUTANTS
             /\ exists m, In m [station_reading]
                          /\ reports (B := plain_builtins) m k.
Proof.
  eassert (E : complete (B := plain_builtins) (P := scripted_platform)
                 (F64.dec 25358 3) [station_reading] (Some latest)
                 (start offline)
               = (Ok (_, _), _)) by (vm_compute; reflexivity).
  do 3 eexists. split; [exact E|].
  exact (latest_mode_live_flags
           (B := plain_builtins) (P := scripted_platform) _ _ _ _ _ _ E).
Defined.

(** The PM2.5 reading 12.5 of the station is what the PM2.5 slot holds. *)
Lemma last_reading_is_stored_witness :
  exists polls flags s',
    complete (B := plain_builtins) (P := scripted_platform) (F64.dec 25358 3)
      [station_reading] (Some latest) (start offline)
    = (Ok (polls, flags), s')
    /\ polls_get (py "pm25") polls
       = stored (B := plain_builtins) (PFloat (F64.dec 125 1)).
Proof.
  eassert (E : complete (B := plain_builtins) (P := scripted_platform)
                 (F64.dec 25358 3) [station_reading] (Some latest)
                 (start offline)
               = (Ok (_, _), _)) by (vm_compute; reflexivity).
  do 3 eexists. split; [exact E|].
  apply (last_reading_is_stored
           (B := plain_builtins) (P := scripted_platform) _ _ _ _ _ _ _ _ _ E).
  - left. reflexivity.
  - exists [], station_reading, []. split; [reflexivity|]. split; [|constructor].
    exists (PStr (py "pm25")). repeat split; reflexivity.
Defined.

(** ** Signs of rounded values *)

Module SignFacts.

(** Rounding a non-negative mantissa with the sign [+] gives a zero, a
    positive number or [+inf]. *)
Lemma binary_round_aux_nonneg prec emax mx ex lx :
  0 <= mx -> nonneg (binary_round_aux prec emax false mx ex lx).
Proof.
  intros H. unfold nonneg, binary_round_aux.
  pose proof (RoundFacts.shr_fexp_nonneg prec emax mx ex lx H) as H1.
  destruct (shr_fexp prec emax mx ex lx) as [mrs' e']. simpl in H1.
  pose proof (RoundFacts.shr_fexp_nonneg prec emax _ e' loc_Exact
                (RoundFacts.round_nearest_even_nonneg
                   _ (loc_of_shr_record mrs') H1)) as H2.
  destruct (shr_fexp prec emax _ e' loc_Exact) as [mrs'' e'']. simpl in H2.
  destruct (shr_m mrs'') as [|p|p].
  - reflexivity.
  - destruct (e'' <=? emax - prec); reflexivity.
  - lia.
Qed.

Lemma div_pos_nonneg mx ex my ey :
  nonneg (F64.div (S754_finite false mx ex) (S754_finite false my ey)).
Proof.
  unfold F64.div, SFdiv, SFdiv_core_binary.
  set (m' := match _ - _ with Z0 => Z.pos mx | Z.pos _ => _ | Z.neg _ => 0 end).
  assert (Hm' : 0 <= m').
  { subst m'. destruct (_ - _) as [|s|s]; try lia.
    apply Z.shiftl_nonneg. lia. }
  pose proof (Z.div_pos m' (Z.pos my) Hm' (Pos2Z.is_pos my)) as Hq.
  unfold Z.div in Hq.
  destruct (Z.div_eucl m' (Z.pos my)) as [q r]. simpl in Hq.
  cbn [xorb]. apply binary_round_aux_nonneg. exact Hq.
Qed.

(** [round(x, k)] of a non-negative number is non-negative. *)
Lemma round_nd_nonneg x k : nonneg x -> nonneg (F64.round_nd x k).
Proof.
  destruct x as [s|s| |[|] m e]; cbn [F64.round_nd]; intros Hx;
    try exact Hx; try discriminate Hx.
  destruct (F64.num_sh false m e) as [n sh].
  destruct (F64.rne_div _ _) as [|p|p]; try reflexivity.
  apply div_pos_nonneg.
Qed.

(** [max(0.1, y)] is a positive number, whatever [y] is. *)
Lemma max2_floor_nonneg y : nonneg (F64.max2 f0_1 y).
Proof.
  unfold nonneg, F64.max2. destruct (F64.ltb f0_1 y) eqn:E.
  - apply F64Facts.ltb_leb.
    apply (F64Facts.leb_ltb_trans _ f0_1 _); [|exact E].
    vm_compute. reflexivity.
  - vm_compute. reflexivity.
Qed.

Lemma floor_round_nonneg y : nonneg (F64.round_nd (F64.max2 f0_1 y) 1).
Proof. apply round_nd_nonneg, max2_floor_nonneg. Qed.

End SignFacts.

(** ** The forecast, in both branches *)

Section ForecastMore.
Context {B : Builtins} {P : Platform}.

Lemma Ok_inj {A} (a b : A) : Ok a = Ok b -> a = b.
Proof.
  intros H.
  exact (f_equal (fun r => match r with Ok x => x | Raise _ => a end) H).
Qed.

Lemma forecast_walk_nonneg n : forall scale last rng,
  Forall nonneg (forecast_walk n scale last rng).
Proof.
  induction n as [|n IH]; intros scale last rng; cbn [forecast_walk].
  - constructor.
  - destruct (generator_normal (F64.of_Z 0) scale rng) as [step rng'].
    constructor; [apply SignFacts.floor_round_nonneg | apply IH].
Qed.

Lemma trend_walk_series n : forall i base trend s vs s',
  trend_walk n i base trend s = (Ok vs, s') ->
  List.length vs = n /\ Forall nonneg vs.
Proof.
  induction n as [|n IH]; intros i base trend s vs s'; cbn [trend_walk].
  - unfold ret. intros H. injection H as <- _. split; [reflexivity | constructor].
  - unfold bind at 1.
    destruct (lift (np_random_normal _ _) s) as [[z|e] s1];
      [|unfold ret; discriminate].
    unfold bind, ret, rbind.
    destruct (trend_walk n (i + 1) base trend s1) as [[rest|e] s2] eqn:E;
      [|discriminate].
    intros H. injection H as <- _.
    destruct (IH _ _ _ _ _ _ E) as [Hlen Hall].
    split; [cbn [List.length]; f_equal; exact Hlen|].
    constructor; [apply SignFacts.floor_round_nonneg | exact Hall].
Qed.

Lemma mapM_pm25_to_aqi_some vs aqi24 :
  mapM (fun x => pm25_to_aqi (PFloat x)) vs = Ok aqi24 ->
  Forall (fun a => a <> None) aqi24.
Proof.
  apply mapM_all. intros x a. unfold pm25_to_aqi. cbn [py_float].
  destruct (aqi_bands EPA_BP x); [|discriminate].
  intros H. injection H as <-. discriminate.
Qed.

(** X13.  A forecast that is returned has 24 values when the 24-hour
    view is on and none when it is off, in the trend branch as in the
    random walk; no value is negative or a NaN, and each value has an
    index, never [None]. *)
Theorem forecast_section_series :
  forall (show_24h : bool) pm_history pm25 forecast_var s pm24 aqi24 s',
    forecast_section show_24h pm_history pm25 forecast_var s
    = (Ok (pm24, aqi24), s') ->
    List.length pm24 = (if show_24h then 24 else 0)%nat
    /\ List.length aqi24 = List.length pm24
    /\ Forall nonneg pm24
    /\ Forall (fun a => a <> None) aqi24.
Proof.
  intros show_24h hist pm25 var s pm24 aqi24 s'. unfold forecast_section.
  destruct show_24h.
  2:{ unfold ret. intros H. injection H as <- <- _.
      repeat split; constructor. }
  assert (Hend : forall (vs : list float) r,
             (vs0 <- Ok vs ;;
              aqi24 <- mapM (fun x => pm25_to_aqi (PFloat x)) vs0 ;;
              Ok (vs0, aqi24))%pym = r ->
             r = Ok (pm24, aqi24) ->
             List.length vs = 24%nat -> Forall nonneg vs ->
             List.length pm24 = 24%nat
             /\ List.length aqi24 = List.length pm24
             /\ Forall nonneg pm24
             /\ Forall (fun a => a <> None) aqi24).
  { intros vs r <-. cbn [rbind]. unfold rbind.
    destruct (mapM _ vs) as [aqis|e] eqn:Eaqi; [|discriminate].
    intros H Hlen Hall. injection H as <- <-.
    split; [exact Hlen|]. split; [exact (mapM_length _ _ _ Eaqi)|].
    split; [exact Hall | exact (mapM_pm25_to_aqi_some _ _ Eaqi)]. }
  unfold bind at 1.
  destruct (6 <=? List.length hist)%nat.
  - destruct (_ <- as_num _ ;; _)%pym as [[base trend]|e].
    + destruct (trend_walk 24 0 base trend s) as [[vs|e] s1] eqn:Erun.
      * unfold ret. intros H. injection H as H _.
        destruct (trend_walk_series 24 0 base trend s vs s1 Erun) as [Hlen Hall].
        exact (Hend vs _ eq_refl H Hlen Hall).
      * unfold ret. cbn [rbind]. discriminate.
    + unfold ret. cbn [rbind]. discriminate.
  - unfold ret.
    destruct (hourly_forecast_pm pm25 24 _) as [vs|e] eqn:Erun;
      [|cbn [rbind]; discriminate].
    intros H. injection H as H _.
    refine (Hend vs _ eq_refl H (hourly_forecast_pm_length _ _ _ _ Erun) _).
    unfold hourly_forecast_pm, rbind in Erun.
    destruct (py_float pm25) as [x|e]; [|discriminate].
    destruct (F64.trunc_int _) as [seed|]; [|discriminate].
    apply Ok_inj in Erun. rewrite <- Erun. apply forecast_walk_nonneg.
Qed.

End ForecastMore.

(** The random walk from 12.3 with variance 3. *)
Lemma forecast_section_series_witness :
  exists pm24 aqi24 s',
    forecast_section (B := plain_builtins) (P := scripted_platform) true
      [] (PFloat (F64.dec 123 1)) 3 (start offline)
    = (Ok (pm24, aqi24), s')
    /\ List.length pm24 = 24%nat
    /\ List.length aqi24 = List.length pm24
    /\ Forall nonneg pm24
    /\ Forall (fun a => a <> None) aqi24.
Proof.
  eassert (E : forecast_section (B := plain_builtins) (P := scripted_platform)
                 true [] (PFloat (F64.dec 123 1)) 3 (start offline)
               = (Ok (_, _), _)) by (vm_compute; reflexivity).
  do 3 eexists. split; [exact E|].
  exact (forecast_section_series
           (B := plain_builtins) (P := scripted_platform) _ _ _ _ _ _ _ _ E).
Defined.

(** ** Live flags and satellite label *)

Section LiveFacts.
Context {B : Builtins} {P : Platform}.

(** X14.  A live flag needs the mode ["latest"]: whenever the resolver
    answers in the mode ["pseudo"] or with the empty result, the script
    ends with every live flag false. *)
Theorem live_flags_need_latest_mode :
  forall lat lon (use_adaptive : bool) s polls flags s',
    script_resolution lat lon use_adaptive s = (Ok (polls, flags), s') ->
    snd (fst (fetch_openaq_adaptive lat lon
                (if use_adaptive then DEFAULT_RADII else [20000]) s))
    <> Some latest ->
    none_live flags.
Proof.
  intros lat lon use_adaptive s polls flags s'. unfold script_resolution, bind.
  pose proof (fetch_openaq_adaptive_shape lat lon
                (if use_adaptive then DEFAULT_RADII else [20000]) s) as Hshape.
  destruct (fetch_openaq_adaptive lat lon _ s)
    as [[[[res used_radius] parsed] source_type] s1].
  cbn [fst snd] in *. intros Hrun Hmode.
  destruct source_type as [[|]|].
  - congruence.
  - exact (proj1 (pseudo_mode_none_live _ _ _ _ _ _ Hrun)).
  - injection Hshape as _ _ ->.
    unfold complete, bind, ret in Hrun. cbn [ingest ret rbind] in Hrun.
    unfold ret in Hrun. cbn [rbind] in Hrun.
    destruct (pm25_fallback lat (polls_init, live_flags_init)) as [pf1|e] eqn:E2;
      [|discriminate].
    destruct (fill_missing (map fst (fst pf1)) pf1 s1) as [pf2 s2] eqn:E3.
    injection Hrun as -> _.
    apply (fill_missing_none_live _ _ _ _ _ E3).
    apply (pm25_fallback_none_live _ _ _ E2).
    exact none_live_init.
Qed.

(** What [fetch_satellite_proxy] returns, with its label. *)
Lemma fetch_satellite_proxy_labels lat lon s :
  (exists v rest s',
      fetch_satellite_proxy lat lon s = (Some v, rest, s')
      /\ (exists tail, rest = py "TEMPO_NO2 (proxy:" ++ tail
                       \/ rest = py "MODIS_AOD(" ++ tail))
  \/ (exists s', fetch_satellite_proxy lat lon s = (None, DEMO_FALLBACK, s')).
Proof.
  unfold fetch_satellite_proxy.
  destruct EE_AVAILABLE; [|right; eexists; reflexivity].
  unfold bind, ret.
  destruct (get_tempo_no2_via_ee lat lon s) as [[x|] s1].
  - left. rewrite (tempo_to_aod_proxy_from_no2_value (PFloat x) x eq_refl).
    do 3 eexists. split; [reflexivity|]. eexists. left. reflexivity.
  - destruct (get_modis_aod_via_ee lat lon s1) as [[x|] s2].
    + left. do 3 eexists. split; [reflexivity|]. eexists. right. reflexivity.
    + right. eexists. reflexivity.
Qed.

(** X18.  The marker [DEMO_FALLBACK] never leaves the satellite step:
    the label handed on is never the marker, and it is ["PM2.5_proxy"]
    exactly when [fetch_satellite_proxy] had no satellite value. *)
Theorem satellite_label_never_demo :
  forall lat lon pm25 s v lbl s',
    satellite_integration lat lon pm25 s = (Ok (v, lbl), s') ->
    lbl <> DEMO_FALLBACK
    /\ (lbl = PM25_PROXY <->
        exists s1, fetch_satellite_proxy lat lon s = (None, DEMO_FALLBACK, s1)).
Proof.
  intros lat lon pm25 s v lbl s'. unfold satellite_integration, bind, ret.
  destruct (fetch_satellite_proxy_labels lat lon s)
    as [(v0 & rest & s1 & -> & tail & Hrest)|(s1 & ->)].
  - intros H. injection H as _ <- _.
    destruct Hrest as [->| ->]; (split; [discriminate|]);
      (split; [discriminate | intros [s2 H2]; discriminate H2]).
  - unfold rbind. destruct (py_float pm25) as [x|e]; [|discriminate].
    intros H. injection H as _ <- _.
    split; [discriminate|]. split; [|reflexivity].
    intros _. exists s1. reflexivity.
Qed.

End LiveFacts.

(** ** The PM2.5 history *)

Section HistoryFacts.
Context {B : Builtins} {P : Platform}.

Lemma history_loop_numbers items : forall acc hist,
  foldM history_step items acc = Ok hist ->
  Forall (fun v => is_int_or_float v = true) acc ->
  Forall (fun v => is_int_or_float v = true) hist.
Proof.
  induction items as [|item items IH]; intros acc hist; cbn [foldM].
  - intros H Hacc. injection H as <-. exact Hacc.
  - unfold rbind, history_step at 1, rbind.
    destruct (py_get item (py "parameter")) as [p|e]; [|discriminate].
    destruct (pystr_eqb (normalize_label p) (py "pm25")); [|apply IH].
    destruct (py_get item (py "value")) as [v|e]; [|discriminate].
    intros Hrun Hacc. apply (IH _ _ Hrun).
    destruct (is_int_or_float v) eqn:Ev; [|exact Hacc].
    apply Forall_app. split; [exact Hacc|]. repeat constructor. exact Ev.
Qed.

Lemma history_loop_dicts items : forall acc,
  Forall (fun m => is_dict m = true) items ->
  foldM history_step items acc = Ok (acc ++ pm25_values items).
Proof.
  induction items as [|item items IH]; intros acc Hitems; cbn [foldM].
  - cbn. rewrite app_nil_r. reflexivity.
  - pose proof (Forall_inv Hitems) as Hitem.
    destruct item as [| | | | | |d]; try discriminate Hitem.
    unfold rbind, history_step at 1, rbind. rewrite !py_get_dict.
    cbn [pm25_values flat_map].
    destruct (pystr_eqb (normalize_label (field (py "parameter") d)) (py "pm25"));
      cbn [andb].
    + rewrite (IH _ (Forall_inv_tail Hitems)).
      destruct (is_int_or_float (field (py "value") d)).
      * rewrite <- app_assoc. reflexivity.
      * reflexivity.
    + rewrite (IH _ (Forall_inv_tail Hitems)). reflexivity.
Qed.

Lemma history_step_dict acc d : exists acc', history_step acc (PDict d) = Ok acc'.
Proof.
  unfold history_step. rewrite !py_get_dict. cbn [rbind].
  destruct (pystr_eqb _ _); eexists; reflexivity.
Qed.

(** A record that is not an object makes the loop raise. *)
Lemma history_loop_non_dict items :
  forallb is_dict items = false ->
  forall acc, exists e, foldM history_step items acc = Raise e.
Proof.
  induction items as [|item items IH]; cbn [forallb foldM]; [discriminate|].
  intros Hall acc. unfold rbind.
  destruct item as [| | | | | |d];
    try (eexists; reflexivity).
  cbn [is_dict andb] in Hall.
  destruct (history_step_dict acc d) as [acc' ->]. apply IH. exact Hall.
Qed.

Lemma pm_history_body_loop resp :
  pm_history_body resp
  = match resp with
    | None => Ok []
    | Some decoded =>
        (mj <- decoded ;;
         results <- py_get_default mj (py "results") (PList []) ;;
         items <- py_iter results ;;
         foldM history_step items [])%pym
    end.
Proof. reflexivity. Qed.

(** X15.  The history fetch sends exactly one request, to the
    measurements endpoint, with the radius [used_radius or 20000] and a
    window of three days; what it returns holds numbers only; and on a
    payload whose results are a list it returns the numeric PM2.5 values
    in order when every record is an object, and nothing at all when one
    record is not. *)
Theorem fetch_pm_history_numbers :
  forall lat lon used_radius s,
    (exists now,
        st_log (snd (fetch_pm_history lat lon used_radius s))
        = st_log s
          ++ [measurements_request lat lon (history_radius used_radius) 3 now])
    /\ Forall (fun v => is_int_or_float v = true)
              (fst (fetch_pm_history lat lon used_radius s))
    /\ (forall now s0 s1 d items,
           lift utcnow s = (now, s0) ->
           safe_get_json
             (measurements_request lat lon (history_radius used_radius) 3 now) s0
           = (Some (Ok (PDict d)), s1) ->
           assoc (py "results") d = Some (PList items) ->
           fetch_pm_history lat lon used_radius s
           = (if forallb is_dict items then pm25_values items else [], s1)).
Proof.
  intros lat lon used_radius s. unfold fetch_pm_history, bind, ret.
  fold (history_radius used_radius).
  destruct (lift utcnow s) as [now s0] eqn:Enow.
  destruct (safe_get_json _ s0) as [resp s1] eqn:Eget. cbn [fst snd].
  split; [|split].
  - exists now. rewrite (safe_get_json_log _ _ _ _ Eget), (lift_log _ _ _ _ Enow).
    reflexivity.
  - rewrite pm_history_body_loop.
    destruct resp as [[mj|e]|]; cbn [rbind try_except]; try constructor.
    unfold rbind.
    destruct (py_get_default mj (py "results") (PList [])) as [results|e];
      cbn [try_except]; [|constructor].
    destruct (py_iter results) as [items|e]; cbn [try_except]; [|constructor].
    destruct (foldM history_step items []) as [hist|e] eqn:Eloop;
      cbn [try_except]; [|constructor].
    exact (history_loop_numbers _ _ _ Eloop (Forall_nil _)).
  - intros now' s0' s1' d items Hnow Hget Hres.
    injection Hnow as <- <-. rewrite Eget in Hget. injection Hget as -> ->.
    rewrite pm_history_body_loop. cbn [rbind py_get_default]. rewrite Hres.
    cbn [py_iter rbind].
    destruct (forallb is_dict items) eqn:Eall.
    + rewrite (history_loop_dicts items []); [reflexivity|].
      apply Forall_forall. rewrite forallb_forall in Eall. exact Eall.
    + destruct (history_loop_non_dict items Eall []) as [e ->]. reflexivity.
Qed.

End HistoryFacts.

(** ** Labels over ASCII *)

Section NormalizeAscii.
Context {B : Builtins}.

Lemma lower_from_ascii s : is_ascii s ->
  forall before, lower_from before s = map ascii_lower s.
Proof.
  induction 1 as [|c s Hc _ IH]; intros before; cbn [lower_from map].
  - reflexivity.
  - rewrite IH. unfold lower_cp, ascii_lower.
    destruct (is_ascii_upper c); [reflexivity|].
    apply N.ltb_lt in Hc. rewrite Hc. reflexivity.
Qed.

Lemma ascii_lower_ascii s : is_ascii s -> is_ascii (map ascii_lower s).
Proof.
  induction 1 as [|c s Hc _ IH]; cbn [map]; constructor; [|exact IH].
  unfold ascii_lower, is_ascii_upper.
  destruct ((65 <=? c)%N && (c <=? 90)%N) eqn:E; [|exact Hc].
  apply andb_prop in E. destruct E as [_ E]. apply N.leb_le in E. lia.
Qed.

Lemma replace_cp_ascii old new s :
  (128 <= old)%N -> is_ascii s -> replace_cp old new s = s.
Proof.
  intros Hold. unfold replace_cp. induction 1 as [|c s Hc _ IH]; cbn [map].
  - reflexivity.
  - replace (c =? old)%N with false; [rewrite IH; reflexivity|].
    symmetry. apply N.eqb_neq. lia.
Qed.

(** X16.  On ASCII text [normalize_label] keeps the letters and digits
    and lowers the letters, so case, spaces and punctuation do not
    matter, and the label of a concatenation is the concatenation of the
    labels. *)
Theorem normalize_label_ascii :
  forall s t,
    is_ascii s -> is_ascii t ->
    normalize_label (PStr s) = filter is_lower_alnum (map ascii_lower s)
    /\ normalize_label (PStr (s ++ t))
       = normalize_label (PStr s) ++ normalize_label (PStr t).
Proof.
  assert (Hone : forall s, is_ascii s ->
                  normalize_label (PStr s)
                  = filter is_lower_alnum (map ascii_lower s)).
  { intros s Hs. unfold normalize_label, str_lower, strip_non_alnum.
    cbn [is_none py_str]. rewrite (lower_from_ascii s Hs).
    pose proof (ascii_lower_ascii s Hs) as Hl.
    rewrite (replace_cp_ascii SUB2 50 _) by (assumption || (unfold SUB2; lia)).
    rewrite (replace_cp_ascii SUB3 51 _) by (assumption || (unfold SUB3; lia)).
    rewrite (replace_cp_ascii SUB5 53 _) by (assumption || (unfold SUB5; lia)).
    reflexivity. }
  intros s t Hs Ht. split; [exact (Hone s Hs)|].
  rewrite (Hone (s ++ t)), (Hone s Hs), (Hone t Ht), map_app, filter_app.
  - reflexivity.
  - apply Forall_app. split; assumption.
Qed.

End NormalizeAscii.

(** ["PM 2.5"] followed by a unit. *)
Lemma normalize_label_ascii_witness :
  normalize_label (B := plain_builtins) (PStr (py "PM 2.5"))
  = filter is_lower_alnum (map ascii_lower (py "PM 2.5"))
  /\ normalize_label (B := plain_builtins) (PStr (py "PM 2.5" ++ py " (ug/m3)"))
     = normalize_label (B := plain_builtins) (PStr (py "PM 2.5"))
       ++ normalize_label (B := plain_builtins) (PStr (py " (ug/m3)")).
Proof.
  apply (normalize_label_ascii (B := plain_builtins)).
  - repeat constructor.
  - repeat constructor.
Defined.

(** ** The station of the second sweep *)

Lemma max_by_len_first_maximum rest : forall best,
  exists before after,
    best :: rest = before ++ max_by_len best rest :: after
    /\ Forall (fun g => (group_size g < group_size (max_by_len best rest))%nat)
              before
    /\ Forall (fun g => (group_size g <= group_size (max_by_len best rest))%nat)
              after.
Proof.
  unfold group_size.
  induction rest as [|e rest IH]; intros best; cbn [max_by_len].
  - exists [], []. repeat split; constructor.
  - destruct (Nat.ltb_spec (List.length (fst (snd best)))
                           (List.length (fst (snd e)))) as [Hlt|Hge].
    + destruct (IH e) as (before & after & Heq & Hb & Ha).
      exists (best :: before), after. split; [|split].
      * cbn [app]. f_equal. exact Heq.
      * constructor; [|exact Hb].
        destruct before as [|e0 before]; cbn [app] in Heq.
        -- injection Heq as He _. rewrite <- He. exact Hlt.
        -- injection Heq as He _. subst e0.
           apply Forall_inv in Hb. cbn beta in Hb. lia.
      * exact Ha.
    + destruct (IH best) as (before & after & Heq & Hb & Ha).
      destruct before as [|e0 before]; cbn [app] in Heq.
      * injection Heq as He Hr.
        exists [], (e :: after). split; [|split].
        -- cbn [app]. rewrite <- He. do 2 f_equal. exact Hr.
        -- constructor.
        -- constructor; [|exact Ha]. rewrite <- He. exact Hge.
      * injection Heq as He Hr. subst e0.
        exists (best :: e :: before), after. split; [|split].
        -- cbn [app]. do 2 f_equal. exact Hr.
        -- pose proof (Forall_inv Hb) as Hbest. cbn beta in Hbest.
           constructor; [exact Hbest|].
           constructor; [lia|]. exact (Forall_inv_tail Hb).
        -- exact Ha.
Qed.

Section Grouping.

Lemma by_loc_add_grouped loc m coords by_loc :
  Permutation (grouped (by_loc_add loc m coords by_loc)) (grouped by_loc ++ [m]).
Proof.
  unfold grouped.
  induction by_loc as [|[k [ms c]] rest IH]; cbn [by_loc_add].
  - reflexivity.
  - destruct (key_eqb loc k); cbn [map List.concat fst snd].
    + rewrite <- !app_assoc. apply Permutation_app_head.
      apply Permutation_app_comm.
    + rewrite <- app_assoc. apply Permutation_app_head. exact IH.
Qed.

Lemma by_loc_add_nonempty loc m coords by_loc :
  Forall (fun g => fst (snd g) <> []) by_loc ->
  Forall (fun g => fst (snd g) <> []) (by_loc_add loc m coords by_loc).
Proof.
  induction 1 as [|[k [ms c]] rest Hg Hrest IH]; cbn [by_loc_add].
  - repeat constructor. discriminate.
  - destruct (key_eqb loc k); constructor; try assumption.
    cbn [fst snd]. destruct ms; discriminate.
Qed.

Lemma group_loop items : forall acc by_loc,
  foldM group_step items acc = Ok by_loc ->
  Forall (fun g => fst (snd g) <> []) acc ->
  Permutation (grouped by_loc) (grouped acc ++ items)
  /\ Forall (fun g => fst (snd g) <> []) by_loc.
Proof.
  induction items as [|m items IH]; intros acc by_loc; cbn [foldM].
  - intros H Hacc. injection H as <-. rewrite app_nil_r. split; [reflexivity|exact Hacc].
  - unfold rbind, group_step at 1, rbind.
    destruct (py_get m (py "location")) as [loc|e]; [|discriminate].
    destruct (hashable loc); [|discriminate].
    destruct (py_get m (py "coordinates")) as [coords|e]; [|discriminate].
    intros Hrun Hacc.
    destruct (IH _ _ Hrun (by_loc_add_nonempty _ _ _ _ Hacc)) as [Hperm Hne].
    split; [|exact Hne].
    rewrite Hperm, (by_loc_add_grouped loc m coords acc), <- app_assoc.
    reflexivity.
Qed.

Lemma plain_key_eqb a b :
  plain_key a -> plain_key b -> (key_eqb a b = true <-> a = b).
Proof.
  intros [->|[q ->]] [->|[q' ->]]; cbn.
  - tauto.
  - split; discriminate.
  - split; discriminate.
  - rewrite pystr_eqb_eq. split; congruence.
Qed.

Lemma plain_key_eqb_refl a : plain_key a -> key_eqb a a = true.
Proof. intros Ha. apply (plain_key_eqb a a Ha Ha). reflexivity. Qed.

Lemma plain_key_eqb_neq a b :
  plain_key a -> plain_key b -> a <> b -> key_eqb a b = false.
Proof.
  intros Ha Hb Hne. destruct (key_eqb a b) eqn:E; [|reflexivity].
  apply (plain_key_eqb a b Ha Hb) in E. contradiction.
Qed.

Lemma records_at_app k ms1 ms2 :
  records_at k (ms1 ++ ms2) = records_at k ms1 ++ records_at k ms2.
Proof. apply filter_app. Qed.

Lemma records_at_one k d :
  records_at k [PDict d]
  = if key_eqb (field (py "location") d) k then [PDict d] else [].
Proof. cbn. destruct (key_eqb _ k); reflexivity. Qed.

(** The groups after one more record, of location [loc]. *)
Lemma by_loc_add_groups seen d coords by_loc :
  plain_key (field (py "location") d) ->
  Forall (fun g => plain_key (fst g)
                   /\ fst (snd g) = records_at (fst g) seen) by_loc ->
  NoDup (map fst by_loc) ->
  (In (field (py "location") d) (map fst by_loc)
   \/ records_at (field (py "location") d) seen = []) ->
  Forall (fun g => plain_key (fst g)
                   /\ fst (snd g) = records_at (fst g) (seen ++ [PDict d]))
         (by_loc_add (field (py "location") d) (PDict d) coords by_loc)
  /\ ((In (field (py "location") d) (map fst by_loc)
       /\ map fst (by_loc_add (field (py "location") d) (PDict d) coords by_loc)
          = map fst by_loc)
      \/ (~ In (field (py "location") d) (map fst by_loc)
          /\ map fst (by_loc_add (field (py "location") d) (PDict d) coords by_loc)
             = map fst by_loc ++ [field (py "location") d])).
Proof.
  set (loc := field (py "location") d). intros Hloc.
  assert (Hval : forall k,
             records_at k (seen ++ [PDict d])
             = records_at k seen ++ (if key_eqb loc k then [PDict d] else [])).
  { intros k. rewrite records_at_app, records_at_one. reflexivity. }
  induction by_loc as [|[k [ms c]] rest IH]; intros Hall Hnd Hcase;
    cbn [by_loc_add].
  - split; [|right; split; [intros []|reflexivity]].
    constructor; [|constructor]. cbn [fst snd]. split; [exact Hloc|].
    rewrite Hval, (plain_key_eqb_refl loc Hloc).
    destruct Hcase as [[] | Hempty]. rewrite Hempty. reflexivity.
  - pose proof (Forall_inv Hall) as [Hk Hms]. cbn [fst snd] in Hk, Hms.
    cbn [map fst] in Hnd. apply NoDup_cons_iff in Hnd.
    destruct Hnd as [Hnotin Hnd].
    destruct (key_eqb loc k) eqn:E.
    + apply (plain_key_eqb loc k Hloc Hk) in E. subst k.
      split; [|left; split; [left; reflexivity | reflexivity]].
      constructor.
      * cbn [fst snd]. split; [exact Hloc|].
        rewrite Hval, (plain_key_eqb_refl loc Hloc), <- Hms. reflexivity.
      * apply Forall_forall. intros g Hg.
        pose proof (Forall_inv_tail Hall) as Htail.
        rewrite Forall_forall in Htail. destruct (Htail g Hg) as [Hgk Hgms].
        split; [exact Hgk|]. rewrite Hval.
        rewrite (plain_key_eqb_neq loc (fst g) Hloc Hgk).
        -- rewrite app_nil_r. exact Hgms.
        -- intros Heq. apply Hnotin. rewrite Heq. apply in_map. exact Hg.
    + assert (Hne : loc <> k).
      { intros ->. rewrite (plain_key_eqb_refl k Hk) in E. discriminate. }
      destruct IH as [IHall IHkeys].
      * exact (Forall_inv_tail Hall).
      * exact Hnd.
      * cbn [map fst In] in Hcase.
        destruct Hcase as [[Hhead|Htail]|Hempty];
          [congruence | left; exact Htail | right; exact Hempty].
      * split.
        -- constructor; [|exact IHall]. cbn [fst snd].
           split; [exact Hk|]. rewrite Hval, E, app_nil_r. exact Hms.
        -- cbn [map fst]. destruct IHkeys as [[Hin' ->]|[Hnot ->]].
           ++ left. split; [right; exact Hin' | reflexivity].
           ++ right. split; [|reflexivity].
              cbn [In]. intros [Hhead|Htail]; [congruence|exact (Hnot Htail)].
Qed.

Lemma by_loc_add_by_location seen d coords by_loc :
  plain_key (field (py "location") d) ->
  grouped_by_location seen by_loc ->
  grouped_by_location (seen ++ [PDict d])
    (by_loc_add (field (py "location") d) (PDict d) coords by_loc).
Proof.
  intros Hloc (Hall & Hnd & Hin).
  assert (Hcase : In (field (py "location") d) (map fst by_loc)
                  \/ records_at (field (py "location") d) seen = []).
  { destruct (records_at (field (py "location") d) seen) eqn:E;
      [right; reflexivity|].
    left. apply Hin; [exact Hloc|]. rewrite E. discriminate. }
  destruct (by_loc_add_groups seen d coords by_loc Hloc Hall Hnd Hcase)
    as [Hall' Hkeys].
  split; [exact Hall'|]. split.
  - destruct Hkeys as [[_ ->]|[Hnot ->]]; [exact Hnd|].
    apply NoDup_app; [exact Hnd | repeat constructor; intros [] |].
    intros a Ha [<-|[]]. exact (Hnot Ha).
  - intros k Hk. rewrite records_at_app, records_at_one.
    destruct (key_eqb (field (py "location") d) k) eqn:E.
    + apply (plain_key_eqb _ k Hloc Hk) in E. subst k. intros _.
      destruct Hkeys as [[Hc ->]|[_ ->]]; [exact Hc|].
      apply in_or_app. right. left. reflexivity.
    + rewrite app_nil_r. intros Hne.
      destruct Hkeys as [[_ ->]|[_ ->]]; [apply Hin; assumption|].
      apply in_or_app. left. apply Hin; assumption.
Qed.

Lemma group_loop_by_location items : forall seen acc by_loc,
  foldM group_step items acc = Ok by_loc ->
  Forall plain_location items ->
  grouped_by_location seen acc ->
  grouped_by_location (seen ++ items) by_loc.
Proof.
  induction items as [|m items IH]; intros seen acc by_loc; cbn [foldM].
  - intros H _ Hacc. injection H as <-. rewrite app_nil_r. exact Hacc.
  - intros Hrun Hitems Hacc.
    destruct (Forall_inv Hitems) as (d & -> & Hloc).
    unfold rbind, group_step at 1, rbind in Hrun.
    rewrite !py_get_dict in Hrun.
    assert (Hhash : hashable (field (py "location") d) = true)
      by (destruct Hloc as [->|[q ->]]; reflexivity).
    rewrite Hhash in Hrun.
    replace (seen ++ PDict d :: items) with ((seen ++ [PDict d]) ++ items)
      by (rewrite <- app_assoc; reflexivity).
    apply (IH _ _ _ Hrun (Forall_inv_tail Hitems)).
    apply by_loc_add_by_location; assumption.
Qed.

Lemma by_loc_add_first_coordinates loc m coords by_loc :
  py_get m (py "coordinates") = Ok coords ->
  Forall first_coordinates by_loc ->
  Forall first_coordinates (by_loc_add loc m coords by_loc).
Proof.
  intros Hc. induction 1 as [|[k [ms c]] rest Hg Hrest IH]; cbn [by_loc_add].
  - repeat constructor. exists m, []. split; [reflexivity | exact Hc].
  - destruct (key_eqb loc k); constructor; try assumption.
    destruct Hg as (m0 & tl & Hms & Hm0). cbn [fst snd] in Hms, Hm0. subst ms.
    exists m0, (tl ++ [m]). split; [reflexivity | exact Hm0].
Qed.

Lemma group_loop_first_coordinates items : forall acc by_loc,
  foldM group_step items acc = Ok by_loc ->
  Forall first_coordinates acc ->
  Forall first_coordinates by_loc.
Proof.
  induction items as [|m items IH]; intros acc by_loc; cbn [foldM].
  - intros H Hacc. injection H as <-. exact Hacc.
  - unfold rbind, group_step at 1, rbind.
    destruct (py_get m (py "location")) as [loc|e]; [|discriminate].
    destruct (hashable loc); [|discriminate].
    destruct (py_get m (py "coordinates")) as [coords|e] eqn:Ec; [|discriminate].
    intros Hrun Hacc. apply (IH _ _ Hrun).
    apply by_loc_add_first_coordinates; assumption.
Qed.

(** X17.  The records of the measurements endpoint are grouped by
    location.  No record is dropped or duplicated, and each group keeps
    the coordinates of its first record.  When the locations are strings
    (or missing), no two groups have the same location and the group of
    a location holds exactly the records of that location, in the order
    of arrival.  The station that is chosen is the first group with the
    most records. *)
Theorem grouping_is_by_location :
  forall items e rest,
    foldM group_step items [] = Ok (e :: rest) ->
    Permutation (grouped (e :: rest)) items
    /\ Forall first_coordinates (e :: rest)
    /\ (Forall plain_location items ->
        NoDup (map fst (e :: rest))
        /\ Forall (fun g => fst (snd g) = records_at (fst g) items) (e :: rest))
    /\ exists before after,
         e :: rest = before ++ max_by_len e rest :: after
         /\ Forall (fun g => (group_size g < group_size (max_by_len e rest))%nat)
                   before
         /\ Forall (fun g => (group_size g <= group_size (max_by_len e rest))%nat)
                   after.
Proof.
  intros items e rest Hrun.
  destruct (group_loop items [] _ Hrun (Forall_nil _)) as [Hperm _].
  split; [exact Hperm|]. split.
  { exact (group_loop_first_coordinates items [] _ Hrun (Forall_nil _)). }
  split; [|apply max_by_len_first_maximum].
  intros Hitems.
  destruct (group_loop_by_location items [] [] _ Hrun Hitems) as (Hall & Hnd & _).
  { split; [constructor|]. split; [constructor|].
    intros k _ Hk. exfalso. apply Hk. reflexivity. }
  cbn [app] in Hall. split; [exact Hnd|].
  apply (Forall_impl _ (P := fun g => plain_key (fst g)
                             /\ fst (snd g) = records_at (fst g) items));
    [|exact Hall].
  intros g [_ Hg]. exact Hg.
Qed.

End Grouping.

(** Two stations with two records each: the groups are those of Sharjah
    and Dubai, and on the tie the first one, Sharjah, is chosen. *)
Lemma grouping_is_by_location_witness :
  (Permutation (grouped [sharjah_group; dubai_group]) two_stations
   /\ Forall first_coordinates [sharjah_group; dubai_group]
   /\ (Forall plain_location two_stations ->
       NoDup (map fst [sharjah_group; dubai_group])
       /\ Forall (fun g => fst (snd g) = records_at (fst g) two_stations)
                 [sharjah_group; dubai_group])
   /\ exists before after,
        [sharjah_group; dubai_group]
        = before ++ max_by_len sharjah_group [dubai_group] :: after
        /\ Forall (fun g =>
                     (group_size g
                      < group_size (max_by_len sharjah_group [dubai_group]))%nat)
                  before
        /\ Forall (fun g =>
                     (group_size g
                      <= group_size (max_by_len sharjah_group [dubai_group]))%nat)
                  after)
  /\ Forall plain_location two_stations
  /\ max_by_len sharjah_group [dubai_group] = sharjah_group.
Proof.
  split; [|split].
  - apply (grouping_is_by_location two_stations sharjah_group [dubai_group]).
    reflexivity.
  - repeat constructor; eexists; (split; [reflexivity|]);
      right; eexists; reflexivity.
  - reflexivity.
Defined.

(** Two records whose location is the [NaN] of the decoder are one
    station. *)
Example nan_locations_share_a_group :
  foldM group_step
        [reading_at (PFloat S754_nan) 10; reading_at (PFloat S754_nan) 20] []
  = Ok [(PFloat S754_nan,
         ([reading_at (PFloat S754_nan) 10; reading_at (PFloat S754_nan) 20],
          PInt 10))].
Proof. reflexivity. Qed.

(** The record of 2025-10-01 answers on the measurements endpoint only:
    the mode is ["pseudo"] and no flag is live. *)
Lemma live_flags_need_latest_mode_witness :
  exists polls flags s',
    script_resolution (B := plain_builtins) (P := scripted_platform)
      (F64.dec 25358 3) (F64.dec 55478 3) true (start history_only)
    = (Ok (polls, flags), s')
    /\ none_live flags.
Proof.
  eassert (E : script_resolution (B := plain_builtins) (P := scripted_platform)
                 (F64.dec 25358 3) (F64.dec 55478 3) true (start history_only)
               = (Ok (_, _), _)) by (vm_compute; reflexivity).
  do 3 eexists. split; [exact E|].
  apply (live_flags_need_latest_mode
           (B := plain_builtins) (P := scripted_platform) _ _ _ _ _ _ _ E).
  vm_compute. intros H. discriminate H.
Defined.

(** Off line with PM2.5 at 30.0: the label is ["PM2.5_proxy"]. *)
Lemma satellite_label_never_demo_witness :
  exists v lbl s',
    satellite_integration (B := plain_builtins) (P := scripted_platform)
      (F64.dec 25358 3) (F64.dec 55478 3) (PFloat (F64.of_Z 30)) (start offline)
    = (Ok (v, lbl), s')
    /\ lbl <> DEMO_FALLBACK
    /\ (lbl = PM25_PROXY <->
        exists s1,
          fetch_satellite_proxy (B := plain_builtins) (P := scripted_platform)
            (F64.dec 25358 3) (F64.dec 55478 3) (start offline)
          = (None, DEMO_FALLBACK, s1)).
Proof.
  eassert (E : satellite_integration (B := plain_builtins) (P := scripted_platform)
                 (F64.dec 25358 3) (F64.dec 55478 3) (PFloat (F64.of_Z 30))
                 (start offline)
               = (Ok (_, _), _)) by (vm_compute; reflexivity).
  do 3 eexists. split; [exact E|].
  exact (satellite_label_never_demo
           (B := plain_builtins) (P := scripted_platform) _ _ _ _ _ _ _ E).
Defined.

(** The history of one PM2.5 record is its value, 31.25. *)
Lemma fetch_pm_history_numbers_witness :
  fst (fetch_pm_history (B := plain_builtins) (P := scripted_platform)
         (F64.dec 25358 3) (F64.dec 55478 3) (Some 5000) (start history_first))
  = [PFloat (F64.dec 3125 2)].
Proof.
  destruct (fetch_pm_history_numbers
              (B := plain_builtins) (P := scripted_platform)
              (F64.dec 25358 3) (F64.dec 55478 3) (Some 5000)
              (start history_first)) as (_ & _ & H).
  erewrite H; cycle 1.
  - reflexivity.
  - reflexivity.
  - reflexivity.
  - reflexivity.
Defined.

(** On 12.3 the index is the result of the table; on [None] it is 0. *)
Lemma aqi_now_estimate_never_used_witness :
  aqi_now (B := plain_builtins) (PFloat (F64.dec 123 1))
  = aqi_bands EPA_BP (F64.dec 123 1)
  /\ aqi_now (B := plain_builtins) PNone = Ok 0
  /\ aqi_estimate (B := plain_builtins) PNone = Raise TypeError.
Proof.
  destruct (aqi_now_estimate_never_used (B := plain_builtins)
              (PFloat (F64.dec 123 1))) as (H1 & _ & _).
  destruct (aqi_now_estimate_never_used (B := plain_builtins) PNone)
    as (_ & H2 & _).
  split; [exact (H1 _ eq_refl) | exact (H2 _ eq_refl)].
Defined.

(** ** Readings that are not numbers; advice after the resolution *)

Section EdgeReadings.
Context {B : Builtins} {P : Platform}.

(** The three phases of the completion. *)
Lemma complete_phases lat ms mode s polls flags s' :
  complete lat ms mode s = (Ok (polls, flags), s') ->
  exists pf s1 pf1,
    ingest iso_to_dt mode ms (polls_init, live_flags_init) s = (Ok pf, s1)
    /\ pm25_fallback lat pf = Ok pf1
    /\ fill_missing (map fst (fst pf1)) pf1 s1 = ((polls, flags), s').
Proof.
  unfold complete, bind, ret. intros Hrun.
  destruct (ingest iso_to_dt mode ms (polls_init, live_flags_init) s)
    as [[pf|e] s1]; cbn [rbind] in Hrun; [|discriminate].
  destruct (pm25_fallback lat pf) as [pf1|e] eqn:E2; [|discriminate].
  destruct (fill_missing (map fst (fst pf1)) pf1 s1) as [pf2 s2] eqn:E3.
  injection Hrun as -> ->. exists pf, s1, pf1.
  split; [reflexivity|]. split; [exact E2 | exact E3].
Qed.

(** A PM2.5 reading is what the PM2.5 slot holds at the end. *)
Lemma pm25_reading_kept lat ms mode s polls flags s' v :
  complete lat ms mode s = (Ok (polls, flags), s') ->
  last_reading ms (py "pm25") v ->
  polls_get (py "pm25") polls = stored v.
Proof.
  intros Hrun Hlast.
  destruct (complete_phases _ _ _ _ _ _ _ Hrun)
    as (pf & s1 & pf1 & Eingest & Efall & Efill).
  pose proof (ingest_slots _ _ _ _ _ _ _ Eingest six_slots_init) as Hs.
  assert (Hk : In (py "pm25") POLLUTANTS) by (left; reflexivity).
  assert (Hval : polls_get (py "pm25") (fst pf) = stored v).
  { apply (ingest_last_reading _ _ _ [] _ _ _ _ Eingest six_slots_init);
      [|exact Hk|exact Hlast].
    intros k0 v0 _ (before & m & after & Heq & _).
    destruct before; discriminate Heq. }
  assert (Hnone : is_none (stored v) = false).
  { destruct Hlast as (_ & m & _ & _ & (p & _ & _ & _ & Hv) & _).
    apply stored_not_none, Hv. }
  destruct (pm25_fallback_fills _ _ _ Efall Hs) as (_ & _ & _ & Hsame & _).
  rewrite Hsame in Efill by (rewrite Hval; exact Hnone).
  destruct (fill_missing_keeps_pm25 _ _ _ _ _ Efill) as [H1 _].
  cbn [fst] in H1. rewrite H1. exact Hval.
Qed.

Lemma not_finite_cases x :
  F64.is_finite x = false ->
  x = S754_nan \/ exists sx, x = S754_infinity sx.
Proof.
  destruct x as [sx|sx| |sx m e]; cbn; try discriminate; intros _;
    [right; exists sx; reflexivity | left; reflexivity].
Qed.

(** A NaN or an infinity is in no band. *)
Lemma not_finite_in_no_band x :
  F64.is_finite x = false ->
  Forall (fun band => in_band band x = false) EPA_BP.
Proof.
  intros Hx. destruct (not_finite_cases x Hx) as [->|[[|] ->]];
    repeat constructor.
Qed.

(** The seed of the random walk cannot be computed from a NaN or an
    infinity. *)
Lemma hourly_forecast_pm_not_finite x hours variance :
  F64.is_finite x = false ->
  hourly_forecast_pm (PFloat x) hours variance = Raise ValueError.
Proof.
  intros Hx. unfold hourly_forecast_pm. cbn [py_float rbind].
  destruct (not_finite_cases x Hx) as [->|[[|] ->]]; reflexivity.
Qed.

(** X19.  A PM2.5 reading that is not a proper number reaches the rest
    of the script as it is.  When it is a NaN or an infinity the index
    is 500 and the random-walk forecast raises [ValueError]; when
    [float] rejects it the index is 0, the random-walk forecast raises
    the exception of [float], and so does the satellite step whenever it
    has no satellite value. *)
Theorem bad_pm25_reading :
  forall lat lon ms mode s polls flags s' v,
    complete lat ms mode s = (Ok (polls, flags), s') ->
    last_reading ms (py "pm25") v ->
    (forall x,
        py_float v = Ok x -> F64.is_finite x = false ->
        aqi_now (polls_get (py "pm25") polls) = Ok 500
        /\ forall hist forecast_var s0,
             (List.length hist < 6)%nat ->
             fst (forecast_section true hist (polls_get (py "pm25") polls)
                                   forecast_var s0)
             = Raise ValueError)
    /\ (forall e,
           py_float v = Raise e ->
           aqi_now (polls_get (py "pm25") polls) = Ok 0
           /\ (forall hist forecast_var s0,
                  (List.length hist < 6)%nat ->
                  fst (forecast_section true hist (polls_get (py "pm25") polls)
                                        forecast_var s0)
                  = Raise e)
           /\ (forall s0 lbl s1,
                  fetch_satellite_proxy lat lon s0 = (None, lbl, s1) ->
                  satellite_integration lat lon (polls_get (py "pm25") polls) s0
                  = (Raise e, s1))).
Proof.
  intros lat lon ms mode s polls flags s' v Hrun Hlast.
  rewrite (pm25_reading_kept _ _ _ _ _ _ _ _ Hrun Hlast). unfold stored.
  split.
  - intros x Hv Hx. rewrite Hv. cbn [rbind try_except]. split.
    + unfold aqi_now.
      rewrite (pm25_to_aqi_fall_through (PFloat x) x eq_refl
                 (not_finite_in_no_band x Hx)).
      reflexivity.
    + intros hist var s0 Hlen.
      rewrite (forecast_section_walk hist _ var s0 Hlen). cbn [fst].
      rewrite (hourly_forecast_pm_not_finite x _ _ Hx). reflexivity.
  - intros e Hv. rewrite Hv. cbn [rbind try_except]. split; [|split].
    + unfold aqi_now, pm25_to_aqi. rewrite Hv. cbn [rbind].
      unfold aqi_estimate. rewrite Hv. reflexivity.
    + intros hist var s0 Hlen.
      rewrite (forecast_section_walk hist _ var s0 Hlen). cbn [fst].
      unfold hourly_forecast_pm. rewrite Hv. reflexivity.
    + intros s0 lbl s1 Hfetch.
      unfold satellite_integration, bind, ret. rewrite Hfetch, Hv. reflexivity.
Qed.

Lemma ADVICE_covers_POLLUTANTS k :
  In k POLLUTANTS -> exists entries, assoc k ADVICE = Some entries.
Proof.
  intros Hk. cbn [POLLUTANTS In] in Hk.
  repeat (destruct Hk as [<-|Hk]; [eexists; reflexivity|]). contradiction.
Qed.

(** The lookup of the advice for a key of [sev] with a class from 0
    to 4. *)
Lemma advice_text_in_range sev worst severity :
  assoc worst sev = Some severity -> 0 <= severity <= 4 ->
  exists text,
    advice_text sev worst = Some text
    /\ match assoc worst ADVICE with
       | Some entries => In text entries
       | None => text = py "No advice available"
       end.
Proof.
  intros Hassoc Hrange. unfold advice_text. rewrite Hassoc.
  destruct (assoc worst ADVICE) as [entries|] eqn:Eadv.
  - pose proof (ADVICE_entries_nonempty _ _ Eadv) as Hnonempty.
    destruct (py_index_in_range entries
                (Z.min severity (Z.of_nat (List.length entries) - 1)))
      as (text & Htext & Hmem).
    { destruct entries; [congruence|]. cbn [List.length]. lia. }
    exists text. auto.
  - exists (py "No advice available"). split; [|reflexivity].
    replace (Z.min severity (Z.of_nat (List.length (@nil pystr)) - 1))
      with (-1) by (cbn [List.length]; lia).
    reflexivity.
Qed.

(** X20.  Whatever the network answers, and for every latitude whose
    twelfth is not infinite, the advice step after the resolution
    succeeds: the worst pollutant is one of the six, and the advice is
    one of the texts [ADVICE] has for it, never the default text. *)
Theorem advice_after_resolution :
  forall lat lon (use_adaptive : bool) s,
    F64.is_inf (F64.div lat f12_0) = false ->
    exists polls flags s' worst text entries,
      script_resolution lat lon use_adaptive s = (Ok (polls, flags), s')
      /\ script_advice polls = Some (worst, text)
      /\ In worst POLLUTANTS
      /\ assoc worst ADVICE = Some entries
      /\ In text entries.
Proof.
  intros lat lon use_adaptive s Hlat. unfold script_resolution, bind.
  pose proof (fetch_openaq_adaptive_shape lat lon
                (if use_adaptive then DEFAULT_RADII else [20000]) s) as Hshape.
  destruct (fetch_openaq_adaptive lat lon _ s)
    as [[[[res used_radius] parsed] source_type] s1].
  cbn [fst] in Hshape.
  destruct (complete_fills lat parsed source_type s1 Hlat
              (well_shaped_dicts _ _ _ _ Hshape))
    as (polls & flags & s2 & Hrun & [Hkeys _] & _).
  cbn [fst] in Hkeys.
  exists polls, flags, s2.
  assert (Hne : polls <> []) by (intros ->; discriminate Hkeys).
  destruct (sev_of_ok polls) as (Hnd & Hall & Hin).
  unfold script_advice.
  destruct (sev_of polls) as [|e rest] eqn:Esev.
  { exfalso. exact (sev_of_nonempty polls Hne Esev). }
  cbn [worst_poll].
  destruct (max_by_sev_first_maximum rest e) as (before & after & Heq & _ & _).
  set (best := max_by_sev e rest) in *.
  assert (Hbest : In best (e :: rest)).
  { rewrite Heq. apply in_or_app. right. left. reflexivity. }
  assert (Hworst : In (fst best) POLLUTANTS).
  { rewrite <- Hkeys. apply Hin. apply in_map. exact Hbest. }
  destruct (ADVICE_covers_POLLUTANTS _ Hworst) as [entries Hentries].
  destruct (advice_text_in_range (e :: rest) (fst best) (snd best))
    as (text & Htext & Hmem).
  { apply In_assoc; [exact Hnd|]. rewrite <- surjective_pairing. exact Hbest. }
  { rewrite Forall_forall in Hall. exact (Hall _ Hbest). }
  rewrite Hentries in Hmem. rewrite Htext.
  exists (fst best), text, entries. auto.
Qed.

End EdgeReadings.

(** A PM2.5 reading that is not a number: the index is 0. *)
Lemma bad_pm25_reading_witness :
  exists polls flags s',
    complete (B := plain_builtins) (P := scripted_platform) (F64.dec 25358 3)
      [measure (PStr (py "pm25")) (PStr (py "n/a")) PNone] (Some latest)
      (start offline)
    = (Ok (polls, flags), s')
    /\ aqi_now (B := plain_builtins) (polls_get (py "pm25") polls) = Ok 0.
Proof.
  eassert (E : complete (B := plain_builtins) (P := scripted_platform)
                 (F64.dec 25358 3)
                 [measure (PStr (py "pm25")) (PStr (py "n/a")) PNone]
                 (Some latest) (start offline)
               = (Ok (_, _), _)) by (vm_compute; reflexivity).
  do 3 eexists. split; [exact E|].
  refine (proj1 (proj2 (bad_pm25_reading
                          (B := plain_builtins) (P := scripted_platform)
                          _ (F64.dec 55478 3) _ _ _ _ _ _ (PStr (py "n/a")) E _)
                       ValueError eq_refl)).
  exists [], (measure (PStr (py "pm25")) (PStr (py "n/a")) PNone), [].
  split; [reflexivity|]. split; [|constructor].
  exists (PStr (py "pm25")). repeat split; reflexivity.
Defined.

(** Off line at Sharjah, Muweilah. *)
Lemma advice_after_resolution_witness :
  exists polls flags s' worst text entries,
    script_resolution (B := plain_builtins) (P := scripted_platform)
      (F64.dec 25358 3) (F64.dec 55478 3) true (start offline)
    = (Ok (polls, flags), s')
    /\ script_advice (B := plain_builtins) polls = Some (worst, text)
    /\ In worst POLLUTANTS
    /\ assoc worst ADVICE = Some entries
    /\ In text entries.
Proof.
  apply (advice_after_resolution
           (B := plain_builtins) (P := scripted_platform)).
  vm_compute. reflexivity.
Defined.

(** ** Slots without a reading *)

Section DrawnSlots.
Context {B : Builtins} {P : Platform}.

Lemma has_reading_reports m k : has_reading m k = true <-> reports m k.
Proof.
  unfold has_reading, reports. split.
  - destruct (py_get m (py "parameter")) as [p|e]; [|discriminate].
    destruct (py_get m (py "value")) as [v|e]; [|discriminate].
    intros H. apply andb_prop in H. destruct H as [Hk Hv].
    apply pystr_eqb_eq in Hk. apply negb_true_iff in Hv.
    exists p, v. auto.
  - intros (p & v & -> & <- & -> & Hv).
    rewrite pystr_eqb_refl, Hv. reflexivity.
Qed.

(** With [iso_to_dt] unbound, reading the measurements leaves the world
    as it is. *)
Lemma ingest_one_state mode pf m s r s' :
  ingest_one iso_to_dt mode pf m s = (r, s') -> s' = s.
Proof.
  destruct pf as [polls flags]. unfold ingest_one, iso_to_dt, call_global.
  destruct (_ <- py_get m (py "parameter") ;; _)%pym as [[[key val] ts]|e];
    [|unfold ret; intros H; injection H as _ <-; reflexivity].
  destruct (dict_in key polls && negb (is_none val));
    [|unfold ret; intros H; injection H as _ <-; reflexivity].
  destruct mode as [[|]|]; try destruct (truthy ts);
    unfold ret; intros H; injection H as _ <-; reflexivity.
Qed.

Lemma ingest_state mode ms : forall pf s r s',
  ingest iso_to_dt mode ms pf s = (r, s') -> s' = s.
Proof.
  induction ms as [|m ms IH]; intros pf s r s'; cbn [ingest].
  - unfold ret. intros H. injection H as _ <-. reflexivity.
  - unfold bind.
    destruct (ingest_one iso_to_dt mode pf m s) as [[pf1|e] s1] eqn:E1.
    + intros Hrun. rewrite (IH _ _ _ _ Hrun).
      exact (ingest_one_state _ _ _ _ _ _ E1).
    + unfold ret. intros H. injection H as _ <-.
      exact (ingest_one_state _ _ _ _ _ _ E1).
Qed.

(** After the measurements are read, a slot is empty exactly when the
    list has no reading of its pollutant. *)
Lemma ingest_one_empty binding mode pf m s pf' s' k :
  ingest_one binding mode pf m s = (Ok pf', s') ->
  six_slots pf -> In k POLLUTANTS ->
  is_none (polls_get k (fst pf'))
  = is_none (polls_get k (fst pf)) && negb (has_reading m k).
Proof.
  destruct pf as [polls flags], pf' as [polls' flags'].
  intros Hrun [Hp _] Hk. cbn [fst snd] in *.
  destruct (ingest_one_polls _ _ _ _ _ _ _ _ _ Hrun) as (p & val & Ep & Ev & ->).
  unfold has_reading. rewrite Ep, Ev.
  assert (Hin : dict_in k polls = true)
    by (apply dict_in_keys; rewrite Hp; exact Hk).
  destruct (pystr_eqb (normalize_label p) k) eqn:E.
  - apply pystr_eqb_eq in E. rewrite E, Hin. cbn [andb].
    destruct (is_none val) eqn:Hval; cbn [negb].
    + rewrite andb_true_r. reflexivity.
    + rewrite polls_get_set_same by assumption.
      rewrite (stored_not_none val Hval), andb_false_r. reflexivity.
  - apply pystr_eqb_neq in E. cbn [andb negb]. rewrite andb_true_r.
    destruct (dict_in (normalize_label p) polls && negb (is_none val));
      [|reflexivity].
    rewrite polls_get_set_other by congruence. reflexivity.
Qed.

Lemma ingest_empty binding mode ms k : forall pf s pf' s',
  ingest binding mode ms pf s = (Ok pf', s') ->
  six_slots pf -> In k POLLUTANTS ->
  is_none (polls_get k (fst pf'))
  = is_none (polls_get k (fst pf))
    && negb (existsb (fun m => has_reading m k) ms).
Proof.
  induction ms as [|m ms IH]; intros pf s pf' s'; cbn [ingest existsb].
  - unfold ret. intros H _ _. injection H as <- _.
    rewrite andb_true_r. reflexivity.
  - unfold bind.
    destruct (ingest_one binding mode pf m s) as [[pf1|e] s1] eqn:E1;
      [|discriminate].
    intros Hrun Hs Hk.
    rewrite (IH _ _ _ _ Hrun (ingest_one_slots _ _ _ _ _ _ _ E1 Hs) Hk).
    rewrite (ingest_one_empty _ _ _ _ _ _ _ k E1 Hs Hk).
    rewrite negb_orb, andb_assoc. reflexivity.
Qed.

Lemma fill_missing_draws keys : forall pf s pf' s',
  fill_missing keys pf s = (pf', s') ->
  six_slots pf -> NoDup keys ->
  (forall k, In k keys -> In k POLLUTANTS) ->
  is_none (polls_get (py "pm25") (fst pf)) = false ->
  Forall (fun k => flag_get k (snd pf') = false) (to_fill keys (fst pf))
  /\ match py_float (polls_get (py "pm25") (fst pf)) with
     | Ok x =>
         (map (fun u => PFloat (derived x u))
              (fst (uniform_draws (List.length (to_fill keys (fst pf))) s)),
          snd (uniform_draws (List.length (to_fill keys (fst pf))) s))
         = (map (fun k => polls_get k (fst pf')) (to_fill keys (fst pf)), s')
     | Raise _ =>
         s' = s
         /\ Forall (fun k => polls_get k (fst pf') = PStr DASH)
                   (to_fill keys (fst pf))
     end.
Proof.
  induction keys as [|k0 keys IH]; intros [polls flags] s pf' s';
    cbn [fill_missing to_fill filter].
  - unfold ret. intros H _ _ _ _. injection H as <- <-. cbn [fst snd].
    split; [constructor|].
    destruct (py_float _); [reflexivity | split; [reflexivity | constructor]].
  - intros Hrun Hs Hnd Hkeys Hpm. cbn [fst snd] in *.
    pose proof Hs as [Hp Hf]. cbn [fst snd] in Hp, Hf.
    apply NoDup_cons_iff in Hnd. destruct Hnd as [Hnotin Hnd].
    assert (Hkeys' : forall k1, In k1 keys -> In k1 POLLUTANTS)
      by (intros k1 H1; apply Hkeys; right; exact H1).
    assert (Hk0 : dict_in k0 polls = true).
    { apply dict_in_keys. rewrite Hp. apply Hkeys. left. reflexivity. }
    assert (Hk0f : dict_in k0 flags = true).
    { apply dict_in_keys. rewrite Hf, <- Hp. apply dict_in_keys, Hk0. }
    fold (to_fill keys polls).
    destruct (is_none (polls_get k0 polls) && negb (pystr_eqb k0 (py "pm25")))
      eqn:Econd.
    + apply andb_prop in Econd. destruct Econd as [Hnone0 Hne0].
      apply negb_true_iff, pystr_eqb_neq in Hne0.
      assert (Hstep : forall v s1,
                 fill_missing keys (dict_set k0 v polls, dict_set k0 false flags) s1
                 = (pf', s') ->
                 is_none v = false ->
                 polls_get k0 (fst pf') = v
                 /\ flag_get k0 (snd pf') = false
                 /\ Forall (fun k => flag_get k (snd pf') = false)
                           (to_fill keys polls)
                 /\ match py_float (polls_get (py "pm25") polls) with
                    | Ok x =>
                        (map (fun u => PFloat (derived x u))
                             (fst (uniform_draws
                                     (List.length (to_fill keys polls)) s1)),
                         snd (uniform_draws (List.length (to_fill keys polls)) s1))
                        = (map (fun k => polls_get k (fst pf'))
                               (to_fill keys polls), s')
                    | Raise _ =>
                        s' = s1
                        /\ Forall (fun k => polls_get k (fst pf') = PStr DASH)
                                  (to_fill keys polls)
                    end).
      { intros v s1 Hrun1 Hv.
        assert (Hs1 : six_slots (dict_set k0 v polls, dict_set k0 false flags))
          by (apply (six_slots_set _ _ _ (polls, flags)); assumption).
        assert (Hpm1 : polls_get (py "pm25") (dict_set k0 v polls)
                       = polls_get (py "pm25") polls)
          by (apply polls_get_set_other; congruence).
        assert (Hfill : to_fill keys (dict_set k0 v polls) = to_fill keys polls).
        { unfold to_fill. apply filter_ext_in. intros k Hk.
          rewrite polls_get_set_other; [reflexivity|].
          intros ->. exact (Hnotin Hk). }
        destruct (fill_missing_fills _ _ _ _ _ Hrun1 Hs1) as (_ & Hkeep & _).
        { cbn [fst]. rewrite Hpm1. exact Hpm. }
        { exact Hkeys'. }
        destruct (Hkeep k0) as [E1 E2].
        { cbn [fst]. rewrite polls_get_set_same by assumption. exact Hv. }
        cbn [fst snd] in E1, E2.
        rewrite polls_get_set_same in E1 by assumption.
        rewrite flag_get_set_same in E2 by assumption.
        destruct (IH _ _ _ _ Hrun1 Hs1 Hnd Hkeys') as [IHflags IHvals].
        { cbn [fst]. rewrite Hpm1. exact Hpm. }
        cbn [fst snd] in IHflags, IHvals.
        rewrite Hfill, Hpm1 in *.
        split; [exact E1|]. split; [exact E2|]. split; assumption. }
      destruct (py_float (polls_get (py "pm25") polls)) as [x|e] eqn:Epm.
      * unfold bind in Hrun.
        destruct (lift (np_random_uniform f0_6 f1_4) s) as [u s1] eqn:Edraw.
        destruct (Hstep _ _ Hrun eq_refl) as (Hv & Hflag & Hflags & Hvals).
        split; [constructor; assumption|].
        cbn [List.length uniform_draws]. rewrite Edraw.
        destruct (uniform_draws (List.length (to_fill keys polls)) s1)
          as [us s2].
        cbn [fst snd map] in *. rewrite Hv.
        injection Hvals as Hus Hs2. rewrite Hus, Hs2. reflexivity.
      * destruct (Hstep _ _ Hrun eq_refl) as (Hv & Hflag & Hflags & Hs' & Hvals).
        split; [constructor; assumption|].
        split; [exact Hs'|]. constructor; assumption.
    + exact (IH _ _ _ _ Hrun Hs Hnd Hkeys' Hpm).
Qed.

Lemma polls_init_empty k : polls_get k polls_init = PNone.
Proof.
  unfold polls_get, polls_init. cbn [map POLLUTANTS assoc].
  repeat (destruct (pystr_eqb k _); [reflexivity|]). reflexivity.
Qed.

(** X21.  In every mode, the pollutants other than PM2.5 of which the
    list has no reading end with their flags false, and their values
    are made from the final PM2.5 with the next values of the global
    generator, one for each of them in the order of [polls]: the slot
    number [i] is [round(max(0.1, pm25 * u), 1)] for the draw number [i]
    of [np.random.uniform(0.6, 1.4)], and nothing else is drawn.  When
    [float] rejects PM2.5 they all hold the mark ["—"] and nothing is
    drawn. *)
Theorem missing_slot_is_derived :
  forall lat ms mode s polls flags s',
    complete lat ms mode s = (Ok (polls, flags), s') ->
    Forall (fun k => flag_get k flags = false) (missing ms)
    /\ match py_float (polls_get (py "pm25") polls) with
       | Ok x =>
           exists us,
             uniform_draws (List.length (missing ms)) s = (us, s')
             /\ map (fun k => polls_get k polls) (missing ms)
                = map (fun u => PFloat (derived x u)) us
       | Raise _ =>
           s' = s
           /\ Forall (fun k => polls_get k polls = PStr DASH) (missing ms)
       end.
Proof.
  intros lat ms mode s polls flags s' Hrun.
  destruct (complete_phases _ _ _ _ _ _ _ Hrun)
    as (pf & s1 & pf1 & Eingest & Efall & Efill).
  pose proof (ingest_state _ _ _ _ _ _ Eingest) as ->.
  pose proof (ingest_slots _ _ _ _ _ _ _ Eingest six_slots_init) as Hs.
  destruct (pm25_fallback_fills _ _ _ Efall Hs) as (Hs1 & Hpm & Hother & _).
  assert (Hfill : to_fill (map fst (fst pf1)) (fst pf1) = missing ms).
  { rewrite (proj1 Hs1). unfold to_fill, missing. apply filter_ext_in.
    intros k Hk. destruct (pystr_eqb k (py "pm25")) eqn:E.
    - cbn [negb]. rewrite !andb_false_r. reflexivity.
    - apply pystr_eqb_neq in E. rewrite (proj1 (Hother k E)).
      rewrite (ingest_empty _ _ _ k _ _ _ _ Eingest six_slots_init Hk).
      cbn [fst]. rewrite polls_init_empty. reflexivity. }
  destruct (fill_missing_keeps_pm25 _ _ _ _ _ Efill) as [Hpm25 _].
  destruct (fill_missing_draws _ _ _ _ _ Efill Hs1) as [Hflags Hvals].
  - rewrite (proj1 Hs1). exact NoDup_POLLUTANTS.
  - rewrite (proj1 Hs1). auto.
  - exact Hpm.
  - rewrite Hfill in Hflags, Hvals. cbn [fst snd] in *.
    split; [exact Hflags|]. rewrite Hpm25.
    destruct (py_float (polls_get (py "pm25") (fst pf1))) as [x|e];
      [|exact Hvals].
    destruct (uniform_draws (List.length (missing ms)) s) as [us s2].
    cbn [fst snd] in Hvals. injection Hvals as Hus ->.
    exists us. split; [reflexivity|]. symmetry. exact Hus.
Qed.

End DrawnSlots.

(** One PM2.5 reading of a station, 12.5, and the draws 0.6, 1.0, 1.4, 0.6
    and 1.0 for the five other pollutants. *)
Lemma missing_slot_is_derived_witness :
  exists polls flags s',
    complete (B := plain_builtins) (P := scripted_platform) (F64.dec 25358 3)
      [station_reading] (Some latest) (start five_draws)
    = (Ok (polls, flags), s')
    /\ missing (B := plain_builtins) [station_reading]
       = [py "pm10"; py "no2"; py "so2"; py "o3"; py "co"]
    /\ Forall (fun k => flag_get k flags = false)
              (missing (B := plain_builtins) [station_reading])
    /\ match py_float (B := plain_builtins) (polls_get (py "pm25") polls) with
       | Ok x =>
           exists us,
             uniform_draws (List.length
                              (missing (B := plain_builtins) [station_reading]))
                           (start five_draws)
             = (us, s')
             /\ map (fun k => polls_get k polls)
                    (missing (B := plain_builtins) [station_reading])
                = map (fun u => PFloat (derived x u)) us
       | Raise _ =>
           s' = start five_draws
           /\ Forall (fun k => polls_get k polls = PStr DASH)
                     (missing (B := plain_builtins) [station_reading])
       end.
Proof.
  eassert (E : complete (B := plain_builtins) (P := scripted_platform)
                 (F64.dec 25358 3) [station_reading] (Some latest)
                 (start five_draws)
               = (Ok (_, _), _)) by (vm_compute; reflexivity).
  do 3 eexists. split; [exact E|]. split; [reflexivity|].
  exact (missing_slot_is_derived
           (B := plain_builtins) (P := scripted_platform) _ _ _ _ _ _ _ E).
Defined.

(** ** The means of the second sweep *)

Section PseudoMeans.
Context {B : Builtins}.

Lemma numeric_values_app p ms1 ms2 :
  numeric_values p (ms1 ++ ms2) = numeric_values p ms1 ++ numeric_values p ms2.
Proof. unfold numeric_values. apply flat_map_app. Qed.

Lemma numeric_values_one p d :
  numeric_values p [PDict d]
  = if truthy (field (py "parameter") d)
       && is_int_or_float (field (py "value") d)
       && key_eqb (field (py "parameter") d) p
    then [field (py "value") d] else [].
Proof. cbn [numeric_values flat_map]. apply app_nil_r. Qed.

Lemma key_eqb_str q q' : key_eqb (PStr q) (PStr q') = pystr_eqb q q'.
Proof. reflexivity. Qed.

(** A record that is skipped adds nothing. *)
Lemma collected_skip seen ps d :
  truthy (field (py "parameter") d) && is_int_or_float (field (py "value") d)
  = false ->
  collected seen ps -> collected (seen ++ [PDict d]) ps.
Proof.
  intros Hskip (Hall & Hnd & Hin).
  assert (Hsame : forall p, numeric_values p (seen ++ [PDict d])
                            = numeric_values p seen).
  { intros p. rewrite numeric_values_app, numeric_values_one, Hskip.
    apply app_nil_r. }
  split; [|split; [exact Hnd|]].
  - apply (Forall_impl _ (P := fun e => exists q, fst e = PStr q
                                /\ snd e = numeric_values (PStr q) seen
                                /\ snd e <> [])); [|exact Hall].
    intros e (q & Hq & Harr & Hne). exists q. rewrite Hsame. auto.
  - intros q. rewrite Hsame. apply Hin.
Qed.

(** The entries after a record with the parameter [q] and the numeric
    value [v]. *)
Lemma key_update_entries seen d q ps :
  field (py "parameter") d = PStr q ->
  truthy (PStr q) = true ->
  is_int_or_float (field (py "value") d) = true ->
  Forall (fun e => exists q', fst e = PStr q'
                              /\ snd e = numeric_values (PStr q') seen
                              /\ snd e <> []) ps ->
  NoDup (map fst ps) ->
  (In (PStr q) (map fst ps) \/ numeric_values (PStr q) seen = []) ->
  Forall (fun e => exists q', fst e = PStr q'
                              /\ snd e = numeric_values (PStr q') (seen ++ [PDict d])
                              /\ snd e <> [])
         (key_update (PStr q) (append_value (field (py "value") d)) ps)
  /\ ((In (PStr q) (map fst ps)
       /\ map fst (key_update (PStr q) (append_value (field (py "value") d)) ps)
          = map fst ps)
      \/ (~ In (PStr q) (map fst ps)
          /\ map fst (key_update (PStr q) (append_value (field (py "value") d)) ps)
             = map fst ps ++ [PStr q])).
Proof.
  intros Hp Htruthy Hnum.
  assert (Hval : forall q',
             numeric_values (PStr q') (seen ++ [PDict d])
             = numeric_values (PStr q') seen
               ++ (if pystr_eqb q q' then [field (py "value") d] else [])).
  { intros q'. rewrite numeric_values_app, numeric_values_one, Hp, Htruthy, Hnum.
    reflexivity. }
  induction ps as [|[k arr] ps IH]; intros Hall Hnd Hcase; cbn [key_update].
  - split; [|right; split; [intros []|reflexivity]].
    repeat constructor. exists q. cbn [fst snd append_value].
    rewrite Hval, pystr_eqb_refl.
    destruct Hcase as [[] | Hempty]. rewrite Hempty.
    split; [reflexivity|]. split; [reflexivity|discriminate].
  - pose proof (Forall_inv Hall) as (q' & Hk & Harr & Hne).
    cbn [fst snd] in Hk, Harr. subst k.
    rewrite key_eqb_str. cbn [map fst] in Hnd.
    apply NoDup_cons_iff in Hnd. destruct Hnd as [Hnotin Hnd].
    destruct (pystr_eqb q q') eqn:E.
    + apply pystr_eqb_eq in E. subst q'.
      split; [|left; split; [left; reflexivity | reflexivity]].
      constructor.
      * exists q. cbn [fst snd append_value].
        rewrite Hval, pystr_eqb_refl, <- Harr.
        split; [reflexivity|]. split; [reflexivity|].
        destruct arr; discriminate.
      * apply Forall_forall. intros e He.
        pose proof (Forall_inv_tail Hall) as Htail.
        rewrite Forall_forall in Htail.
        destruct (Htail e He) as (q'' & Hq'' & Harr'' & Hne'').
        exists q''. rewrite Hval.
        replace (pystr_eqb q q'') with false.
        -- rewrite app_nil_r. auto.
        -- symmetry. apply pystr_eqb_neq. intros ->.
           apply Hnotin. rewrite <- Hq''. apply in_map. exact He.
    + apply pystr_eqb_neq in E.
      destruct IH as [IHall IHkeys].
      * exact (Forall_inv_tail Hall).
      * exact Hnd.
      * cbn [map fst In] in Hcase.
        destruct Hcase as [[Hhead|Htail]|Hempty];
          [congruence | left; exact Htail | right; exact Hempty].
      * split.
        -- constructor; [|exact IHall].
           exists q'. cbn [fst snd]. rewrite Hval.
           replace (pystr_eqb q q') with false
             by (symmetry; apply pystr_eqb_neq; exact E).
           rewrite app_nil_r. auto.
        -- cbn [map fst]. destruct IHkeys as [[Hin' ->]|[Hnot ->]].
           ++ left. split; [right; exact Hin' | reflexivity].
           ++ right. split; [|reflexivity].
              cbn [In]. intros [Hhead|Htail]; [congruence|exact (Hnot Htail)].
Qed.

Lemma collected_update seen d q ps :
  field (py "parameter") d = PStr q ->
  truthy (PStr q) = true ->
  is_int_or_float (field (py "value") d) = true ->
  collected seen ps ->
  collected (seen ++ [PDict d])
            (key_update (PStr q) (append_value (field (py "value") d)) ps).
Proof.
  intros Hp Htruthy Hnum (Hall & Hnd & Hin).
  assert (Hcase : In (PStr q) (map fst ps) \/ numeric_values (PStr q) seen = []).
  { destruct (numeric_values (PStr q) seen) eqn:E; [right; reflexivity|].
    left. apply Hin. rewrite E. discriminate. }
  destruct (key_update_entries seen d q ps Hp Htruthy Hnum Hall Hnd Hcase)
    as [Hall' Hkeys].
  split; [exact Hall'|]. split.
  - destruct Hkeys as [[_ ->]|[Hnot ->]]; [exact Hnd|].
    apply NoDup_app; [exact Hnd | repeat constructor; intros [] |].
    intros a Ha [<-|[]]. exact (Hnot Ha).
  - intros q'. rewrite numeric_values_app, numeric_values_one, Hp, Htruthy, Hnum.
    cbn [andb]. rewrite key_eqb_str.
    destruct (pystr_eqb q q') eqn:E.
    + apply pystr_eqb_eq in E. subst q'. intros _.
      destruct Hkeys as [[Hc ->]|[_ ->]]; [exact Hc|].
      apply in_or_app. right. left. reflexivity.
    + rewrite app_nil_r. intros Hne.
      destruct Hkeys as [[_ ->]|[_ ->]]; [apply Hin, Hne|].
      apply in_or_app. left. apply Hin, Hne.
Qed.

Lemma collect_step_collected seen ps ts m ps' ts' :
  collect_step (ps, ts) m = Ok (ps', ts') ->
  string_param m ->
  collected seen ps -> collected (seen ++ [m]) ps'.
Proof.
  intros Hrun (d & -> & Hparam) Hinv.
  unfold collect_step in Hrun. rewrite !py_get_dict in Hrun.
  cbn [rbind] in Hrun.
  destruct (truthy (field (py "parameter") d)
            && is_int_or_float (field (py "value") d)) eqn:Econd.
  - apply andb_prop in Econd. destruct Econd as [Htruthy Hnum].
    destruct Hparam as [Hnone|[q Hq]];
      [rewrite Hnone in Htruthy; discriminate|].
    rewrite Hq in Hrun, Htruthy. cbn [hashable] in Hrun.
    assert (Hps : ps' = key_update (PStr q)
                          (append_value (field (py "value") d)) ps).
    { unfold rbind in Hrun.
      destruct (measurement_time (PDict d)) as [dt|e]; [|discriminate].
      destruct (truthy dt).
      - destruct (match key_lookup (PStr q) ts with
                  | Some old => py_gt dt old
                  | None => Ok true
                  end) as [[|]|e]; try discriminate;
          injection Hrun as <- _; reflexivity.
      - injection Hrun as <- _. reflexivity. }
    rewrite Hps. apply collected_update; assumption.
  - injection Hrun as <- _. apply collected_skip; assumption.
Qed.

Lemma collect_loop ms : forall seen ps ts ps' ts',
  foldM collect_step ms (ps, ts) = Ok (ps', ts') ->
  Forall string_param ms ->
  collected seen ps -> collected (seen ++ ms) ps'.
Proof.
  induction ms as [|m ms IH]; intros seen ps ts ps' ts'; cbn [foldM].
  - intros H _ Hinv. injection H as <- _. rewrite app_nil_r. exact Hinv.
  - unfold rbind.
    destruct (collect_step (ps, ts) m) as [[ps1 ts1]|e] eqn:E1; [|discriminate].
    intros Hrun Hms Hinv.
    replace (seen ++ m :: ms) with ((seen ++ [m]) ++ ms)
      by (rewrite <- app_assoc; reflexivity).
    apply (IH _ _ _ _ _ Hrun (Forall_inv_tail Hms)).
    exact (collect_step_collected _ _ _ _ _ _ E1 (Forall_inv Hms) Hinv).
Qed.

Lemma parse_pseudo_means best_ms ts ps : forall parsed,
  Forall (fun e => exists q, fst e = PStr q
                             /\ snd e = numeric_values (PStr q) best_ms
                             /\ snd e <> []) ps ->
  mapM (parse_pseudo ts) ps = Ok parsed ->
  Forall2 (fun entry x =>
             exists q avg dt,
               fst entry = PStr q
               /\ numeric_values (PStr q) best_ms <> []
               /\ np_mean (numeric_values (PStr q) best_ms) = Ok avg
               /\ x = measure (PStr q) (PFloat (F64.round_nd avg 2)) dt)
          ps parsed.
Proof.
  induction ps as [|[p arr] ps IH]; intros parsed Hall; cbn [mapM].
  - intros H. injection H as <-. constructor.
  - unfold rbind.
    destruct (parse_pseudo ts (p, arr)) as [x|e] eqn:Ex; [|discriminate].
    destruct (mapM (parse_pseudo ts) ps) as [xs|e]; [|discriminate].
    intros H. injection H as <-.
    constructor; [|exact (IH xs (Forall_inv_tail Hall) eq_refl)].
    destruct (Forall_inv Hall) as (q & Hq & Harr & Hne).
    cbn [fst snd] in Hq, Harr, Hne. subst p.
    unfold parse_pseudo, rbind in Ex.
    destruct (np_mean arr) as [avg|e] eqn:Emean; [|discriminate].
    injection Ex as <-. rewrite Harr in Emean, Hne.
    exists q, avg. eexists. repeat split; try assumption.
Qed.

(** X22.  In the second sweep, on records whose parameter is a string or
    is missing: [params_seen] has exactly one entry for each parameter
    that has a numeric value at the chosen station, and the measure
    made from an entry carries [round(mean, 2)] of all the numeric
    values of that parameter, taken in the order of the records. *)
Theorem pseudo_values_are_means :
  forall best_ms params_seen latest_ts parsed,
    Forall string_param best_ms ->
    foldM collect_step best_ms ([], []) = Ok (params_seen, latest_ts) ->
    mapM (parse_pseudo latest_ts) params_seen = Ok parsed ->
    Forall2 (fun entry x =>
               exists q avg dt,
                 fst entry = PStr q
                 /\ numeric_values (PStr q) best_ms <> []
                 /\ np_mean (numeric_values (PStr q) best_ms) = Ok avg
                 /\ x = measure (PStr q) (PFloat (F64.round_nd avg 2)) dt)
            params_seen parsed
    /\ NoDup (map fst params_seen)
    /\ (forall q, numeric_values (PStr q) best_ms <> [] ->
                  In (PStr q) (map fst params_seen)).
Proof.
  intros best_ms ps ts parsed Hms Hloop Hparsed.
  destruct (collect_loop best_ms [] [] [] ps ts Hloop Hms)
    as (Hall & Hnd & Hin).
  { split; [constructor|]. split; [constructor|].
    intros q Hq. exfalso. apply Hq. reflexivity. }
  cbn [app] in Hall, Hin. split; [|split; assumption].
  exact (parse_pseudo_means best_ms ts ps parsed Hall Hparsed).
Qed.

End PseudoMeans.

(** One record of PM2.5 at 31.25. *)
Lemma pseudo_values_are_means_witness :
  Forall2 (fun entry x =>
             exists q avg dt,
               fst entry = PStr q
               /\ numeric_values (PStr q) [history_record] <> []
               /\ np_mean (Builtins := plain_builtins)
                    (numeric_values (PStr q) [history_record]) = Ok avg
               /\ x = measure (PStr q) (PFloat (F64.round_nd avg 2)) dt)
          [(PStr (py "pm25"), [PFloat (F64.dec 3125 2)])]
          [measure (PStr (py "pm25")) (PFloat (F64.dec 3125 2))
                   (PStr (py "2025-10-01T00:00:00Z"))]
  /\ NoDup (map fst [(PStr (py "pm25"), [PFloat (F64.dec 3125 2)])])
  /\ (forall q, numeric_values (PStr q) [history_record] <> [] ->
                In (PStr q)
                   (map fst [(PStr (py "pm25"), [PFloat (F64.dec 3125 2)])])).
Proof.
  apply (pseudo_values_are_means (B := plain_builtins) [history_record]
           [(PStr (py "pm25"), [PFloat (F64.dec 3125 2)])]
           [(PStr (py "pm25"), PStr (py "2025-10-01T00:00:00Z"))]).
  - repeat constructor. eexists. split; [reflexivity|].
    right. eexists. reflexivity.
  - vm_compute. reflexivity.
  - vm_compute. reflexivity.
Defined.
